(** * The neuraltalk2 data loader: batches, captions and epoch bookkeeping

    A shallow embedding of [combined_model/neuraltalk2_pytorch/dataloader.py]
    (classes [DataLoader] and [BlobFetcher]) and the properties of its batch
    assembler, caption index, split registry and prefetcher.

    Conventions of the embedding:
    - Python integers that come from the data files or from the caller
      (caption pointers, tokens, [batch_size], [seq_per_img]) are [Z];
      list positions and image indices, which the code only ever produces
      from [range] and [len], are [nat];
    - the three dictionaries keyed by the split name are [gmap string _];
    - every method runs in a state and error monad: an exception ends the
      run, the state is the loader object together with the state of the
      [random] module and the feature files on disk;
    - the loader is embedded with [contrastive=False], the default of its
      constructor; what [contrastive=True] adds to the constructor and to
      [__getitem__] is embedded on its own, in the section on contrastive
      pairs;
    - an array loaded with [np.load] is represented by the file it was read
      from; feature files are taken to be present, and the shape of the
      array each of them holds is part of the state ([files]), which no
      method writes;
    - an array of [dtype='int'] holds 64-bit signed integers: a value that
      is stored into one is cast, by wrap-around. *)

From stdpp Require Import base tactics option list gmap strings fin_maps sorting pretty.
From Stdlib Require Import ZArith Lia.

Local Open Scope Z_scope.

(** ** Exceptions and the state-error monad *)

Inductive exn : Type :=
  | AssertionError (msg : string)
  | IndexError
  | KeyError (key : string)
  | ValueError
  | StopIteration.

Inductive result (A : Type) : Type :=
  | Ok (a : A)
  | Err (e : exn).
Arguments Ok {A} a.
Arguments Err {A} e.

#[global] Instance exn_eq_dec : EqDecision exn.
Proof. solve_decision. Defined.

#[global] Instance result_eq_dec {A} `{EqDecision A} : EqDecision (result A).
Proof. solve_decision. Defined.

Definition M (S A : Type) : Type := S → result (A * S).

Definition ret {S A} (a : A) : M S A := λ s, Ok (a, s).

Definition raise {S A} (e : exn) : M S A := λ _, Err e.

Definition bind {S A B} (m : M S A) (k : A → M S B) : M S B :=
  λ s, match m s with
       | Ok (a, s') => k a s'
       | Err e => Err e
       end.

Definition gets {S A} (f : S → A) : M S A := λ s, Ok (f s, s).

Definition modify {S} (f : S → S) : M S unit := λ s, Ok (tt, f s).

(** [d[k]] on a dictionary, [l[i]] on a list: the lookup or the exception. *)
Definition of_option {S A} (o : option A) (e : exn) : M S A :=
  match o with
  | Some a => ret a
  | None => raise e
  end.

Definition of_result {S A} (r : result A) : M S A :=
  match r with
  | Ok a => ret a
  | Err e => raise e
  end.

(** The value a run returns, without the final state. *)
Definition eval {S A} (m : M S A) (s : S) : result A :=
  match m s with
  | Ok (a, _) => Ok a
  | Err e => Err e
  end.

#[global] Instance M_ret {S} : MRet (M S) := λ A, ret.
#[global] Instance M_bind {S} : MBind (M S) := λ A B k m, bind m k.

(** ** The [random] module

    The generator is a tape of raw draws.  [_randbelow n] reads one draw and
    reduces it into [range(n)]; [randint] and [shuffle] are the library's
    definitions on top of it. *)

Definition Rng : Type := nat → nat.

Definition _randbelow (n : nat) : M Rng nat :=
  λ g, Ok ((g 0 mod n)%nat, λ k, g (S k)).

(** [random.randint(a, b)]: an integer of [a..b], both ends included. *)
Definition randint (a b : Z) : M Rng Z :=
  if decide (b < a) then raise ValueError
  else r ← _randbelow (Z.to_nat (b - a + 1)); ret (a + Z.of_nat r).

(** [x[i], x[j] = x[j], x[i]] *)
Definition swap {A} (x : list A) (i j : nat) : list A :=
  match x !! i, x !! j with
  | Some xi, Some xj => <[j:=xi]> (<[i:=xj]> x)
  | _, _ => x
  end.

(** [random.shuffle(x)]: for [i] from [len(x)-1] down to [1], exchange
    [x[i]] with [x[j]] for a drawn [j] of [0..i]. *)
Fixpoint shuffle_from {A} (i : nat) (x : list A) : M Rng (list A) :=
  match i with
  | O => ret x
  | S i' => j ← _randbelow (S i); shuffle_from i' (swap x i j)
  end.

Definition shuffle {A} (x : list A) : M Rng (list A) :=
  shuffle_from (length x - 1)%nat x.

(** ** Python and numpy helpers *)

(** [x or d] on an optional integer argument: [None] and [0] are falsy. *)
Definition py_or (x : option Z) (d : Z) : Z :=
  match x with
  | Some v => if decide (v = 0) then d else v
  | None => d
  end.

(** A bound of a slice, as [slice.indices] normalises it against length [n]. *)
Definition py_slice_bound (n i : Z) : Z :=
  if decide (i < 0) then Z.max 0 (n + i) else Z.min i n.

Abbreviation matrix := (list (list Z)).

(** The cast of an integer to the element type of a [dtype='int'] array,
    the 64-bit signed integers: wrap-around in two's complement. *)
Definition int64 (z : Z) : Z := (z + 2 ^ 63) `mod` 2 ^ 64 - 2 ^ 63.

(** [np.zeros([r, c], dtype='int')] *)
Definition np_zeros {S} (r : Z) (c : nat) : M S matrix :=
  if decide (r < 0) then raise ValueError
  else ret (replicate (Z.to_nat r) (replicate c 0)).

(** [dst[c0 : c0 + len(src)] = src] inside one row of a [dtype='int']
    array: the values are cast as they are stored. *)
Definition set_cols (c0 : nat) (src dst : list Z) : list Z :=
  take c0 dst ++ (int64 <$> src) ++ drop (c0 + length src) dst.

(** [m[r0 : r1, c0 : c0 + w] = src] on a [dtype='int'] array [m], where
    [src] has rows of width [w]: row for row when the counts agree, one
    source row broadcast over the block, [ValueError] otherwise. *)
Definition assign_block {S} (m : matrix) (r0 r1 : Z) (c0 : nat) (src : matrix)
    : M S matrix :=
  let n := Z.of_nat (length m) in
  let lo := Z.to_nat (py_slice_bound n r0) in
  let hi := Z.to_nat (py_slice_bound n r1) in
  let k := (hi - lo)%nat in
  if decide (length src = k) then
    ret (take lo m ++ zip_with (set_cols c0) src (take k (drop lo m))
           ++ drop (lo + k) m)
  else
    match src with
    | [r] => ret (take lo m ++ map (set_cols c0 r) (take k (drop lo m))
                    ++ drop (lo + k) m)
    | _ => raise ValueError
    end.

(** [for i in idxs: dst[i, :] = src[i, :]], both arrays of [dtype='int']:
    the rows are copied as they are. *)
Fixpoint copy_rows {S} (idxs : list nat) (dst src : matrix) : M S matrix :=
  match idxs with
  | [] => ret dst
  | i :: rest =>
      r ← of_option (src !! i) IndexError;
      if decide (i < length dst)%nat
      then copy_rows rest (<[i:=r]> dst) src
      else raise IndexError
  end.

(** [(x != 0).sum()] *)
Definition count_nonzero (x : list Z) : nat :=
  length (filter (λ v, v ≠ 0) x).

(** [row[:n] = 1] *)
Definition fill_ones (n : nat) (row : list Z) : list Z :=
  replicate (n `min` length row)%nat 1 ++ drop n row.

(** [np.stack(xs)] on arrays of shapes [shape x]: refuses an empty list,
    and arrays that do not all have the shape of the first. *)
Definition np_stack {S A} (shape : A → list nat) (xs : list A) : M S (list A) :=
  match xs with
  | [] => raise ValueError
  | x :: rest =>
      if decide (Forall (λ y, shape y = shape x) rest) then ret xs
      else raise ValueError
  end.

(** ** The data model *)

(** A two-dimensional integer array: its shape and its cells. *)
Record Array2 : Type := {
  shape0 : nat;
  shape1 : nat;
  cell : nat → nat → Z
}.

(** Row [i] cut to its first [w] columns. *)
Definition row_of (t : Array2) (w i : nat) : list Z :=
  map (cell t i) (seq 0 (w `min` shape1 t)).

(** [t[i, :w]] on an HDF5 dataset: a negative index counts from the end. *)
Definition h5_row {S} (t : Array2) (i : Z) (w : nat) : M S (list Z) :=
  let n := Z.of_nat (shape0 t) in
  let j := if decide (i < 0) then n + i else i in
  if decide (0 ≤ j < n) then ret (row_of t w (Z.to_nat j))
  else raise IndexError.

(** [t[a:b, :w]] *)
Definition h5_rows (t : Array2) (a b : Z) (w : nat) : matrix :=
  let n := Z.of_nat (shape0 t) in
  let lo := Z.to_nat (py_slice_bound n a) in
  let hi := Z.to_nat (py_slice_bound n b) in
  map (row_of t w) (seq lo (hi - lo)).

(** One entry of [info['images']]. *)
Record ImageRecord : Type := {
  img_split : string;
  img_id : Z;
  img_file_path : string
}.

(** The parsed [input_json]. *)
Record Info : Type := {
  ix_to_word : gmap string string;
  images : list ImageRecord
}.

(** The opened [input_label_h5]. *)
Record H5 : Type := {
  h5_labels : Array2;
  h5_label_start_ix : list Z;
  h5_label_end_ix : list Z
}.

(** The options the loader reads; [opt_use_att] is absent or a flag. *)
Record Opt : Type := {
  opt_batch_size : Z;
  opt_seq_per_img : Z;
  opt_use_att : option bool;
  opt_train_only : Z;
  input_fc_dir : string;
  input_att_dir : string
}.

(** An array as [np.load] returned it, named by the file it came from, or
    the [np.zeros((1,1,1))] placeholder.  The shape of the array of a file is
    looked up in the [files] of the state ([feat_shape]). *)
Inductive Feat : Type :=
  | NpyFile (dir : string) (id : Z)
  | NpzFeat (dir : string) (id : Z)
  | Zeros111.

(** What [__getitem__] returns. *)
Record Example : Type := {
  ex_fc : Feat;
  ex_att : Feat;
  ex_ix : nat
}.

(** A [BlobFetcher]; [split_loader] is [None] until the first [reset], and
    then the indices the worker pool still has to deliver. *)
Record BlobFetcher : Type := {
  bf_split : string;
  if_shuffle : bool;
  split_loader : option (list nat)
}.

Record DataLoader : Type := {
  opt : Opt;
  allow_shuffle : bool;
  info : Info;
  h5_label_file : H5;
  split_ix : gmap string (list nat);
  iterators : gmap string nat;
  _prefetch_process : gmap string BlobFetcher
}.

Definition batch_size (L : DataLoader) : Z := opt_batch_size (opt L).
Definition seq_per_img (L : DataLoader) : Z := opt_seq_per_img (opt L).
Definition use_att (L : DataLoader) : bool := default true (opt_use_att (opt L)).
Definition vocab_size (L : DataLoader) : nat := size (ix_to_word (info L)).
Definition seq_length (L : DataLoader) : nat :=
  shape1 (h5_labels (h5_label_file L)).
Definition label_start_ix (L : DataLoader) : list Z :=
  h5_label_start_ix (h5_label_file L).
Definition label_end_ix (L : DataLoader) : list Z :=
  h5_label_end_ix (h5_label_file L).
Definition num_images (L : DataLoader) : nat := length (label_start_ix L).

Definition set_split_ix (m : gmap string (list nat)) (L : DataLoader)
    : DataLoader :=
  {| opt := opt L; allow_shuffle := allow_shuffle L; info := info L;
     h5_label_file := h5_label_file L; split_ix := m;
     iterators := iterators L; _prefetch_process := _prefetch_process L |}.

Definition set_iterators (m : gmap string nat) (L : DataLoader) : DataLoader :=
  {| opt := opt L; allow_shuffle := allow_shuffle L; info := info L;
     h5_label_file := h5_label_file L; split_ix := split_ix L;
     iterators := m; _prefetch_process := _prefetch_process L |}.

Definition set_prefetch_process (m : gmap string BlobFetcher) (L : DataLoader)
    : DataLoader :=
  {| opt := opt L; allow_shuffle := allow_shuffle L; info := info L;
     h5_label_file := h5_label_file L; split_ix := split_ix L;
     iterators := iterators L; _prefetch_process := m |}.

(** The state a method runs in: the loader object, the [random] module,
    and the feature files on disk, of which the program depends on the
    shape of the array that [np.load] reads from each. *)
Record World : Type := {
  loader : DataLoader;
  random : Rng;
  files : Feat → list nat
}.

Definition lift_rng {A} (m : M Rng A) : M World A :=
  λ w, match m (random w) with
       | Ok (a, g) => Ok (a, {| loader := loader w; random := g; files := files w |})
       | Err e => Err e
       end.

Definition update_loader (f : DataLoader → DataLoader) : M World unit :=
  modify (λ w, {| loader := f (loader w); random := random w;
                  files := files w |}).

(** The shape of a loaded array. *)
Definition feat_shape (w : World) (x : Feat) : list nat :=
  match x with
  | Zeros111 => [1; 1; 1]%nat
  | _ => files w x
  end.

(** ** Construction *)

Definition BlobFetcher__init__ (split : string) (if_shuffle : bool)
    : BlobFetcher :=
  {| bf_split := split; if_shuffle := if_shuffle; split_loader := None |}.

(** [self.split_ix[s].append(ix)] *)
Definition append_ix (s : string) (ix : nat) (m : gmap string (list nat))
    : gmap string (list nat) :=
  alter (λ l, l ++ [ix]) s m.

(** The body of the loop that separates the indexes of the splits. *)
Definition classify (train_only : Z) (m : gmap string (list nat)) (ix : nat)
    (img : ImageRecord) : gmap string (list nat) :=
  if decide (img_split img = "train") then append_ix "train" ix m
  else if decide (img_split img = "val") then append_ix "val" ix m
  else if decide (img_split img = "test") then append_ix "test" ix m
  else if decide (train_only = 0) then append_ix "train" ix m
  else m.

Fixpoint split_loop (train_only : Z) (ix : nat) (imgs : list ImageRecord)
    (m : gmap string (list nat)) : gmap string (list nat) :=
  match imgs with
  | [] => m
  | img :: rest => split_loop train_only (S ix) rest (classify train_only m ix img)
  end.

Definition empty_splits : gmap string (list nat) :=
  <["train":=[]]> (<["val":=[]]> (<["test":=[]]> ∅)).

Definition DataLoader__init__ (o : Opt) (allow_shuffle : bool) (inf : Info)
    (h5 : H5) : result DataLoader :=
  let split_ix := split_loop (opt_train_only o) 0 (images inf) empty_splits in
  let iterators : gmap string nat :=
    <["train":=0%nat]> (<["val":=0%nat]> (<["test":=0%nat]> ∅)) in
  let prefetch :=
    map_imap (λ split _,
      Some (BlobFetcher__init__ split
              (allow_shuffle && bool_decide (split = "train")))) iterators in
  Ok {| opt := o; allow_shuffle := allow_shuffle; info := inf;
        h5_label_file := h5; split_ix := split_ix; iterators := iterators;
        _prefetch_process := prefetch |}.

Definition get_split_size (split : string) : M World nat :=
  L ← gets loader;
  l ← of_option (split_ix L !! split) (KeyError split);
  ret (length l).

(** [del self._prefetch_process[split]], a fresh fetcher in its place, and
    the cursor of the split back to 0. *)
Definition reset_iterator (split : string) : M World unit :=
  L ← gets loader;
  _ ← of_option (_prefetch_process L !! split) (KeyError split);
  let fresh :=
    BlobFetcher__init__ split (allow_shuffle L && bool_decide (split = "train")) in
  update_loader (λ L, set_prefetch_process
     (<[split:=fresh]> (delete split (_prefetch_process L))) L);;
  update_loader (λ L, set_iterators (<[split:=0%nat]> (iterators L)) L).

(** ** Caption index *)

Definition no_label_msg : string :=
  "an image does not have any label. this can be handled but right now isn't".

(** The loop of the subsampling branch:
    [for q in range(seq_per_img): seq[q, :] = labels[randint(ix1, ix2), :]],
    on the [dtype='int'] array [seq]. *)
Fixpoint subsample (t : Array2) (w : nat) (ix1 ix2 : Z) (qs : list nat)
    (sq : matrix) : M World matrix :=
  match qs with
  | [] => ret sq
  | q :: rest =>
      ixl ← lift_rng (randint ix1 ix2);
      r ← h5_row t ixl w;
      subsample t w ix1 ix2 rest (<[q:=int64 <$> r]> sq)
  end.

Definition _get_sequence (ix : nat) (seq_per_img : Z) : M World matrix :=
  L ← gets loader;
  s ← of_option (label_start_ix L !! ix) IndexError;
  e ← of_option (label_end_ix L !! ix) IndexError;
  let ix1 := s - 1 in
  let ix2 := e - 1 in
  let ncap := ix2 - ix1 + 1 in
  if decide (ncap > 0) then
    let labels := h5_labels (h5_label_file L) in
    if decide (ncap < seq_per_img) then
      zeros ← np_zeros seq_per_img (seq_length L);
      subsample labels (seq_length L) ix1 ix2 (seq 0 (Z.to_nat seq_per_img)) zeros
    else
      ixl ← lift_rng (randint ix1 (ix2 - seq_per_img + 1));
      ret (h5_rows labels ixl (ixl + seq_per_img) (seq_length L))
  else raise (AssertionError no_label_msg).

Record InfoDict : Type := {
  info_ix : nat;
  info_id : Z;
  info_file_path : string
}.

Definition _make_info_dict (ix : nat) : M World InfoDict :=
  L ← gets loader;
  img ← of_option (images (info L) !! ix) IndexError;
  ret {| info_ix := ix; info_id := img_id img;
          info_file_path := img_file_path img |}.

(** ** Feature store reader *)

Definition get_npy_data (ix : nat) (fc_file att_file : Feat) (use_att : bool)
    : Example :=
  if use_att then {| ex_fc := fc_file; ex_att := att_file; ex_ix := ix |}
  else {| ex_fc := fc_file; ex_att := Zeros111; ex_ix := ix |}.

Definition __getitem__ (index : nat) : M World Example :=
  L ← gets loader;
  let ix := index in
  img ← of_option (images (info L) !! ix) IndexError;
  ret (get_npy_data ix
          (NpyFile (input_fc_dir (opt L)) (img_id img))
          (NpzFeat (input_att_dir (opt L)) (img_id img))
          (use_att L)).

(** ** Prefetcher *)

(** [BlobFetcher.reset]: the pool is primed with a copy of the split's
    order from the cursor on. *)
Definition BlobFetcher_reset (f : BlobFetcher) : M World BlobFetcher :=
  L ← gets loader;
  l ← of_option (split_ix L !! bf_split f) (KeyError (bf_split f));
  ri ← of_option (iterators L !! bf_split f) (KeyError (bf_split f));
  ret {| bf_split := bf_split f; if_shuffle := if_shuffle f;
          split_loader := Some (drop ri l) |}.

Definition _get_next_minibatch_inds (f : BlobFetcher) : M World (nat * bool) :=
  L ← gets loader;
  l ← of_option (split_ix L !! bf_split f) (KeyError (bf_split f));
  let max_index := length l in
  ri ← of_option (iterators L !! bf_split f) (KeyError (bf_split f));
  ix ← of_option (l !! ri) IndexError;
  let ri_next := S ri in
  if decide (max_index ≤ ri_next)%nat then
    (if if_shuffle f then
       l' ← lift_rng (shuffle l);
       update_loader (λ L, set_split_ix (<[bf_split f:=l']> (split_ix L)) L)
     else ret tt);;
    update_loader (λ L, set_iterators (<[bf_split f:=0%nat]> (iterators L)) L);;
    ret (ix, true)
  else
    update_loader (λ L, set_iterators (<[bf_split f:=ri_next]> (iterators L)) L);;
    ret (ix, false).

(** [self.split_loader.next()]: the next index of the primed order, loaded. *)
Definition split_loader_next (f : BlobFetcher) : M World (Example * BlobFetcher) :=
  match split_loader f with
  | Some (idx :: rest) =>
      tmp ← __getitem__ idx;
      ret (tmp, {| bf_split := bf_split f; if_shuffle := if_shuffle f;
                    split_loader := Some rest |})
  | Some [] => raise StopIteration
  | None => raise (KeyError "split_loader")
  end.

Definition BlobFetcher_get (f : BlobFetcher)
    : M World (Example * bool * BlobFetcher) :=
  f ← (if split_loader f is None then BlobFetcher_reset f else ret f);
  '(ix, wrapped) ← _get_next_minibatch_inds f;
  '(tmp, f) ← split_loader_next f;
  f ← (if wrapped : bool then BlobFetcher_reset f else ret f);
  if decide (ex_ix tmp = ix) then ret (tmp, wrapped, f)
  else raise (AssertionError "ix not equal").

(** [self._prefetch_process[split].get()]: the fetcher stored under [split]
    runs [get] and is left there in its new state. *)
Definition prefetch_get (split : string) : M World (Example * bool) :=
  L ← gets loader;
  f ← of_option (_prefetch_process L !! split) (KeyError split);
  '(tmp, wrapped, f') ← BlobFetcher_get f;
  update_loader (λ L, set_prefetch_process
     (<[split:=f']> (_prefetch_process L)) L);;
  ret (tmp, wrapped).

(** ** Batch assembler *)

Record Bounds : Type := {
  it_pos_now : nat;
  it_max : nat;
  wrapped : bool
}.

Record Batch : Type := {
  fc_feats : list Feat;
  att_feats : list Feat;
  labels : matrix;
  gts : list matrix;
  masks : matrix;
  bounds : Bounds;
  infos : list InfoDict
}.

(** The variables the fetch loop of [get_batch] updates. *)
Record BatchAcc : Type := {
  fc_batch : list Feat;
  att_batch : list Feat;
  tmp_label_batch : matrix;
  acc_infos : list InfoDict;
  acc_gts : list matrix;
  acc_wrapped : bool;
  acc_i : nat
}.

(** One pass through the body of [for i in range(batch_size)], up to the
    test of [tmp_wrapped], which the pass returns. *)
Definition batch_body (split : string) (seq_per_img : Z) (i : nat)
    (acc : BatchAcc) : M World (BatchAcc * bool) :=
  '(img_data, tmp_wrapped) ← prefetch_get split;
  let ix := ex_ix img_data in
  let fc := fc_batch acc ++ replicate (Z.to_nat seq_per_img) (ex_fc img_data) in
  let att := att_batch acc ++ replicate (Z.to_nat seq_per_img) (ex_att img_data) in
  sq ← _get_sequence ix seq_per_img;
  tmp ← assign_block (tmp_label_batch acc)
          (Z.of_nat i * seq_per_img) ((Z.of_nat i + 1) * seq_per_img) 1 sq;
  L ← gets loader;
  s ← of_option (label_start_ix L !! ix) IndexError;
  e ← of_option (label_end_ix L !! ix) IndexError;
  let labels := h5_labels (h5_label_file L) in
  let gt := h5_rows labels (s - 1) e (shape1 labels) in
  inf ← _make_info_dict ix;
  ret ({| fc_batch := fc; att_batch := att; tmp_label_batch := tmp;
          acc_infos := acc_infos acc ++ [inf]; acc_gts := acc_gts acc ++ [gt];
          acc_wrapped := acc_wrapped acc; acc_i := i |}, tmp_wrapped).

(** [if tmp_wrapped: wrapped = True; break] *)
Definition set_wrapped (acc : BatchAcc) : BatchAcc :=
  {| fc_batch := fc_batch acc; att_batch := att_batch acc;
     tmp_label_batch := tmp_label_batch acc; acc_infos := acc_infos acc;
     acc_gts := acc_gts acc; acc_wrapped := true; acc_i := acc_i acc |}.

Fixpoint batch_loop (split : string) (seq_per_img : Z) (idxs : list nat)
    (acc : BatchAcc) : M World BatchAcc :=
  match idxs with
  | [] => ret acc
  | i :: rest =>
      '(acc, tmp_wrapped) ← batch_body split seq_per_img i acc;
      if tmp_wrapped : bool then ret (set_wrapped acc)
      else batch_loop split seq_per_img rest acc
  end.

Definition get_batch (split : string) (batch_size_arg seq_per_img_arg : option Z)
    : M World Batch :=
  L ← gets loader;
  let batch_size := py_or batch_size_arg (batch_size L) in
  let seq_per_img := py_or seq_per_img_arg (seq_per_img L) in
  tmp ← np_zeros (batch_size * seq_per_img) (seq_length L + 2);
  acc ← batch_loop split seq_per_img (seq 0 (Z.to_nat batch_size))
          {| fc_batch := []; att_batch := []; tmp_label_batch := tmp;
             acc_infos := []; acc_gts := []; acc_wrapped := false;
             acc_i := 0 |};
  let actual_batch_size := (acc_i acc + 1)%nat in
  zeros ← np_zeros (Z.of_nat actual_batch_size * seq_per_img) (seq_length L + 2);
  label_batch ← copy_rows (seq 0 actual_batch_size) zeros (tmp_label_batch acc);
  mask_batch ← np_zeros (Z.of_nat actual_batch_size * seq_per_img)
                 (seq_length L + 2);
  let nonzeros := map (λ x, count_nonzero x + 2)%nat label_batch in
  (* [for ix, row in enumerate(mask_batch): row[:nonzeros[ix]] = 1];
     [nonzeros] has one entry for each row of [mask_batch] *)
  let mask_batch := zip_with fill_ones nonzeros mask_batch in
  (* [np.stack] looks at the shapes of the arrays that were loaded *)
  shape ← gets feat_shape;
  fc ← np_stack shape (fc_batch acc);
  att ← np_stack shape (att_batch acc);
  L ← gets loader;
  pos ← of_option (iterators L !! split) (KeyError split);
  l ← of_option (split_ix L !! split) (KeyError split);
  ret {| fc_feats := fc; att_feats := att; labels := label_batch;
         gts := acc_gts acc; masks := mask_batch;
         bounds := {| it_pos_now := pos; it_max := length l;
                      wrapped := acc_wrapped acc |};
         infos := acc_infos acc |}.

(** ** Definitions used to state the properties *)

(** The positions, counted from [ix], of the records that satisfy [P]. *)
Fixpoint indices_from (P : ImageRecord → Prop) `{!∀ x, Decision (P x)}
    (ix : nat) (imgs : list ImageRecord) : list nat :=
  match imgs with
  | [] => []
  | img :: rest =>
      if decide (P img) then ix :: indices_from P (S ix) rest
      else indices_from P (S ix) rest
  end.

Definition goes_to_train (train_only : Z) (img : ImageRecord) : Prop :=
  img_split img = "train" ∨
  (img_split img ≠ "val" ∧ img_split img ≠ "test" ∧ train_only = 0).

Definition goes_to (split : string) (img : ImageRecord) : Prop :=
  img_split img = split.

#[global] Instance goes_to_train_dec t img : Decision (goes_to_train t img).
Proof. unfold goes_to_train. apply _. Defined.

#[global] Instance goes_to_dec s img : Decision (goes_to s img).
Proof. unfold goes_to. apply _. Defined.

(** [n] index computations of a fetcher in a row, with what each returned. *)
Fixpoint inds_run (f : BlobFetcher) (n : nat) : M World (list (nat * bool)) :=
  match n with
  | O => ret []
  | S n' =>
      p ← _get_next_minibatch_inds f;
      ps ← inds_run f n';
      ret (p :: ps)
  end.

(** The cursor of a split. *)
Definition cursor (w : World) (split : string) : option nat :=
  iterators (loader w) !! split.

(** The index order of a split. *)
Definition order (w : World) (split : string) : option (list nat) :=
  split_ix (loader w) !! split.

(** The example [__getitem__] builds for image [ix] with record [img]. *)
Definition example_of (L : DataLoader) (ix : nat) (img : ImageRecord) : Example :=
  get_npy_data ix (NpyFile (input_fc_dir (opt L)) (img_id img))
    (NpzFeat (input_att_dir (opt L)) (img_id img)) (use_att L).

(** A fetcher is primed when its pool, if it has one, holds the order of its
    split from the cursor on. *)
Definition primed (f : BlobFetcher) (w : World) : Prop :=
  match split_loader f with
  | None => True
  | Some p =>
      ∃ l c, order w (bf_split f) = Some l ∧ cursor w (bf_split f) = Some c ∧
             p = drop c l
  end.

(** Every fetcher of the loader serves the split it is stored under. *)
Definition well_keyed (L : DataLoader) : Prop :=
  ∀ s f, _prefetch_process L !! s = Some f → bf_split f = s.

(** What a step of the index computation leaves behind: the cursor moved by
    one or back to 0, the order of the split replaced by a permutation of
    itself, everything else as it was. *)
Definition stepped (s : string) (ri : nat) (wr : bool) (l' : list nat)
    (L : DataLoader) : DataLoader :=
  set_iterators (<[s := if wr then 0%nat else S ri]> (iterators L))
    (set_split_ix (<[s := l']> (split_ix L)) L).

(** Row [c] (0-based) of the caption table, as the loader reads it. *)
Definition caption_row (L : DataLoader) (c : nat) : list Z :=
  row_of (h5_labels (h5_label_file L)) (seq_length L) c.

(** The number of captions of image [ix]. *)
Definition ncap (L : DataLoader) (ix : nat) : option Z :=
  s ← label_start_ix L !! ix;
  e ← label_end_ix L !! ix;
  Some (e - s + 1).


(** The tokens of the caption table fit the 64-bit signed integers. *)
Definition int64_table (L : DataLoader) : Prop :=
  ∀ i j, - 2 ^ 63 ≤ cell (h5_labels (h5_label_file L)) i j < 2 ^ 63.

(** The number of nonzero entries of a row. *)
Fixpoint nonzero_entries (row : list Z) : nat :=
  match row with
  | [] => 0
  | x :: rest =>
      if decide (x = 0) then nonzero_entries rest
      else S (nonzero_entries rest)
  end.

(** A row of a label matrix: [w] tokens between two zero columns. *)
Definition padded (w : nat) (r : list Z) : Prop :=
  ∃ mid, r = 0 :: mid ++ [0] ∧ length mid = w.

(** One call of [get] on the fetcher of a split: the state it ran in, what
    it returned, the state it left. *)
Record GetCall : Type := {
  before : World;
  got : Example;
  flag : bool;
  after : World
}.

Definition is_get_call (split : string) (c : GetCall) : Prop :=
  prefetch_get split (before c) = Ok ((got c, flag c), after c).

(** The calls follow one another on the same loader object: each one starts
    on the loader the previous one left. *)
Fixpoint sequential (L : DataLoader) (calls : list GetCall) : Prop :=
  match calls with
  | [] => True
  | c :: cs => loader (before c) = L ∧ sequential (loader (after c)) cs
  end.

(** The loader after the last of the calls. *)
Definition loader_after (L : DataLoader) (calls : list GetCall) : DataLoader :=
  default L (loader ∘ after <$> last calls).

(** ** A small dataset

    Four images: two of the train split, one of val, one of the "restval"
    bucket.  Seven caption rows of two tokens. *)

Definition array_of_rows (rows : matrix) (w : nat) : Array2 :=
  {| shape0 := length rows; shape1 := w;
     cell := λ i j, default 0 (r ← rows !! i; r !! j) |}.

Definition demo_image (split : string) (id : Z) : ImageRecord :=
  {| img_split := split; img_id := id; img_file_path := "img.jpg" |}.

Definition demo_opt : Opt :=
  {| opt_batch_size := 2; opt_seq_per_img := 2; opt_use_att := None;
     opt_train_only := 0; input_fc_dir := "fc"; input_att_dir := "att" |}.

Definition demo_info : Info :=
  {| ix_to_word := ∅;
     images := [demo_image "train" 10; demo_image "val" 11;
                demo_image "restval" 12; demo_image "train" 13] |}.

Definition demo_h5 : H5 :=
  {| h5_labels :=
       array_of_rows [[5; 6]; [7; 8]; [1; 0]; [2; 0]; [3; 3]; [4; 0]; [9; 9]] 2;
     h5_label_start_ix := [1; 3; 4; 6];
     h5_label_end_ix := [2; 3; 5; 7] |}.

(** A loader object before its constructor ran. *)
Definition blank_loader (o : Opt) (sh : bool) (inf : Info) (h5 : H5)
    : DataLoader :=
  {| opt := o; allow_shuffle := sh; info := inf; h5_label_file := h5;
     split_ix := ∅; iterators := ∅; _prefetch_process := ∅ |}.

Definition constructed (o : Opt) (sh : bool) (inf : Info) (h5 : H5)
    : DataLoader :=
  match DataLoader__init__ o sh inf h5 with
  | Ok L => L
  | Err _ => blank_loader o sh inf h5
  end.

Definition demo_loader : DataLoader := constructed demo_opt true demo_info demo_h5.

(** Feature files that all hold arrays of one shape. *)
Definition demo_files (x : Feat) : list nat :=
  match x with
  | NpyFile _ _ => [4]%nat
  | NpzFeat _ _ => [2; 2; 4]%nat
  | Zeros111 => [1; 1; 1]%nat
  end.

(** The generator whose [k]-th raw draw is [k]. *)
Definition demo_world : World :=
  {| loader := demo_loader; random := λ k, k; files := demo_files |}.

(** The same table, but the first image has no caption. *)
Definition bad_h5 : H5 :=
  {| h5_labels := h5_labels demo_h5;
     h5_label_start_ix := [1; 1; 4; 6];
     h5_label_end_ix := [0; 3; 5; 7] |}.

Definition bad_world : World :=
  {| loader := constructed demo_opt true demo_info bad_h5; random := λ k, k;
     files := demo_files |}.



(** ** Well-formed loaders *)

(** The caption pointers of image [ix] delimit a nonempty range of rows of
    the caption table (1-based, both ends included). *)
Definition caption_range_ok (L : DataLoader) (ix : nat) : Prop :=
  ∃ s e, label_start_ix L !! ix = Some s ∧ label_end_ix L !! ix = Some e ∧
         1 ≤ s ∧ s ≤ e ∧
         e ≤ Z.of_nat (shape0 (h5_labels (h5_label_file L))).

Definition image_ok (L : DataLoader) (ix : nat) : Prop :=
  is_Some (images (info L) !! ix) ∧ caption_range_ok L ix.

(** A split is ready to be iterated: its fetcher is stored under its name
    and primed, its cursor is inside its order, and its images are well
    formed. *)
Definition split_ok (split : string) (w : World) : Prop :=
  ∃ f l c,
    _prefetch_process (loader w) !! split = Some f ∧
    bf_split f = split ∧
    primed f w ∧
    order w split = Some l ∧
    cursor w split = Some c ∧
    (c < length l)%nat ∧
    Forall (image_ok (loader w)) l.

(** A split is ready to be fetched from: as [split_ok], but of its images
    only the records are asked for, not the captions. *)
Definition fetch_ok (split : string) (w : World) : Prop :=
  ∃ f l c,
    _prefetch_process (loader w) !! split = Some f ∧
    bf_split f = split ∧
    primed f w ∧
    order w split = Some l ∧
    cursor w split = Some c ∧
    (c < length l)%nat ∧
    Forall (λ ix, is_Some (images (info (loader w)) !! ix)) l.

(** The feature arrays of a split can be stacked: the arrays that
    [__getitem__] loads for the images of the split have one shape, those of
    the fc files and those of the att files (or their placeholders). *)
Definition stackable (split : string) (w : World) : Prop :=
  ∃ sfc satt, ∀ l ix img,
    order w split = Some l →
    ix ∈ l →
    images (info (loader w)) !! ix = Some img →
    feat_shape w (ex_fc (example_of (loader w) ix img)) = sfc ∧
    feat_shape w (ex_att (example_of (loader w) ix img)) = satt.

(** Every image of the dataset has a valid caption range. *)
Definition dataset_ok (L : DataLoader) : Prop :=
  ∀ ix, (ix < length (images (info L)))%nat → caption_range_ok L ix.

(** The same dataset in a loader that never shuffles. *)
Definition plain_world : World :=
  {| loader := constructed demo_opt false demo_info demo_h5; random := λ k, k;
     files := demo_files |}.

(** Ten images: three of train, two of val, two of test, three of another
    bucket. *)
Definition ten_images : list ImageRecord :=
  [demo_image "train" 0; demo_image "restval" 1; demo_image "val" 2;
   demo_image "test" 3; demo_image "train" 4; demo_image "restval" 5;
   demo_image "val" 6; demo_image "test" 7; demo_image "train" 8;
   demo_image "restval" 9].

(** ** Contrastive pairs

    The part of the loader that is used with [contrastive=True]: the map
    from an image to its ranked similar images, filled by the constructor,
    and the [__getitem__] that draws one of them.  [__getitem__] runs in a
    worker process, on the generator of that process. *)

(** One [similarity_stats_top_1p_<split>.npz] file. *)
Record SimilarityStats : Type := {
  num_1p : list Z;
  sorted_image_indices : list (list nat);
  all_indices : list nat
}.

(** [l[0:n]] *)
Definition py_take {A} (n : Z) (l : list A) : list A :=
  take (Z.to_nat (py_slice_bound (Z.of_nat (length l)) n)) l.

(** [for i in range(len(all_indices)):
       contrastive_images[all_indices[i]] = contrastive_indices[i][0:max_contrastive]] *)
Fixpoint contrastive_loop {St} (max_contrastive : Z)
    (contrastive_indices : list (list nat)) (i : nat) (keys : list nat)
    (m : gmap nat (list nat)) : M St (gmap nat (list nat)) :=
  match keys with
  | [] => ret m
  | k :: rest =>
      row ← of_option (contrastive_indices !! i) IndexError;
      contrastive_loop max_contrastive contrastive_indices (S i) rest
        (<[k := py_take max_contrastive row]> m)
  end.

(** The candidates kept of each ranked list: the option, or the file's own
    number when the option is 0. *)
Definition contrastive_cap {St} (opt_max_contrastive : Z) (d : SimilarityStats)
    : M St Z :=
  if decide (opt_max_contrastive = 0) then of_option (num_1p d !! 0%nat) IndexError
  else ret opt_max_contrastive.

(** The body of [for split in ['train', 'val', 'test']]. *)
Definition load_similarity {St} (opt_max_contrastive : Z) (d : SimilarityStats)
    (m : gmap nat (list nat)) : M St (gmap nat (list nat)) :=
  max_contrastive ← contrastive_cap opt_max_contrastive d;
  contrastive_loop max_contrastive (sorted_image_indices d) 0 (all_indices d) m.

Definition load_contrastive_images {St} (opt_max_contrastive : Z)
    (train val test : SimilarityStats) : M St (gmap nat (list nat)) :=
  m ← load_similarity opt_max_contrastive train ∅;
  m ← load_similarity opt_max_contrastive val m;
  load_similarity opt_max_contrastive test m.

(** What [get_npy_data_contrastive] returns. *)
Record ContrastiveExample : Type := {
  cex_fc : Feat;
  cex_att : Feat;
  cex_ix : nat;
  cex_contrastive_ix : nat
}.

Definition get_npy_data_contrastive (ix contrastive_ix : nat)
    (fc_file att_file : Feat) (use_att : bool) : ContrastiveExample :=
  if use_att then
    {| cex_fc := fc_file; cex_att := att_file; cex_ix := ix;
       cex_contrastive_ix := contrastive_ix |}
  else
    {| cex_fc := fc_file; cex_att := Zeros111; cex_ix := ix;
       cex_contrastive_ix := contrastive_ix |}.

(** [__getitem__] of a contrastive loader [L] with map [contrastive_images]. *)
Definition __getitem__contrastive (L : DataLoader)
    (contrastive_images : gmap nat (list nat)) (index : nat)
    : M Rng ContrastiveExample :=
  let ix := index in
  cands ← of_option (contrastive_images !! ix) (KeyError (pretty ix));
  j ← randint 0 (Z.of_nat (length cands) - 1);
  ix_contrastive ← of_option (cands !! Z.to_nat j) IndexError;
  img ← of_option (images (info L) !! ix) IndexError;
  ret (get_npy_data_contrastive ix ix_contrastive
         (NpyFile (input_fc_dir (opt L)) (img_id img))
         (NpzFeat (input_att_dir (opt L)) (img_id img))
         (use_att L)).

(** ** Iterating an epoch

    The way the training script uses the loader: batches are taken from a
    split until one reports the wrap. *)
Fixpoint batches_until_wrap (split : string) (b s : option Z) (fuel : nat)
    : M World (list Batch) :=
  match fuel with
  | O => ret []
  | S fuel' =>
      d ← get_batch split b s;
      if wrapped (bounds d) then ret [d]
      else ds ← batches_until_wrap split b s fuel'; ret (d :: ds)
  end.

(** The image indices of a list of batches, in order. *)
Definition batch_indices (ds : list Batch) : list nat :=
  flat_map (λ d, info_ix <$> infos d) ds.

(** ** Shuffling policy

    Every fetcher serves the split it is stored under, and shuffles exactly
    when the loader allows shuffling and the split is train. *)
Definition shuffle_policy (L : DataLoader) : Prop :=
  ∀ s f, _prefetch_process L !! s = Some f →
    bf_split f = s ∧
    if_shuffle f = allow_shuffle L && bool_decide (s = "train").

(** ** The passes of the fetch loop

    What one pass through the body of the fetch loop of [get_batch] adds to
    the batch: the example it fetched, the captions it sampled, the info
    record and the ground-truth group. *)
Record Pass : Type := {
  p_ex : Example;
  p_seq : matrix;
  p_info : InfoDict;
  p_gt : matrix
}.

(** The pass is the one the loop makes for its image on a loader with the
    data of [L]. *)
Definition pass_of (L : DataLoader) (seq_per_img : Z) (p : Pass) : Prop :=
  ∃ img s e w1 w2,
    images (info L) !! ex_ix (p_ex p) = Some img ∧
    p_ex p = example_of L (ex_ix (p_ex p)) img ∧
    p_info p = {| info_ix := ex_ix (p_ex p); info_id := img_id img;
                  info_file_path := img_file_path img |} ∧
    label_start_ix L !! ex_ix (p_ex p) = Some s ∧
    label_end_ix L !! ex_ix (p_ex p) = Some e ∧
    p_gt p = h5_rows (h5_labels (h5_label_file L)) (s - 1) e
               (shape1 (h5_labels (h5_label_file L))) ∧
    h5_label_file (loader w1) = h5_label_file L ∧
    _get_sequence (ex_ix (p_ex p)) seq_per_img w1 = Ok (p_seq p, w2).

(** ** More of the small dataset *)

(** The loader of [demo_world] after its train cursor was set back to 0 from
    outside while the pool of the train fetcher went on to the second image
    of the split. *)
Definition stale_world : World :=
  {| loader :=
       set_prefetch_process
         (<["train" := {| bf_split := "train"; if_shuffle := true;
                          split_loader := Some [2; 3]%nat |}]>
            (_prefetch_process demo_loader))
         demo_loader;
     random := λ k, k; files := demo_files |}.

(** [demo_world] after two images of train were fetched: the cursor of the
    split is on its last image. *)
Definition last_world : World :=
  match (prefetch_get "train";; prefetch_get "train") demo_world with
  | Ok (_, w) => w
  | Err _ => demo_world
  end.

(** The same table, but the second image of train (index 2) has no
    caption. *)
Definition late_bad_h5 : H5 :=
  {| h5_labels := h5_labels demo_h5;
     h5_label_start_ix := [1; 3; 4; 6];
     h5_label_end_ix := [2; 3; 3; 7] |}.

Definition late_bad_world : World :=
  {| loader := constructed demo_opt true demo_info late_bad_h5;
     random := λ k, k; files := demo_files |}.

(** A table of one caption whose second token does not fit 63 bits; it is
    the caption of every image. *)
Definition wide_h5 : H5 :=
  {| h5_labels := array_of_rows [[4294967295; 9223372036854775808]] 2;
     h5_label_start_ix := [1; 1; 1; 1];
     h5_label_end_ix := [1; 1; 1; 1] |}.

Definition wide_world : World :=
  {| loader := constructed demo_opt true demo_info wide_h5;
     random := λ k, k; files := demo_files |}.

(** Feature files of which the fc file of image 12 holds an array of
    another shape than the others. *)
Definition mixed_files (x : Feat) : list nat :=
  match x with
  | NpyFile _ id => if decide (id = 12) then [8]%nat else [4]%nat
  | NpzFeat _ _ => [2; 2; 4]%nat
  | Zeros111 => [1; 1; 1]%nat
  end.

Definition mixed_world : World :=
  {| loader := demo_loader; random := λ k, k; files := mixed_files |}.

(** Similarity files for the four images: image 0 ranks 3 and 2, and so
    on; the files name 1 as the number of candidates to keep. *)
Definition demo_similar_train : SimilarityStats :=
  {| num_1p := [1]; sorted_image_indices := [[3; 2]; [0; 3]; [2; 0]]%nat;
     all_indices := [0; 2; 3]%nat |}.

Definition demo_similar_val : SimilarityStats :=
  {| num_1p := [1]; sorted_image_indices := [[1]]%nat; all_indices := [1]%nat |}.

Definition demo_similar_test : SimilarityStats :=
  {| num_1p := [1]; sorted_image_indices := []; all_indices := [] |}.

(** The map the constructor builds from them with [max_contrastive = 2]. *)
Definition demo_contrastive_images : gmap nat (list nat) :=
  match load_contrastive_images 2 demo_similar_train demo_similar_val
          demo_similar_test tt with
  | Ok (m, _) => m
  | Err _ => ∅
  end.

(** * Properties *)

(** ** Reasoning about runs *)

Lemma bind_Ok {S A B} (m : M S A) (k : A → M S B) s b s' :
  bind m k s = Ok (b, s') ↔ ∃ a s1, m s = Ok (a, s1) ∧ k a s1 = Ok (b, s').
Proof.
  unfold bind. split.
  - destruct (m s) as [[a s1]|e]; [eauto | discriminate].
  - intros (a & s1 & -> & Hk). exact Hk.
Qed.

Lemma bind_Err {S A B} (m : M S A) (k : A → M S B) s e :
  m s = Err e → bind m k s = Err e.
Proof. unfold bind. by intros ->. Qed.

Lemma bind_step {S A B} (m : M S A) (k : A → M S B) s a s1 :
  m s = Ok (a, s1) → bind m k s = k a s1.
Proof. unfold bind. by intros ->. Qed.

Lemma ret_Ok {S A} (a b : A) (s s' : S) :
  ret a s = Ok (b, s') ↔ a = b ∧ s = s'.
Proof. unfold ret. split; [by inversion 1 | by intros [-> ->]]. Qed.

Lemma of_option_Ok {S A} (o : option A) e (s s' : S) a :
  of_option o e s = Ok (a, s') ↔ o = Some a ∧ s = s'.
Proof.
  destruct o; simpl; unfold ret, raise; split;
    try (by inversion 1); by intros [[=] ->]; subst.
Qed.

Lemma gets_Ok {S A} (f : S → A) (s s' : S) a :
  gets f s = Ok (a, s') ↔ f s = a ∧ s = s'.
Proof. unfold gets. split; [by inversion 1 | by intros [-> ->]]. Qed.

Lemma lift_rng_Ok {A} (m : M Rng A) w a w' :
  lift_rng m w = Ok (a, w') ↔
  ∃ g, m (random w) = Ok (a, g) ∧
       w' = {| loader := loader w; random := g; files := files w |}.
Proof.
  unfold lift_rng. split.
  - destruct (m (random w)) as [[a0 g]|]; [|discriminate].
    inversion 1; subst. eauto.
  - intros (g & -> & ->). done.
Qed.

(** Takes a successful run apart, one statement at a time. *)
Ltac run_inv H :=
  unfold mbind, M_bind, mret, M_ret in H;
  repeat match type of H with
  | bind _ _ _ = Ok _ =>
      let a := fresh "a" in let s := fresh "s" in let H1 := fresh "Hrun" in
      apply bind_Ok in H; destruct H as (a & s & H1 & H);
      run_inv H1
  | ret _ _ = Ok _ => apply ret_Ok in H; destruct H as [? ?]; simplify_eq/=
  | gets _ _ = Ok _ => apply gets_Ok in H; destruct H as [? ?]; simplify_eq/=
  | of_option _ _ _ = Ok _ =>
      apply of_option_Ok in H; destruct H as [? ?]; simplify_eq/=
  | raise _ _ = Ok _ => discriminate H
  | Err _ = Ok _ => discriminate H
  end.

(** ** Split registry *)

Lemma elem_of_indices_from P `{!∀ x, Decision (P x)} ix imgs i :
  i ∈ indices_from P ix imgs ↔
  ∃ k img, i = (ix + k)%nat ∧ imgs !! k = Some img ∧ P img.
Proof.
  revert ix. induction imgs as [|img rest IH]; intros ix; simpl.
  - split; [by intros ?%elem_of_nil | by intros (k & ? & _ & ? & _)].
  - assert (i ∈ indices_from P (S ix) rest ↔
            ∃ k img0, i = (ix + S k)%nat ∧ rest !! k = Some img0 ∧ P img0) as IH'.
    { rewrite IH. split; intros (k & img0 & -> & ? & ?); exists k, img0;
        (split; [lia | done]). }
    destruct (decide (P img)) as [HP|HP].
    + rewrite elem_of_cons, IH'. split.
      * intros [-> | (k & img0 & -> & ? & ?)].
        -- exists 0%nat, img. split; [lia | done].
        -- exists (S k), img0. done.
      * intros ([|k] & img0 & -> & Hk & ?); simpl in Hk.
        -- left. lia.
        -- right. eauto.
    + rewrite IH'. split.
      * intros (k & img0 & -> & ? & ?). exists (S k), img0. done.
      * intros ([|k] & img0 & -> & Hk & ?); simpl in Hk; [congruence | eauto].
Qed.

Lemma indices_from_lower P `{!∀ x, Decision (P x)} ix imgs i :
  i ∈ indices_from P ix imgs → (ix ≤ i)%nat.
Proof. rewrite elem_of_indices_from. intros (k & ? & -> & _). lia. Qed.

Lemma NoDup_indices_from P `{!∀ x, Decision (P x)} ix imgs :
  NoDup (indices_from P ix imgs).
Proof.
  revert ix. induction imgs as [|img rest IH]; intros ix; simpl.
  - constructor.
  - destruct (decide (P img)); [|done].
    constructor; [|done]. intros ?%indices_from_lower. lia.
Qed.

Lemma classify_lookup train_only m ix img tr va te :
  m !! "train" = Some tr → m !! "val" = Some va → m !! "test" = Some te →
  classify train_only m ix img !! "train"
    = Some (tr ++ indices_from (goes_to_train train_only) ix [img]) ∧
  classify train_only m ix img !! "val"
    = Some (va ++ indices_from (goes_to "val") ix [img]) ∧
  classify train_only m ix img !! "test"
    = Some (te ++ indices_from (goes_to "test") ix [img]).
Proof.
  intros Htr Hva Hte. unfold classify, append_ix; simpl.
  destruct (decide (img_split img = "train")) as [E1|N1].
  { rewrite lookup_alter_eq, !lookup_alter_ne, Htr, Hva, Hte by done.
    rewrite decide_True by (by left).
    rewrite !decide_False by (unfold goes_to; congruence).
    by rewrite !app_nil_r. }
  destruct (decide (img_split img = "val")) as [E2|N2].
  { rewrite lookup_alter_eq, !lookup_alter_ne, Htr, Hva, Hte by done.
    rewrite (decide_True (P := goes_to "val" img)) by done.
    rewrite !decide_False by (unfold goes_to, goes_to_train; intuition congruence).
    by rewrite !app_nil_r. }
  destruct (decide (img_split img = "test")) as [E3|N3].
  { rewrite lookup_alter_eq, !lookup_alter_ne, Htr, Hva, Hte by done.
    rewrite (decide_True (P := goes_to "test" img)) by done.
    rewrite !decide_False by (unfold goes_to, goes_to_train; intuition congruence).
    by rewrite !app_nil_r. }
  rewrite (decide_False (P := goes_to "val" img)) by done.
  rewrite (decide_False (P := goes_to "test" img)) by done.
  destruct (decide (train_only = 0)) as [E4|N4].
  - rewrite lookup_alter_eq, !lookup_alter_ne, Htr, Hva, Hte by done.
    rewrite decide_True by (by right).
    by rewrite !app_nil_r.
  - rewrite Htr, Hva, Hte.
    rewrite decide_False by (unfold goes_to_train; intuition congruence).
    by rewrite !app_nil_r.
Qed.

Lemma indices_from_cons P `{!∀ x, Decision (P x)} ix img rest :
  indices_from P ix (img :: rest)
    = indices_from P ix [img] ++ indices_from P (S ix) rest.
Proof. simpl. by destruct (decide (P img)). Qed.

Lemma split_loop_spec train_only imgs : ∀ ix m tr va te,
  m !! "train" = Some tr → m !! "val" = Some va → m !! "test" = Some te →
  split_loop train_only ix imgs m !! "train"
    = Some (tr ++ indices_from (goes_to_train train_only) ix imgs) ∧
  split_loop train_only ix imgs m !! "val"
    = Some (va ++ indices_from (goes_to "val") ix imgs) ∧
  split_loop train_only ix imgs m !! "test"
    = Some (te ++ indices_from (goes_to "test") ix imgs).
Proof.
  induction imgs as [|img rest IH]; intros ix m tr va te Htr Hva Hte.
  - simpl. by rewrite !app_nil_r.
  - destruct (classify_lookup train_only m ix img tr va te) as (H1 & H2 & H3);
      [done..|].
    cbn [split_loop].
    destruct (IH (S ix) _ _ _ _ H1 H2 H3) as (-> & -> & ->).
    rewrite !(indices_from_cons _ ix img rest), !app_assoc. done.
Qed.

(** The three lists partition the records when nothing is left out. *)
Lemma indices_from_partition imgs : ∀ ix,
  (length (indices_from (goes_to_train 0) ix imgs)
   + length (indices_from (goes_to "val") ix imgs)
   + length (indices_from (goes_to "test") ix imgs) = length imgs)%nat.
Proof.
  induction imgs as [|img rest IH]; intros ix; [done|].
  specialize (IH (S ix)). simpl.
  unfold goes_to_train, goes_to in *.
  repeat case_decide; simpl; try lia; exfalso; intuition congruence.
Qed.

Lemma indices_from_sorted P `{!∀ x, Decision (P x)} ix imgs :
  StronglySorted lt (indices_from P ix imgs).
Proof.
  revert ix. induction imgs as [|img rest IH]; intros ix; simpl.
  - constructor.
  - destruct (decide (P img)); [|done].
    constructor; [done|].
    apply Forall_forall. intros i ?%indices_from_lower. lia.
Qed.

(** C7: at load time a record labelled 'train', 'val' or 'test' is appended
    to the index list of exactly that split, a record with any other label
    is appended to the train list if and only if [train_only] is 0 and to no
    list otherwise; no index is listed twice, the lists are in the order of
    the records, and with [train_only = 0] the three sizes add up to the
    number of records. *)
Theorem split_registry_at_load (o : Opt) (sh : bool) (inf : Info) (h5 : H5) :
  ∃ L tr va te,
    DataLoader__init__ o sh inf h5 = Ok L ∧
    split_ix L !! "train" = Some tr ∧
    split_ix L !! "val" = Some va ∧
    split_ix L !! "test" = Some te ∧
    (∀ ix, ix ∈ tr ↔ ∃ img, images inf !! ix = Some img ∧
        (img_split img = "train" ∨
         (img_split img ≠ "train" ∧ img_split img ≠ "val" ∧
          img_split img ≠ "test" ∧ opt_train_only o = 0))) ∧
    (∀ ix, ix ∈ va ↔ ∃ img, images inf !! ix = Some img ∧ img_split img = "val") ∧
    (∀ ix, ix ∈ te ↔ ∃ img, images inf !! ix = Some img ∧ img_split img = "test") ∧
    NoDup tr ∧ NoDup va ∧ NoDup te ∧
    StronglySorted lt tr ∧ StronglySorted lt va ∧ StronglySorted lt te ∧
    (opt_train_only o = 0 →
     (length tr + length va + length te = length (images inf))%nat).
Proof.
  destruct (split_loop_spec (opt_train_only o) (images inf) 0 empty_splits [] [] [])
    as (Htr & Hva & Hte); [done..|].
  eexists _, _, _, _. split; [reflexivity|]. cbn [split_ix].
  split; [exact Htr|]. split; [exact Hva|]. split; [exact Hte|].
  simpl. split_and!.
  - intros ix. rewrite elem_of_indices_from. unfold goes_to_train. split.
    + intros (k & img & -> & Hk & HP). exists img. split; [done|].
      destruct (decide (img_split img = "train")); [by left | right].
      destruct HP as [?|(? & ? & ?)]; done.
    + intros (img & Hk & HP). exists ix, img. split; [done|]. split; [done|].
      destruct HP as [?|(? & ? & ? & ?)]; [by left | by right].
  - intros ix. rewrite elem_of_indices_from. unfold goes_to. split.
    + intros (k & img & -> & Hk & HP). by exists img.
    + intros (img & Hk & HP). by exists ix, img.
  - intros ix. rewrite elem_of_indices_from. unfold goes_to. split.
    + intros (k & img & -> & Hk & HP). by exists img.
    + intros (img & Hk & HP). by exists ix, img.
  - apply NoDup_indices_from.
  - apply NoDup_indices_from.
  - apply NoDup_indices_from.
  - apply indices_from_sorted.
  - apply indices_from_sorted.
  - apply indices_from_sorted.
  - intros ->. apply indices_from_partition.
Qed.

(** ** Prefetcher: index computation *)

Lemma update_loader_eq f w :
  update_loader f w
  = Ok (tt, {| loader := f (loader w); random := random w; files := files w |}).
Proof. done. Qed.

(** Without shuffling a step is a function of the order and the cursor. *)
Lemma next_inds_noshuffle f w l ri ix :
  if_shuffle f = false →
  order w (bf_split f) = Some l →
  cursor w (bf_split f) = Some ri →
  l !! ri = Some ix →
  _get_next_minibatch_inds f w =
    Ok ((ix, bool_decide (length l ≤ S ri)%nat),
        {| loader := set_iterators
             (<[bf_split f := if decide (length l ≤ S ri)%nat then 0%nat else S ri]>
                (iterators (loader w))) (loader w);
           random := random w; files := files w |}).
Proof.
  unfold order, cursor. intros Hsh Hl Hri Hix.
  unfold _get_next_minibatch_inds, mbind, M_bind, bind, gets. simpl.
  rewrite Hl. simpl. rewrite Hri. simpl. rewrite Hix. simpl.
  destruct (decide (length l ≤ S ri)%nat) as [Hle|Hgt].
  - rewrite Hsh. simpl. by rewrite bool_decide_eq_true_2.
  - simpl. by rewrite bool_decide_eq_false_2.
Qed.

Lemma inds_run_from f l : if_shuffle f = false → ∀ k w c,
  order w (bf_split f) = Some l →
  cursor w (bf_split f) = Some c →
  (c + k ≤ length l)%nat → (c < length l)%nat →
  ∃ out w',
    inds_run f k w = Ok (out, w') ∧
    out.*1 = take k (drop c l) ∧
    out.*2 = map (λ j, bool_decide (S j = length l)) (seq c k) ∧
    cursor w' (bf_split f) = Some ((c + k) `mod` length l)%nat ∧
    order w' (bf_split f) = Some l.
Proof.
  intros Hsh. induction k as [|k IH]; intros w c Hl Hc Hck Hlt.
  - exists [], w. rewrite Nat.add_0_r, Nat.mod_small by done.
    by rewrite take_0.
  - destruct (lookup_lt_is_Some_2 l c Hlt) as [ix Hix].
    pose proof (next_inds_noshuffle f w l c ix Hsh Hl Hc Hix) as Hstep.
    cbn [inds_run]. unfold mbind, M_bind.
    rewrite (bind_step _ _ _ _ _ Hstep).
    set (w1 := {| loader := _ |}) in *.
    assert (order w1 (bf_split f) = Some l) as Hl1 by exact Hl.
    destruct (decide (length l ≤ S c)%nat) as [Hend|Hmore].
    + (* the last index of the split: the cursor wraps *)
      assert (k = 0%nat) as -> by lia.
      exists [(ix, true)], w1. split_and!.
      * simpl. unfold bind, ret. simpl.
        by rewrite bool_decide_eq_true_2 by done.
      * simpl. rewrite (drop_S _ _ _ Hix). simpl. by rewrite take_0.
      * simpl. by rewrite bool_decide_eq_true_2 by lia.
      * unfold cursor, w1. simpl. rewrite lookup_insert_eq.
        replace (c + 1)%nat with (length l) by lia.
        by rewrite Nat.Div0.mod_same.
      * done.
    + assert (cursor w1 (bf_split f) = Some (S c)) as Hc1.
      { unfold cursor, w1. simpl. by rewrite lookup_insert_eq. }
      destruct (IH w1 (S c) Hl1 Hc1) as (out & w' & Hrun & Ho1 & Ho2 & Hcur & Hord);
        [lia..|].
      exists ((ix, false) :: out), w'. split_and!.
      * unfold bind at 1. rewrite Hrun. simpl.
        by rewrite bool_decide_eq_false_2 by done.
      * rewrite fmap_cons, Ho1, (drop_S _ _ _ Hix). done.
      * rewrite fmap_cons, Ho2. cbn [seq map snd].
        by rewrite bool_decide_eq_false_2 by lia.
      * rewrite Hcur. do 2 f_equal. lia.
      * done.
Qed.

Lemma no_wrap_flags n k : ∀ a, (a + k ≤ n)%nat →
  map (λ j, bool_decide (S j = S n)) (seq a k) = replicate k false.
Proof.
  induction k as [|k IH]; intros a Ha; [done|].
  simpl. rewrite bool_decide_eq_false_2 by lia. f_equal. apply IH. lia.
Qed.

Lemma wrap_flags n :
  map (λ j, bool_decide (S j = S n)) (seq 0 (S n)) = replicate n false ++ [true].
Proof.
  rewrite seq_S, map_app, no_wrap_flags by lia. simpl.
  by rewrite bool_decide_eq_true_2.
Qed.

(** C4: with shuffling disabled, from cursor 0, the [N] index computations of
    an epoch return the indices of the split once each in the order of the
    split's list, with the wrap flag raised on the N-th call only and the
    cursor back at 0 after it; after any number [k ≤ N] of calls the cursor
    is [k mod N], hence below [N]. *)
Theorem epoch_without_shuffle (f : BlobFetcher) (w : World) (l : list nat) :
  if_shuffle f = false →
  order w (bf_split f) = Some l →
  (0 < length l)%nat →
  cursor w (bf_split f) = Some 0%nat →
  (∃ out w',
     inds_run f (length l) w = Ok (out, w') ∧
     out.*1 = l ∧
     out.*2 = replicate (length l - 1) false ++ [true] ∧
     cursor w' (bf_split f) = Some 0%nat ∧
     order w' (bf_split f) = Some l) ∧
  (∀ k, (k ≤ length l)%nat →
     ∃ out w' c,
       inds_run f k w = Ok (out, w') ∧
       out.*1 = take k l ∧
       cursor w' (bf_split f) = Some c ∧
       c = (k `mod` length l)%nat ∧ (0 ≤ c < length l)%nat).
Proof.
  intros Hsh Hl HN Hc. split.
  - destruct (inds_run_from f l Hsh (length l) w 0 Hl Hc) as
      (out & w' & Hrun & Ho1 & Ho2 & Hcur & Hord); [lia..|].
    exists out, w'. split_and!; [done| | | |done].
    + by rewrite Ho1, drop_0, firstn_all.
    + rewrite Ho2. destruct (length l) as [|n] eqn:E; [lia|].
      rewrite wrap_flags. do 2 f_equal. lia.
    + rewrite Hcur. simpl. by rewrite Nat.Div0.mod_same.
  - intros k Hk.
    destruct (inds_run_from f l Hsh k w 0 Hl Hc) as
      (out & w' & Hrun & Ho1 & _ & Hcur & _); [lia..|].
    exists out, w', (k `mod` length l)%nat. split_and!; try done.
    + lia.
    + apply Nat.mod_upper_bound. lia.
Qed.

(** ** [random.shuffle] permutes *)

Lemma insert_head_perm {A} (x : list A) j a b :
  x !! j = Some b → b :: <[j:=a]> x ≡ₚ a :: x.
Proof.
  revert j. induction x as [|c x IH]; intros [|j] Hj; simplify_eq/=.
  - apply perm_swap.
  - rewrite (perm_swap c b), (IH j Hj). apply perm_swap.
Qed.

Lemma swap_perm {A} (x : list A) i j : swap x i j ≡ₚ x.
Proof.
  unfold swap.
  destruct (x !! i) as [xi|] eqn:Hi; [|done].
  destruct (x !! j) as [xj|] eqn:Hj; [|done].
  revert i j Hi Hj. induction x as [|c x IH]; intros [|i] [|j] Hi Hj;
    simplify_eq/=; [done | | |].
  - by apply insert_head_perm.
  - by apply insert_head_perm.
  - by rewrite (IH i j).
Qed.

Lemma swap_length {A} (x : list A) i j : length (swap x i j) = length x.
Proof. apply Permutation_length, swap_perm. Qed.

Lemma shuffle_from_total {A} i : ∀ (x : list A) g,
  ∃ x' g', shuffle_from i x g = Ok (x', g') ∧ x' ≡ₚ x.
Proof.
  induction i as [|i IH]; intros x g.
  - by exists x, g.
  - cbn [shuffle_from]. unfold mbind, M_bind, bind, _randbelow.
    destruct (IH (swap x (S i) (g 0%nat `mod` S (S i))%nat) (λ k, g (S k)))
      as (x' & g' & -> & Hp).
    exists x', g'. split; [done|]. by rewrite Hp, swap_perm.
Qed.

Lemma shuffle_total {A} (x : list A) g :
  ∃ x' g', shuffle x g = Ok (x', g') ∧ x' ≡ₚ x.
Proof. apply shuffle_from_total. Qed.

Lemma shuffle_perm {A} (x x' : list A) g g' :
  shuffle x g = Ok (x', g') → x' ≡ₚ x.
Proof.
  intros H. destruct (shuffle_total x g) as (y & h & Hy & Hp).
  rewrite H in Hy. by simplify_eq.
Qed.

(** ** Prefetcher: one [get] *)

Lemma next_inds_Ok f w ix wr w' :
  _get_next_minibatch_inds f w = Ok ((ix, wr), w') →
  ∃ l ri l',
    order w (bf_split f) = Some l ∧
    cursor w (bf_split f) = Some ri ∧
    l !! ri = Some ix ∧
    wr = bool_decide (length l ≤ S ri)%nat ∧
    l' ≡ₚ l ∧
    (wr && if_shuffle f = false → l' = l ∧ random w' = random w) ∧
    loader w' = stepped (bf_split f) ri wr l' (loader w).
Proof.
  unfold order, cursor, _get_next_minibatch_inds, mbind, M_bind, bind, gets,
    ret.
  simpl. intros H.
  destruct (split_ix (loader w) !! bf_split f) as [l|] eqn:Hl; [|done].
  simpl in H.
  destruct (iterators (loader w) !! bf_split f) as [ri|] eqn:Hri; [|done].
  simpl in H.
  destruct (l !! ri) as [ix0|] eqn:Hix; [|done].
  simpl in H. exists l, ri.
  assert (set_split_ix (<[bf_split f:=l]> (split_ix (loader w))) (loader w)
          = loader w) as Hid.
  { unfold set_split_ix. rewrite insert_id by done. by destruct (loader w). }
  destruct (decide (length l ≤ S ri)%nat) as [Hle|Hgt].
  - rewrite bool_decide_eq_true_2 by done.
    destruct (if_shuffle f) eqn:Hsh.
    + unfold lift_rng in H.
      destruct (shuffle_total l (random w)) as (l' & g & Hs & Hp).
      rewrite Hs in H. simpl in H. simplify_eq.
      exists l'. by split_and!.
    + simpl in H. simplify_eq. exists l. split_and!; try done.
      unfold stepped. by rewrite Hid.
  - rewrite bool_decide_eq_false_2 by done.
    simpl in H. simplify_eq. exists l. split_and!; try done.
    unfold stepped. by rewrite Hid.
Qed.

Tactic Notation "bind_inv" hyp(H) "as" simple_intropattern(p) ident(w) ident(H1) :=
  unfold mbind, M_bind in H; apply bind_Ok in H; destruct H as (p & w & H1 & H).

Lemma ex_ix_get_npy_data ix fc att ua : ex_ix (get_npy_data ix fc att ua) = ix.
Proof. by destruct ua. Qed.

Lemma BlobFetcher_reset_Ok f w f' w' :
  BlobFetcher_reset f w = Ok (f', w') →
  w' = w ∧
  ∃ l ri, order w (bf_split f) = Some l ∧ cursor w (bf_split f) = Some ri ∧
    f' = {| bf_split := bf_split f; if_shuffle := if_shuffle f;
            split_loader := Some (drop ri l) |}.
Proof.
  unfold BlobFetcher_reset, order, cursor. intros H.
  bind_inv H as L w0 H0. apply gets_Ok in H0 as [<- <-].
  bind_inv H as l w1 H1. apply of_option_Ok in H1 as [Hl <-].
  bind_inv H as ri w2 H2. apply of_option_Ok in H2 as [Hri <-].
  apply ret_Ok in H as [<- <-]. split; [done|]. by exists l, ri.
Qed.

Lemma split_loader_next_Ok f w tmp f' w' :
  split_loader_next f w = Ok ((tmp, f'), w') →
  w' = w ∧
  ∃ idx rest img,
    split_loader f = Some (idx :: rest) ∧
    images (info (loader w)) !! idx = Some img ∧
    tmp = example_of (loader w) idx img ∧
    f' = {| bf_split := bf_split f; if_shuffle := if_shuffle f;
            split_loader := Some rest |}.
Proof.
  unfold split_loader_next. intros H.
  destruct (split_loader f) as [[|idx rest]|]; [done| |done].
  bind_inv H as tmp0 w0 H0. apply ret_Ok in H as [[= <- <-] <-].
  unfold __getitem__ in H0.
  bind_inv H0 as L w1 H1. apply gets_Ok in H1 as [<- <-].
  bind_inv H0 as img w2 H2. apply of_option_Ok in H2 as [Himg <-].
  apply ret_Ok in H0 as [<- <-]. split; [done|]. by exists idx, rest, img.
Qed.

Lemma stepped_static s ri wr l' L :
  opt (stepped s ri wr l' L) = opt L ∧
  allow_shuffle (stepped s ri wr l' L) = allow_shuffle L ∧
  info (stepped s ri wr l' L) = info L ∧
  h5_label_file (stepped s ri wr l' L) = h5_label_file L ∧
  _prefetch_process (stepped s ri wr l' L) = _prefetch_process L.
Proof. done. Qed.

Lemma BlobFetcher_get_Ok f w ex wr f' w' :
  BlobFetcher_get f w = Ok ((ex, wr, f'), w') →
  ∃ l ri l' img,
    order w (bf_split f) = Some l ∧
    cursor w (bf_split f) = Some ri ∧
    l !! ri = Some (ex_ix ex) ∧
    wr = bool_decide (length l ≤ S ri)%nat ∧
    l' ≡ₚ l ∧
    (wr && if_shuffle f = false → l' = l ∧ random w' = random w) ∧
    loader w' = stepped (bf_split f) ri wr l' (loader w) ∧
    images (info (loader w)) !! ex_ix ex = Some img ∧
    ex = example_of (loader w) (ex_ix ex) img ∧
    bf_split f' = bf_split f ∧ if_shuffle f' = if_shuffle f ∧
    (primed f w → split_loader f' = Some (if wr then l' else drop (S ri) l)).
Proof.
  unfold BlobFetcher_get. intros H.
  bind_inv H as f1 w1 H1.
  assert (w1 = w ∧ bf_split f1 = bf_split f ∧ if_shuffle f1 = if_shuffle f ∧
          (primed f w → ∀ l c, order w (bf_split f) = Some l →
             cursor w (bf_split f) = Some c → split_loader f1 = Some (drop c l)))
    as (-> & Hs1 & Hsh1 & Hp1).
  { destruct (split_loader f) as [p|] eqn:Hp.
    - apply ret_Ok in H1 as [<- <-]. split_and!; try done.
      unfold primed. rewrite Hp. intros (l0 & c0 & ? & ? & ->) l c ? ?.
      by simplify_eq.
    - apply BlobFetcher_reset_Ok in H1 as (-> & l0 & c0 & ? & ? & ->).
      split_and!; try done. simpl. intros _ l c ? ?. by simplify_eq. }
  bind_inv H as [ix wr0] w2 H2.
  apply next_inds_Ok in H2
    as (l & ri & l' & Hl & Hri & Hix & Hwr & Hperm & Hsame & Hw2).
  rewrite Hs1, Hsh1 in *.
  bind_inv H as [tmp f2] w3 H3.
  apply split_loader_next_Ok in H3
    as (-> & idx & rest & img & Hpend & Himg & Htmp & ->).
  bind_inv H as f3 w4 H4.
  case_decide as Heq; [|done]. apply ret_Ok in H as [[= <- <- <-] <-].
  assert (ex_ix tmp = idx) as Hidx by (by rewrite Htmp; apply ex_ix_get_npy_data).
  assert (info (loader w2) = info (loader w) ∧ opt (loader w2) = opt (loader w))
    as [Hinfo Hopt] by (by rewrite Hw2).
  assert (example_of (loader w2) = example_of (loader w)) as Hex.
  { unfold example_of, use_att. by rewrite Hopt. }
  rewrite Hinfo, Hex in *.
  assert (w4 = w2 ∧ bf_split f3 = bf_split f ∧ if_shuffle f3 = if_shuffle f ∧
          (primed f w → split_loader f3
                        = Some (if wr0 then l' else drop (S ri) l)))
    as (-> & Hs3 & Hsh3 & Hp3).
  { destruct wr0.
    - apply BlobFetcher_reset_Ok in H4 as (-> & l3 & c3 & Hl3 & Hc3 & ->).
      simpl in *. split_and!; try done. intros _.
      unfold order, cursor in Hl3, Hc3. rewrite Hw2, Hs1 in Hl3, Hc3.
      unfold stepped in Hl3, Hc3. simpl in Hl3, Hc3.
      rewrite lookup_insert_eq in Hl3. rewrite lookup_insert_eq in Hc3.
      by simplify_eq.
    - apply ret_Ok in H4 as [<- <-]. simpl. split_and!; try done.
      intros Hprimed. rewrite (Hp1 Hprimed l ri Hl Hri) in Hpend.
      rewrite (drop_S _ _ _ Hix) in Hpend. by simplify_eq. }
  exists l, ri, l', img. rewrite Heq, <-Hidx in *. by split_and!.
Qed.

Lemma prefetch_get_Ok split w ex wr w' :
  prefetch_get split w = Ok ((ex, wr), w') →
  ∃ f f' l ri l' img,
    _prefetch_process (loader w) !! split = Some f ∧
    order w (bf_split f) = Some l ∧
    cursor w (bf_split f) = Some ri ∧
    l !! ri = Some (ex_ix ex) ∧
    wr = bool_decide (length l ≤ S ri)%nat ∧
    l' ≡ₚ l ∧
    (wr && if_shuffle f = false → l' = l ∧ random w' = random w) ∧
    loader w' = set_prefetch_process
                  (<[split := f']> (_prefetch_process (loader w)))
                  (stepped (bf_split f) ri wr l' (loader w)) ∧
    images (info (loader w)) !! ex_ix ex = Some img ∧
    ex = example_of (loader w) (ex_ix ex) img ∧
    bf_split f' = bf_split f ∧ if_shuffle f' = if_shuffle f ∧
    (primed f w → split_loader f' = Some (if wr then l' else drop (S ri) l)).
Proof.
  unfold prefetch_get. intros H.
  bind_inv H as L w0 H0. apply gets_Ok in H0 as [<- <-].
  bind_inv H as f w1 H1. apply of_option_Ok in H1 as [Hf <-].
  bind_inv H as [[tmp wr0] f'] w2 H2.
  apply BlobFetcher_get_Ok in H2
    as (l & ri & l' & img & G1 & G2 & G3 & G4 & G5 & Hsame & Hw2
        & G6 & G7 & G8 & G9 & G10).
  bind_inv H as [] w3 H3. rewrite update_loader_eq in H3.
  apply ret_Ok in H as [[= <- <-] <-]. simplify_eq/=.
  exists f, f', l, ri, l', img. rewrite Hw2. by split_and!.
Qed.

(** C8: a [get] leaves the index list of every split a permutation of what
    it was, so with the same length, whether or not the call wrapped and
    reshuffled. *)
Theorem get_keeps_multiset (split : string) (w w' : World) (ex : Example)
    (wr : bool) :
  prefetch_get split w = Ok ((ex, wr), w') →
  ∀ s l, order w s = Some l →
    ∃ l', order w' s = Some l' ∧ l' ≡ₚ l ∧ length l' = length l.
Proof.
  intros H s l Hl.
  apply prefetch_get_Ok in H
    as (f & f' & l0 & ri & l' & img & _ & Hl0 & _ & _ & _ & Hperm & _ & Hw' & _).
  unfold order in *. rewrite Hw'. simpl.
  destruct (decide (bf_split f = s)) as [<-|Hne].
  - rewrite lookup_insert_eq. simplify_eq. exists l'.
    split_and!; [done..|]. by apply Permutation_length.
  - rewrite lookup_insert_ne by done. by exists l.
Qed.

(** A primed fetcher whose cursor is inside its split delivers the image
    under the cursor. *)
Lemma BlobFetcher_get_total f w l c ix img :
  primed f w →
  order w (bf_split f) = Some l →
  cursor w (bf_split f) = Some c →
  l !! c = Some ix →
  images (info (loader w)) !! ix = Some img →
  ∃ wr f' w',
    BlobFetcher_get f w = Ok ((example_of (loader w) ix img, wr, f'), w').
Proof.
  intros Hprimed Hl Hc Hix Himg. unfold BlobFetcher_get, mbind, M_bind.
  set (f1 := {| bf_split := bf_split f; if_shuffle := if_shuffle f;
                split_loader := Some (drop c l) |}).
  assert ((if split_loader f is None then BlobFetcher_reset f else ret f) w
          = Ok (f1, w)) as Hfirst.
  { destruct (split_loader f) as [p|] eqn:Hp.
    - unfold primed in Hprimed. rewrite Hp in Hprimed.
      destruct Hprimed as (l0 & c0 & ? & ? & ->). simplify_eq.
      unfold ret, f1. rewrite <-Hp. by destruct f.
    - unfold BlobFetcher_reset, mbind, M_bind, bind, gets. simpl.
      unfold order, cursor in Hl, Hc. by rewrite Hl, Hc. }
  rewrite (bind_step _ _ _ _ _ Hfirst).
  assert (∃ wr w2, _get_next_minibatch_inds f1 w = Ok ((ix, wr), w2))
    as (wr & w2 & Hnext).
  { unfold _get_next_minibatch_inds, mbind, M_bind, bind, gets. simpl.
    unfold order, cursor in Hl, Hc. rewrite Hl. simpl. rewrite Hc. simpl.
    rewrite Hix. simpl.
    destruct (decide (length l ≤ S c)%nat); [|by eauto].
    destruct (if_shuffle f); [|by eauto]. unfold lift_rng.
    destruct (shuffle_total l (random w)) as (l' & g & -> & _). by eauto. }
  rewrite (bind_step _ _ _ _ _ Hnext).
  apply next_inds_Ok in Hnext
    as (l0 & ri & l' & Hl0 & Hri & _ & Hwr & _ & _ & Hw2).
  simpl in Hl0, Hri.
  assert (l0 = l) as -> by congruence. assert (ri = c) as -> by congruence.
  set (f2 := {| bf_split := bf_split f; if_shuffle := if_shuffle f;
                split_loader := Some (drop (S c) l) |}).
  assert (split_loader_next f1 w2 = Ok ((example_of (loader w) ix img, f2), w2))
    as Hpull.
  { unfold split_loader_next, f1. simpl. rewrite (drop_S _ _ _ Hix).
    unfold __getitem__, mbind, M_bind, bind, gets. simpl.
    rewrite Hw2. simpl. rewrite Himg. simpl. done. }
  rewrite (bind_step _ _ _ _ _ Hpull).
  subst wr.
  assert (∃ f3, (if bool_decide (length l ≤ S c)%nat
                 then BlobFetcher_reset f2 else ret f2) w2 = Ok (f3, w2))
    as (f3 & Hlast).
  { case_bool_decide; [|by eexists].
    unfold BlobFetcher_reset, mbind, M_bind, bind, gets. simpl.
    rewrite Hw2. simpl. rewrite !lookup_insert_eq. simpl. by eexists. }
  rewrite (bind_step _ _ _ _ _ Hlast).
  rewrite decide_True by apply ex_ix_get_npy_data.
  by eexists _, _, _.
Qed.

Lemma prefetch_get_total split f w l c ix img :
  _prefetch_process (loader w) !! split = Some f →
  primed f w →
  order w (bf_split f) = Some l →
  cursor w (bf_split f) = Some c →
  l !! c = Some ix →
  images (info (loader w)) !! ix = Some img →
  ∃ wr w', prefetch_get split w = Ok ((example_of (loader w) ix img, wr), w').
Proof.
  intros Hf Hprimed Hl Hc Hix Himg.
  destruct (BlobFetcher_get_total f w l c ix img) as (wr & f' & w' & Hget);
    [done..|].
  unfold prefetch_get, mbind, M_bind, bind, gets. simpl.
  rewrite Hf. simpl. rewrite Hget. simpl. by eexists _, _.
Qed.

(** ** The feature files are only read *)

Lemma next_inds_files f w p w' :
  _get_next_minibatch_inds f w = Ok (p, w') → files w' = files w.
Proof.
  unfold _get_next_minibatch_inds. intros H.
  bind_inv H as L w0 H0. apply gets_Ok in H0 as [<- <-].
  bind_inv H as l w1 H1. apply of_option_Ok in H1 as [_ <-].
  bind_inv H as ri w2 H2. apply of_option_Ok in H2 as [_ <-].
  bind_inv H as ix w3 H3. apply of_option_Ok in H3 as [_ <-].
  case_decide.
  - bind_inv H as [] w4 H4. bind_inv H as [] w5 H5.
    rewrite update_loader_eq in H5. apply ret_Ok in H as [_ <-].
    injection H5 as <-. simpl.
    destruct (if_shuffle f).
    + bind_inv H4 as l' w6 H6. apply lift_rng_Ok in H6 as (g & _ & ->).
      rewrite update_loader_eq in H4. by injection H4 as <-.
    + by apply ret_Ok in H4 as [_ <-].
  - bind_inv H as [] w4 H4. rewrite update_loader_eq in H4.
    apply ret_Ok in H as [_ <-]. by injection H4 as <-.
Qed.

Lemma BlobFetcher_get_files f w r w' :
  BlobFetcher_get f w = Ok (r, w') → files w' = files w.
Proof.
  unfold BlobFetcher_get. intros H.
  bind_inv H as f1 w1 H1.
  assert (w1 = w) as ->.
  { destruct (split_loader f).
    - by apply ret_Ok in H1 as [_ <-].
    - by apply BlobFetcher_reset_Ok in H1 as [-> _]. }
  bind_inv H as [ix wr0] w2 H2. apply next_inds_files in H2 as <-.
  bind_inv H as [tmp f2] w3 H3. apply split_loader_next_Ok in H3 as [-> _].
  bind_inv H as f3 w4 H4.
  assert (w4 = w2) as ->.
  { destruct wr0.
    - by apply BlobFetcher_reset_Ok in H4 as [-> _].
    - by apply ret_Ok in H4 as [_ <-]. }
  case_decide; [|done]. by apply ret_Ok in H as [_ <-].
Qed.

Lemma prefetch_get_files split w r w' :
  prefetch_get split w = Ok (r, w') → files w' = files w.
Proof.
  unfold prefetch_get. intros H.
  bind_inv H as L w0 H0. apply gets_Ok in H0 as [<- <-].
  bind_inv H as f w1 H1. apply of_option_Ok in H1 as [_ <-].
  bind_inv H as [[tmp wr0] f'] w2 H2. apply BlobFetcher_get_files in H2 as <-.
  bind_inv H as [] w3 H3. rewrite update_loader_eq in H3.
  apply ret_Ok in H as [_ <-]. by injection H3 as <-.
Qed.

(** ** Caption index *)

Lemma randint_eq a b g :
  a ≤ b →
  randint a b g =
    Ok (a + Z.of_nat (g 0%nat `mod` Z.to_nat (b - a + 1))%nat, λ k, g (S k)).
Proof. intros Hab. unfold randint. by rewrite decide_False by lia. Qed.

Lemma randint_range a b g :
  a ≤ b →
  a ≤ a + Z.of_nat (g 0%nat `mod` Z.to_nat (b - a + 1))%nat ≤ b.
Proof.
  intros Hab.
  pose proof (Nat.mod_upper_bound (g 0%nat) (Z.to_nat (b - a + 1))). lia.
Qed.

Lemma length_row_of t w i : length (row_of t w i) = (w `min` shape1 t)%nat.
Proof. unfold row_of. by rewrite length_map, length_seq. Qed.

Lemma length_caption_row L c : length (caption_row L c) = seq_length L.
Proof. unfold caption_row. rewrite length_row_of. unfold seq_length. lia. Qed.

Lemma h5_row_eq {S} t i w (s : S) :
  0 ≤ i < Z.of_nat (shape0 t) →
  h5_row t i w s = Ok (row_of t w (Z.to_nat i), s).
Proof.
  intros Hi. unfold h5_row.
  rewrite (decide_False (P := i < 0)) by lia. by rewrite decide_True by lia.
Qed.

Lemma h5_rows_eq t a n w :
  0 ≤ a → 0 ≤ n → a + n ≤ Z.of_nat (shape0 t) →
  h5_rows t a (a + n) w = map (row_of t w) (seq (Z.to_nat a) (Z.to_nat n)).
Proof.
  intros Ha Hn Hb. unfold h5_rows, py_slice_bound.
  rewrite !decide_False by lia. do 2 f_equal; lia.
Qed.

Lemma int64_id z : - 2 ^ 63 ≤ z < 2 ^ 63 → int64 z = z.
Proof.
  intros Hz. unfold int64.
  rewrite Z.mod_small by lia. lia.
Qed.

Lemma int64_range z : - 2 ^ 63 ≤ int64 z < 2 ^ 63.
Proof.
  unfold int64. pose proof (Z.mod_pos_bound (z + 2 ^ 63) (2 ^ 64)). lia.
Qed.

Lemma int64_idemp z : int64 (int64 z) = int64 z.
Proof. apply int64_id, int64_range. Qed.

Lemma int64_idemp_row (r : list Z) : int64 <$> (int64 <$> r) = int64 <$> r.
Proof.
  rewrite <-list_fmap_compose. apply list_fmap_ext. intros _ z _.
  apply int64_idemp.
Qed.



Lemma caption_row_int64 L c :
  int64_table L → int64 <$> caption_row L c = caption_row L c.
Proof.
  intros Htab. unfold caption_row, row_of.
  change (map ?f ?l) with (f <$> l).
  rewrite <-list_fmap_compose. apply list_fmap_ext. intros _ j _. simpl.
  apply int64_id, Htab.
Qed.

(** The subsampling loop: row [q0 + j] receives the caption drawn by the
    [j]-th draw, cast to the integers of the buffer; rows in front of [q0]
    stay. *)
Lemma subsample_run t wd ix1 ix2 L fs :
  0 ≤ ix1 → ix1 ≤ ix2 → ix2 < Z.of_nat (shape0 t) →
  ∀ n q0 sq g, (q0 + n ≤ length sq)%nat →
  ∃ sq' g',
    subsample t wd ix1 ix2 (seq q0 n) sq
      {| loader := L; random := g; files := fs |}
      = Ok (sq', {| loader := L; random := g'; files := fs |}) ∧
    length sq' = length sq ∧
    (∀ j, (j < n)%nat →
       sq' !! (q0 + j)%nat =
         Some (int64 <$> row_of t wd
                 (Z.to_nat (ix1 + Z.of_nat (g j `mod` Z.to_nat (ix2 - ix1 + 1))%nat)))) ∧
    (∀ i, (i < q0)%nat → sq' !! i = sq !! i).
Proof.
  intros H1 H12 H2. induction n as [|n IH]; intros q0 sq g Hlen.
  - exists sq, g. split_and!; [done..| |done]. intros j Hj. lia.
  - cbn [seq subsample]. unfold mbind, M_bind.
    pose proof (randint_range ix1 ix2 g H12) as Hr.
    set (ixl := ix1 + Z.of_nat (g 0%nat `mod` Z.to_nat (ix2 - ix1 + 1))%nat) in *.
    assert (lift_rng (randint ix1 ix2) {| loader := L; random := g; files := fs |}
            = Ok (ixl, {| loader := L; random := λ k, g (S k); files := fs |}))
      as Hdraw.
    { unfold lift_rng. simpl. by rewrite randint_eq. }
    rewrite (bind_step _ _ _ _ _ Hdraw).
    rewrite (bind_step _ _ _ _ _ (h5_row_eq t ixl wd _ ltac:(lia))).
    destruct (IH (S q0) (<[q0:=int64 <$> row_of t wd (Z.to_nat ixl)]> sq)
                (λ k, g (S k)))
      as (sq' & g' & Hrun & Hl' & Hrows & Hkeep).
    { rewrite length_insert. lia. }
    exists sq', g'. split_and!.
    + exact Hrun.
    + by rewrite Hl', length_insert.
    + intros [|j] Hj.
      * rewrite Nat.add_0_r, Hkeep by lia.
        apply list_lookup_insert_eq. lia.
      * replace (q0 + S j)%nat with (S q0 + j)%nat by lia.
        apply Hrows. lia.
    + intros i Hi. rewrite Hkeep by lia.
      apply list_lookup_insert_ne. lia.
Qed.

(** What [_get_sequence] returns for an image whose caption range lies in
    the table. *)
Lemma get_sequence_spec (w : World) (ix : nat) (spi s e : Z) :
  label_start_ix (loader w) !! ix = Some s →
  label_end_ix (loader w) !! ix = Some e →
  1 ≤ s →
  e ≤ Z.of_nat (shape0 (h5_labels (h5_label_file (loader w)))) →
  1 ≤ e - s + 1 →
  1 ≤ spi →
  ∃ sq w',
    _get_sequence ix spi w = Ok (sq, w') ∧
    loader w' = loader w ∧
    files w' = files w ∧
    length sq = Z.to_nat spi ∧
    Forall (λ r, length r = seq_length (loader w)) sq ∧
    (e - s + 1 < spi →
     ∀ q, (q < Z.to_nat spi)%nat →
       ∃ c : nat,
         Z.of_nat c = s - 1 + Z.of_nat (random w q `mod` Z.to_nat (e - s + 1))%nat ∧
         s - 1 ≤ Z.of_nat c ≤ e - 1 ∧
         sq !! q = Some (int64 <$> caption_row (loader w) c)) ∧
    (spi ≤ e - s + 1 →
     ∃ off : nat,
       Z.of_nat off
         = s - 1 + Z.of_nat (random w 0%nat `mod` Z.to_nat (e - s + 1 - spi + 1))%nat ∧
       s - 1 ≤ Z.of_nat off ∧ Z.of_nat off + spi - 1 ≤ e - 1 ∧
       ∀ q, (q < Z.to_nat spi)%nat →
         sq !! q = Some (caption_row (loader w) (off + q))).
Proof.
  intros Hs He Hs1 Hetab Hncap Hspi. destruct w as [L g fs]. simpl in *.
  unfold _get_sequence, mbind, M_bind, bind, gets. simpl.
  rewrite Hs. simpl. rewrite He. simpl.
  rewrite decide_True by lia.
  set (t := h5_labels (h5_label_file L)) in *.
  destruct (decide (e - 1 - (s - 1) + 1 < spi)) as [Hfew|Hmany].
  - (* fewer captions than rows: one draw for each row *)
    unfold np_zeros. rewrite decide_False by lia. unfold ret at 1.
    destruct (subsample_run t (seq_length L) (s - 1) (e - 1) L fs
                ltac:(lia) ltac:(lia) ltac:(lia) (Z.to_nat spi) 0
                (replicate (Z.to_nat spi) (replicate (seq_length L) 0)) g)
      as (sq & g' & Hrun & Hlen & Hrows0 & _).
    { rewrite length_replicate. lia. }
    assert (∀ j, (j < Z.to_nat spi)%nat →
              sq !! j = Some (int64 <$> row_of t (seq_length L) (Z.to_nat
                (s - 1 + Z.of_nat (g j `mod` Z.to_nat (e - 1 - (s - 1) + 1))%nat))))
      as Hrows by exact Hrows0.
    clear Hrows0.
    exists sq, {| loader := L; random := g'; files := fs |}.
    rewrite length_replicate in Hlen.
    split_and!; [exact Hrun | done | done | done | | | intros; lia].
    + apply Forall_forall. intros r [q Hq]%list_elem_of_lookup.
      assert (q < Z.to_nat spi)%nat as Hlt.
      { rewrite <-Hlen. by eapply lookup_lt_Some. }
      rewrite (Hrows q Hlt) in Hq.
      simplify_eq. rewrite length_fmap. apply length_caption_row.
    + intros _ q Hq.
      pose proof (Nat.mod_upper_bound (g q) (Z.to_nat (e - s + 1))
                    ltac:(lia)) as Hb.
      exists (Z.to_nat (s - 1 + Z.of_nat (g q `mod` Z.to_nat (e - s + 1))%nat)).
      split_and!; [lia..|].
      rewrite (Hrows q Hq). unfold caption_row.
      by replace (e - 1 - (s - 1) + 1) with (e - s + 1) by lia.
  - (* enough captions: one window *)
    pose proof (randint_range (s - 1) (e - 1 - spi + 1) g ltac:(lia)) as Hr.
    unfold lift_rng. simpl. rewrite randint_eq by lia. unfold ret.
    set (ixl := s - 1 + Z.of_nat _) in *.
    rewrite h5_rows_eq by lia.
    eexists _, _. split; [reflexivity|]. simpl.
    split_and!; [done | done | by rewrite length_map, length_seq | | intros; lia |].
    + apply Forall_forall. intros r (c & -> & _)%list_elem_of_fmap.
      apply length_caption_row.
    + intros _. exists (Z.to_nat ixl). split_and!; [|lia..|].
      * rewrite Z2Nat.id by lia. unfold ixl.
        by replace (e - 1 - spi + 1 - (s - 1) + 1) with (e - s + 1 - spi + 1)
          by lia.
      * intros q Hq. rewrite list_lookup_fmap, lookup_seq_lt by done. done.
Qed.






Lemma h5_row_Ok {S} t i w (s s' : S) r :
  h5_row t i w s = Ok (r, s') → s' = s ∧ ∃ j, r = row_of t w j.
Proof.
  unfold h5_row. case_decide; [|done]. intros [<- <-]%ret_Ok.
  split; [done | by eexists].
Qed.

Lemma subsample_Ok t wd ix1 ix2 : ∀ qs sq W sq' W',
  subsample t wd ix1 ix2 qs sq W = Ok (sq', W') →
  loader W' = loader W ∧
  length sq' = length sq ∧
  (Forall (λ r, length r = (wd `min` shape1 t)%nat) sq →
   Forall (λ r, length r = (wd `min` shape1 t)%nat) sq') ∧
  files W' = files W.
Proof.
  induction qs as [|q qs IH]; intros sq W sq' W' H; cbn [subsample] in H.
  - by apply ret_Ok in H as [<- <-].
  - bind_inv H as ixl W1 H1. apply lift_rng_Ok in H1 as (g & _ & ->).
    bind_inv H as r W2 H2. apply h5_row_Ok in H2 as (-> & j & ->).
    apply IH in H as (-> & -> & Hall & ->). rewrite length_insert.
    split_and!; [done..| |done]. intros Hsq. apply Hall.
    apply Forall_insert; [done|]. rewrite length_fmap. apply length_row_of.
Qed.

Lemma get_sequence_Ok ix spi w sq w' :
  _get_sequence ix spi w = Ok (sq, w') →
  loader w' = loader w ∧
  Forall (λ r, length r = seq_length (loader w)) sq ∧
  ∃ n, ncap (loader w) ix = Some n ∧ 0 < n.
Proof.
  unfold _get_sequence, ncap. intros H.
  bind_inv H as L w0 H0. apply gets_Ok in H0 as [<- <-].
  bind_inv H as s w1 H1. apply of_option_Ok in H1 as [Hs <-].
  bind_inv H as e w2 H2. apply of_option_Ok in H2 as [He <-].
  rewrite Hs, He. simpl.
  case_decide as Hn; [|done].
  assert (seq_length (loader w)
          = (seq_length (loader w) `min` shape1 (h5_labels (h5_label_file (loader w))))%nat)
    as Hw by (unfold seq_length; lia).
  assert (∃ n, Some (e - s + 1) = Some n ∧ 0 < n) as Hcap
    by (eexists; split; [done | lia]).
  case_decide as Hfew.
  - bind_inv H as zeros w3 H3. unfold np_zeros in H3.
    case_decide; [done|]. apply ret_Ok in H3 as [<- <-].
    apply subsample_Ok in H as (-> & _ & Hall & _).
    split_and!; [done| |done]. rewrite Hw. apply Hall.
    rewrite <-Hw. apply Forall_replicate, length_replicate.
  - bind_inv H as ixl w3 H3. apply lift_rng_Ok in H3 as (g & _ & ->).
    apply ret_Ok in H as [<- <-]. split_and!; [done| |done].
    unfold h5_rows. apply Forall_fmap, Forall_true. intros c. simpl.
    by rewrite length_row_of, <-Hw.
Qed.

Lemma get_sequence_files ix spi w sq w' :
  _get_sequence ix spi w = Ok (sq, w') → files w' = files w.
Proof.
  unfold _get_sequence. intros H.
  bind_inv H as L w0 H0. apply gets_Ok in H0 as [<- <-].
  bind_inv H as s w1 H1. apply of_option_Ok in H1 as [_ <-].
  bind_inv H as e w2 H2. apply of_option_Ok in H2 as [_ <-].
  case_decide as Hn; [|done].
  case_decide as Hfew.
  - bind_inv H as zeros w3 H3. unfold np_zeros in H3.
    case_decide; [done|]. apply ret_Ok in H3 as [<- <-].
    by apply subsample_Ok in H as (_ & _ & _ & ->).
  - bind_inv H as ixl w3 H3. apply lift_rng_Ok in H3 as (g & _ & ->).
    by apply ret_Ok in H as [<- <-].
Qed.

Lemma get_sequence_no_label ix spi w n :
  ncap (loader w) ix = Some n → n ≤ 0 →
  _get_sequence ix spi w = Err (AssertionError no_label_msg).
Proof.
  unfold ncap, _get_sequence, mbind, M_bind, bind, gets. simpl.
  destruct (label_start_ix (loader w) !! ix) as [s|]; [|done]. simpl.
  destruct (label_end_ix (loader w) !! ix) as [e|]; [|done]. simpl.
  intros [= <-] Hn. by rewrite decide_False by lia.
Qed.

(** ** The label buffer *)

Lemma padded_zeros w : padded w (replicate (w + 2) 0).
Proof.
  exists (replicate w 0). rewrite length_replicate. split; [|done].
  replace (w + 2)%nat with (S (w + 1)) by lia. cbn [replicate]. f_equal.
  by rewrite replicate_add.
Qed.

Lemma padded_set_cols w src dst :
  length src = w → padded w dst → padded w (set_cols 1 src dst).
Proof.
  intros Hsrc (mid & -> & Hmid). exists (int64 <$> src).
  split; [|by rewrite length_fmap].
  unfold set_cols. cbn [take drop Nat.add]. rewrite Hsrc, <-Hmid.
  by rewrite drop_app_length.
Qed.

Lemma padded_length w r : padded w r → length r = (w + 2)%nat.
Proof. intros (mid & -> & <-). simpl. rewrite length_app. simpl. lia. Qed.

Lemma count_nonzero_padded w r : padded w r → (count_nonzero r ≤ w)%nat.
Proof.
  intros (mid & -> & <-). unfold count_nonzero.
  rewrite filter_cons_False by (intros ?; done).
  rewrite filter_app, filter_cons_False by (intros ?; done).
  rewrite filter_nil, app_nil_r. apply length_filter.
Qed.

Lemma assign_block_Ok {S} m r0 r1 src (s s' : S) m' w :
  assign_block m r0 r1 1 src s = Ok (m', s') →
  Forall (λ r, length r = w) src →
  s' = s ∧ length m' = length m ∧ (Forall (padded w) m → Forall (padded w) m').
Proof.
  unfold assign_block. intros H Hsrc.
  set (lo := Z.to_nat (py_slice_bound (Z.of_nat (length m)) r0)) in *.
  set (k := (Z.to_nat (py_slice_bound (Z.of_nat (length m)) r1) - lo)%nat) in *.
  assert (∀ body : matrix,
            length body = length (take k (drop lo m)) →
            (Forall (padded w) m → Forall (padded w) body) →
            length (take lo m ++ body ++ drop (lo + k) m) = length m ∧
            (Forall (padded w) m →
             Forall (padded w) (take lo m ++ body ++ drop (lo + k) m)))
    as Hglue.
  { intros body Hlen Hbody. split.
    - rewrite !length_app, Hlen, <-!length_app.
      rewrite <-drop_drop, !take_drop. done.
    - intros Hm. rewrite !Forall_app. split_and!; [|by apply Hbody|].
      + by apply Forall_take.
      + by apply Forall_drop. }
  case_decide as Hk.
  - apply ret_Ok in H as [<- <-].
    destruct (Hglue (zip_with (set_cols 1) src (take k (drop lo m)))) as [? ?].
    + rewrite length_zip_with. rewrite Hk.
      assert (length (take k (drop lo m)) ≤ k)%nat by (rewrite length_take; lia).
      lia.
    + intros Hm.
      apply (Forall_zip_with_fst _ (λ r, length r = w)); [exact Hsrc|].
      eapply Forall_impl; [by apply Forall_take, Forall_drop|].
      intros y Hy x Hx. by apply padded_set_cols.
    + done.
  - destruct src as [|r [|]]; try done.
    apply ret_Ok in H as [<- <-].
    destruct (Hglue (map (set_cols 1 r) (take k (drop lo m)))) as [? ?].
    + by rewrite length_map.
    + intros Hm. apply Forall_fmap.
      eapply Forall_impl; [by apply Forall_take, Forall_drop|].
      intros y Hy. simpl. apply padded_set_cols; [|done].
      by inversion Hsrc.
    + done.
Qed.

(** ** Batch assembler: the fetch loop *)

Lemma make_info_dict_Ok ix w inf w' :
  _make_info_dict ix w = Ok (inf, w') → w' = w ∧ info_ix inf = ix.
Proof.
  unfold _make_info_dict. intros H.
  bind_inv H as L w0 H0. apply gets_Ok in H0 as [<- <-].
  bind_inv H as img w1 H1. apply of_option_Ok in H1 as [_ <-].
  by apply ret_Ok in H as [<- <-].
Qed.

Lemma batch_body_Ok split spi i acc w acc' wr w' :
  batch_body split spi i acc w = Ok ((acc', wr), w') →
  ∃ ex w1 sq tmp inf gt,
    prefetch_get split w = Ok ((ex, wr), w1) ∧
    _get_sequence (ex_ix ex) spi w1 = Ok (sq, w') ∧
    assign_block (tmp_label_batch acc) (Z.of_nat i * spi)
      ((Z.of_nat i + 1) * spi) 1 sq w' = Ok (tmp, w') ∧
    info_ix inf = ex_ix ex ∧
    acc' = {| fc_batch := fc_batch acc ++ replicate (Z.to_nat spi) (ex_fc ex);
              att_batch := att_batch acc ++ replicate (Z.to_nat spi) (ex_att ex);
              tmp_label_batch := tmp;
              acc_infos := acc_infos acc ++ [inf];
              acc_gts := acc_gts acc ++ [gt];
              acc_wrapped := acc_wrapped acc;
              acc_i := i |}.
Proof.
  unfold batch_body. intros H.
  bind_inv H as [ex wr0] w1 H1.
  bind_inv H as sq w2 H2.
  bind_inv H as tmp w3 H3.
  pose proof H2 as (_ & Hwidth & _)%get_sequence_Ok.
  destruct (assign_block_Ok _ _ _ _ _ _ _ _ H3 Hwidth) as (-> & _).
  bind_inv H as L w4 H4. apply gets_Ok in H4 as [<- <-].
  bind_inv H as s w5 H5. apply of_option_Ok in H5 as [_ <-].
  bind_inv H as e w6 H6. apply of_option_Ok in H6 as [_ <-].
  bind_inv H as inf w7 H7. apply make_info_dict_Ok in H7 as [-> Hinf].
  apply ret_Ok in H as [[= <- <-] <-].
  by eexists ex, w1, sq, tmp, inf, _.
Qed.

Lemma prefetch_get_static split w ex wr w' :
  prefetch_get split w = Ok ((ex, wr), w') →
  opt (loader w') = opt (loader w) ∧
  allow_shuffle (loader w') = allow_shuffle (loader w) ∧
  info (loader w') = info (loader w) ∧
  h5_label_file (loader w') = h5_label_file (loader w).
Proof.
  intros (f & f' & l & ri & l' & img & _ & _ & _ & _ & _ & _ & _ & -> & _)
    %prefetch_get_Ok.
  done.
Qed.

Lemma ncap_h5 L L' :
  h5_label_file L = h5_label_file L' → ncap L = ncap L'.
Proof. unfold ncap, label_start_ix, label_end_ix. by intros ->. Qed.

Lemma loader_after_cons L c calls :
  loader_after L (c :: calls) = loader_after (loader (after c)) calls.
Proof.
  unfold loader_after. rewrite last_cons. by destruct (last calls).
Qed.

Lemma batch_loop_Ok split spi : ∀ n i0 acc w acc' w',
  batch_loop split spi (seq i0 n) acc w = Ok (acc', w') →
  ∃ calls,
    Forall (is_get_call split) calls ∧
    sequential (loader w) calls ∧
    loader w' = loader_after (loader w) calls ∧
    (length calls ≤ n)%nat ∧
    (n ≠ 0%nat → calls ≠ []) ∧
    (calls = [] → acc' = acc) ∧
    (∀ i c, calls !! i = Some c → (S i < length calls)%nat → flag c = false) ∧
    (∀ c, last calls = Some c →
       acc_wrapped acc' = flag c || acc_wrapped acc ∧
       ((length calls < n)%nat → flag c = true) ∧
       acc_i acc' = (i0 + length calls - 1)%nat) ∧
    info_ix <$> acc_infos acc'
      = (info_ix <$> acc_infos acc) ++ ((ex_ix ∘ got) <$> calls) ∧
    fc_batch acc'
      = fc_batch acc
        ++ flat_map (λ c, replicate (Z.to_nat spi) (ex_fc (got c))) calls ∧
    att_batch acc'
      = att_batch acc
        ++ flat_map (λ c, replicate (Z.to_nat spi) (ex_att (got c))) calls ∧
    length (acc_gts acc') = (length (acc_gts acc) + length calls)%nat ∧
    length (tmp_label_batch acc') = length (tmp_label_batch acc) ∧
    h5_label_file (loader w') = h5_label_file (loader w) ∧
    (Forall (padded (seq_length (loader w))) (tmp_label_batch acc) →
     Forall (padded (seq_length (loader w))) (tmp_label_batch acc')) ∧
    Forall (λ c, ∃ k, ncap (loader w) (ex_ix (got c)) = Some k ∧ 0 < k) calls.
Proof.
  induction n as [|n IH]; intros i0 acc w acc' w' H.
  { apply ret_Ok in H as [<- <-]. exists []. simpl.
    rewrite !app_nil_r. by split_and!. }
  cbn [seq batch_loop] in H. bind_inv H as [acc1 wr] w1' Hbody.
  apply batch_body_Ok in Hbody
    as (ex & w1 & sq & tmp & inf & gt & Hget & Hseq & Hblock & Hinf & ->).
  pose proof (prefetch_get_static _ _ _ _ _ Hget) as (_ & _ & _ & Hh5).
  pose proof (get_sequence_Ok _ _ _ _ _ Hseq) as (Hld & Hwidth & Hcap).
  rewrite (ncap_h5 _ _ Hh5) in Hcap.
  assert (seq_length (loader w1) = seq_length (loader w)) as Hsl
    by (unfold seq_length; by rewrite Hh5).
  rewrite Hsl in Hwidth.
  destruct (assign_block_Ok _ _ _ _ _ _ _ _ Hblock Hwidth) as (_ & Hlen & Hpad).
  set (c := {| before := w; got := ex; flag := wr; after := w1 |}).
  assert (is_get_call split c) as Hc by exact Hget.
  destruct wr.
  - (* the call wrapped: the loop ends here *)
    apply ret_Ok in H as [<- <-]. exists [c]. simpl.
    split_and!; try done.
    + by apply Forall_singleton.
    + lia.
    + intros i c' Hi Hlt. lia.
    + intros c' [= <-]. split_and!; [done..|]. lia.
    + by rewrite fmap_app, <-Hinf.
    + by rewrite app_nil_r.
    + by rewrite app_nil_r.
    + rewrite length_app. simpl. lia.
    + by rewrite Hld.
    + by apply Forall_singleton.
  - apply IH in H as (calls & Hcalls & Hseqs & Hafter & Hn & Hne & Hnil & Hflags
        & Hlast & Hinfos & Hfc & Hatt & Hgts & Htmp & Hh5' & Hpad' & Hcaps).
    simpl in *. exists (c :: calls).
    assert (last (c :: calls) = Some (default c (last calls))) as Hl.
    { rewrite last_cons. by destruct (last calls). }
    split_and!.
    + by constructor.
    + simpl. split; [done|]. by rewrite <-Hld.
    + by rewrite loader_after_cons, Hafter, Hld.
    + simpl. lia.
    + done.
    + done.
    + intros [|i] c' Hi Hlt; simplify_eq/=; [done|].
      apply (Hflags i c' Hi). lia.
    + intros c'. rewrite Hl. intros [= <-].
      destruct (last calls) as [c0|] eqn:Hl0; simpl.
      * destruct (Hlast c0 eq_refl) as (-> & Hstop & ->).
        split_and!; [done| |lia]. intros ?. apply Hstop. lia.
      * apply last_None in Hl0. subst calls.
        destruct n; [|by destruct Hne]. rewrite (Hnil eq_refl). simpl.
        split_and!; [done|lia|lia].
    + rewrite Hinfos, fmap_app, <-app_assoc, (fmap_cons _ c calls).
      f_equal. simpl. by rewrite Hinf.
    + by rewrite Hfc, <-app_assoc.
    + by rewrite Hatt, <-app_assoc.
    + rewrite Hgts, length_app. simpl. lia.
    + by rewrite Htmp.
    + by rewrite Hh5', Hld.
    + intros Hp. rewrite Hld, Hsl in Hpad'. auto.
    + constructor; [done|]. rewrite Hld in Hcaps.
      by rewrite <-(ncap_h5 _ _ Hh5).
Qed.

Lemma batch_body_files split spi i acc w r w' :
  batch_body split spi i acc w = Ok (r, w') → files w' = files w.
Proof.
  destruct r as [acc' wr].
  intros (ex & w1 & sq & tmp & inf & gt & Hget & Hseq & _)%batch_body_Ok.
  by rewrite (get_sequence_files _ _ _ _ _ Hseq), (prefetch_get_files _ _ _ _ Hget).
Qed.

Lemma batch_loop_files split spi : ∀ idxs acc w acc' w',
  batch_loop split spi idxs acc w = Ok (acc', w') → files w' = files w.
Proof.
  induction idxs as [|i idxs IH]; intros acc w acc' w' H; cbn [batch_loop] in H.
  - by apply ret_Ok in H as [_ <-].
  - bind_inv H as [acc1 wr] w1 Hbody.
    apply batch_body_files in Hbody as <-.
    destruct wr; [by apply ret_Ok in H as [_ <-] | by eapply IH].
Qed.

(** ** Batch assembler: the batch *)

Lemma copy_rows_Ok {S} src : ∀ idxs dst (s s' : S) m,
  copy_rows idxs dst src s = Ok (m, s') →
  s' = s ∧
  length m = length dst ∧
  (∀ i, m !! i = if decide (i ∈ idxs) then src !! i else dst !! i).
Proof.
  induction idxs as [|j idxs IH]; intros dst s s' m H; cbn [copy_rows] in H.
  - apply ret_Ok in H as [<- <-]. split_and!; [done..|].
    intros i. by rewrite decide_False by apply not_elem_of_nil.
  - bind_inv H as r s1 H1. apply of_option_Ok in H1 as [Hr <-].
    case_decide as Hj; [|done].
    apply IH in H as (-> & Hlen & Hrows). rewrite length_insert in Hlen.
    split_and!; [done..|]. intros i. rewrite Hrows.
    destruct (decide (i = j)) as [->|Hne].
    + rewrite (decide_True (P := j ∈ j :: idxs)) by left.
      case_decide; [done|]. rewrite list_lookup_insert_eq by done. done.
    + rewrite list_lookup_insert_ne by done.
      destruct (decide (i ∈ idxs)) as [Hin|Hnin].
      * by rewrite decide_True by (by right).
      * rewrite decide_False; [done|]. by intros [?|?]%elem_of_cons.
Qed.

Lemma np_zeros_Ok {S} r c (s s' : S) m :
  np_zeros r c s = Ok (m, s') →
  s' = s ∧ 0 ≤ r ∧ m = replicate (Z.to_nat r) (replicate c 0).
Proof.
  unfold np_zeros. case_decide; [done|]. intros [<- <-]%ret_Ok.
  split_and!; [done|lia|done].
Qed.

Lemma np_stack_Ok {S A} (shape : A → list nat) (xs ys : list A) (s s' : S) :
  np_stack shape xs s = Ok (ys, s') → s' = s ∧ ys = xs ∧ xs ≠ [].
Proof.
  destruct xs; [done|]. simpl. case_decide; [|done]. by intros [<- <-]%ret_Ok.
Qed.

Lemma np_stack_shapes {S A} (shape : A → list nat) (xs ys : list A) (s s' : S) :
  np_stack shape xs s = Ok (ys, s') →
  ∀ x y, x ∈ xs → y ∈ xs → shape x = shape y.
Proof.
  destruct xs as [|x0 rest]; [done|]. simpl. case_decide as Hall; [|done].
  intros _.
  assert (∀ x, x ∈ x0 :: rest → shape x = shape x0) as Hx0.
  { intros x [->|Hx]%elem_of_cons; [done|].
    by apply (proj1 (Forall_forall _ _) Hall). }
  intros x y Hx Hy. by rewrite (Hx0 x Hx), (Hx0 y Hy).
Qed.

Lemma np_stack_total {S A} (shape : A → list nat) (xs : list A) (s : S) :
  xs ≠ [] →
  (∀ x y, x ∈ xs → y ∈ xs → shape x = shape y) →
  np_stack shape xs s = Ok (xs, s).
Proof.
  destruct xs as [|x0 rest]; [done|]. intros _ Hsame. simpl.
  rewrite decide_True; [done|].
  apply Forall_forall. intros y Hy. apply Hsame; [by right | by left].
Qed.

(** What a returned batch was made of: the calls of [get] of the fetch
    loop, and the label buffer the loop filled. *)
Lemma get_batch_Ok split b s w d w' :
  get_batch split b s w = Ok (d, w') →
  ∃ calls tmp,
    let bs := py_or b (batch_size (loader w)) in
    let spi := py_or s (seq_per_img (loader w)) in
    let zeros := replicate (length calls * Z.to_nat spi)
                   (replicate (seq_length (loader w) + 2) 0) in
    1 ≤ spi ∧ (1 ≤ length calls ≤ Z.to_nat bs)%nat ∧
    Forall (is_get_call split) calls ∧
    sequential (loader w) calls ∧
    loader w' = loader_after (loader w) calls ∧
    (∀ i c, calls !! i = Some c → (S i < length calls)%nat → flag c = false) ∧
    (∀ c, last calls = Some c →
       wrapped (bounds d) = flag c ∧
       ((length calls < Z.to_nat bs)%nat → flag c = true)) ∧
    info_ix <$> infos d = (ex_ix ∘ got) <$> calls ∧
    fc_feats d = flat_map (λ c, replicate (Z.to_nat spi) (ex_fc (got c))) calls ∧
    att_feats d = flat_map (λ c, replicate (Z.to_nat spi) (ex_att (got c))) calls ∧
    length (gts d) = length calls ∧
    Forall (padded (seq_length (loader w))) tmp ∧
    length tmp = Z.to_nat (bs * spi) ∧
    length (labels d) = (length calls * Z.to_nat spi)%nat ∧
    (∀ i, labels d !! i
          = if decide (i < length calls)%nat then tmp !! i else zeros !! i) ∧
    masks d = zip_with fill_ones
                (map (λ x, count_nonzero x + 2)%nat (labels d)) zeros ∧
    cursor w' split = Some (it_pos_now (bounds d)) ∧
    length <$> order w' split = Some (it_max (bounds d)) ∧
    Forall (λ c, ∃ k, ncap (loader w) (ex_ix (got c)) = Some k ∧ 0 < k) calls.
Proof.
  unfold get_batch. intros H.
  bind_inv H as L w0 H0. apply gets_Ok in H0 as [<- <-].
  set (bs := py_or b (batch_size (loader w))) in *.
  set (spi := py_or s (seq_per_img (loader w))) in *.
  set (wd := seq_length (loader w)) in *.
  bind_inv H as tmp0 w1 H1. apply np_zeros_Ok in H1 as (-> & Hdim & ->).
  bind_inv H as acc w2 Hloop.
  apply batch_loop_Ok in Hloop
    as (calls & Hcalls & Hseqs & Hafter & Hn & Hne & Hnil & Hflags & Hlast
        & Hinfos & Hfc & Hatt & Hgts & Htmp & _ & Hpad & Hcaps).
  simpl in Hinfos, Hfc, Hatt, Hgts, Htmp, Hpad, Hlast.
  bind_inv H as zeros w3 H3. apply np_zeros_Ok in H3 as (-> & Hdim' & ->).
  bind_inv H as label_batch w4 H4.
  apply copy_rows_Ok in H4 as (-> & Hlab & Hrows).
  bind_inv H as mask0 w5 H5. apply np_zeros_Ok in H5 as (-> & _ & ->).
  bind_inv H as shape w5' H5'. apply gets_Ok in H5' as [<- <-].
  bind_inv H as fc w6 H6. apply np_stack_Ok in H6 as (-> & -> & Hfc0).
  bind_inv H as att w7 H7. apply np_stack_Ok in H7 as (-> & -> & _).
  bind_inv H as L' w8 H8. apply gets_Ok in H8 as [<- <-].
  bind_inv H as pos w9 H9. apply of_option_Ok in H9 as [Hpos <-].
  bind_inv H as l w10 H10. apply of_option_Ok in H10 as [Hl <-].
  apply ret_Ok in H as [<- <-]. simpl.
  (* the stacked features are not empty: the loop ran, on [spi ≥ 1] rows *)
  assert (calls ≠ [] ∧ 1 ≤ spi) as [Hcne Hspi].
  { rewrite Hfc in Hfc0. destruct calls as [|c calls]; [done|].
    split; [done|]. destruct (decide (1 ≤ spi)); [done|].
    exfalso. apply Hfc0. replace (Z.to_nat spi) with 0%nat by lia.
    clear. by induction (c :: calls). }
  destruct (last calls) as [cl|] eqn:Hcl;
    [|by apply last_None in Hcl].
  destruct (Hlast cl eq_refl) as (Hwr & Hstop & Hi).
  assert (length calls ≠ 0)%nat as Hlen0 by (by destruct calls).
  assert (acc_i acc + 1 = length calls)%nat as Habs by lia.
  rewrite Habs in *.
  assert (Z.to_nat (Z.of_nat (length calls) * spi)
          = (length calls * Z.to_nat spi)%nat) as Hrowsn by lia.
  rewrite Hrowsn in *.
  exists calls, (tmp_label_batch acc). split_and!; try done.
  - lia.
  - intros c Hc. rewrite Hcl in Hc. injection Hc as <-.
    split; [|done]. by rewrite Hwr, orb_false_r.
  - apply Hpad, Forall_replicate, padded_zeros.
  - by rewrite Htmp, length_replicate.
  - by rewrite Hlab, length_replicate.
  - intros i. rewrite Hrows. destruct (decide (i < length calls)%nat).
    + by rewrite decide_True by (apply elem_of_seq; lia).
    + by rewrite decide_False by (rewrite elem_of_seq; lia).
  - unfold order. by rewrite Hl.
Qed.

Lemma get_batch_files split b s w d w' :
  get_batch split b s w = Ok (d, w') → files w' = files w.
Proof.
  unfold get_batch. intros H.
  bind_inv H as L w0 H0. apply gets_Ok in H0 as [<- <-].
  bind_inv H as tmp0 w1 H1. apply np_zeros_Ok in H1 as (-> & _ & ->).
  bind_inv H as acc w2 Hloop. apply batch_loop_files in Hloop as <-.
  bind_inv H as zeros w3 H3. apply np_zeros_Ok in H3 as (-> & _ & ->).
  bind_inv H as label_batch w4 H4. apply copy_rows_Ok in H4 as (-> & _).
  bind_inv H as mask0 w5 H5. apply np_zeros_Ok in H5 as (-> & _ & ->).
  bind_inv H as shape w5' H5'. apply gets_Ok in H5' as [<- <-].
  bind_inv H as fc w6 H6. apply np_stack_Ok in H6 as (-> & _).
  bind_inv H as att w7 H7. apply np_stack_Ok in H7 as (-> & _).
  bind_inv H as L' w8 H8. apply gets_Ok in H8 as [<- <-].
  bind_inv H as pos w9 H9. apply of_option_Ok in H9 as [_ <-].
  bind_inv H as l w10 H10. apply of_option_Ok in H10 as [_ <-].
  by apply ret_Ok in H as [_ <-].
Qed.

(** ** Batch assembler: masks *)

Lemma fill_ones_zeros n w :
  (n ≤ w)%nat →
  fill_ones n (replicate w 0) = replicate n 1 ++ replicate (w - n) 0.
Proof.
  intros Hn. unfold fill_ones.
  rewrite length_replicate, Nat.min_l, drop_replicate by done. done.
Qed.

(** The mask of a returned batch, row by row. *)
Lemma mask_rows_spec (split : string) (b s : option Z) (w w' : World)
    (d : Batch) :
  get_batch split b s w = Ok (d, w') →
  length (masks d) = length (labels d) ∧
  ∀ i row, labels d !! i = Some row →
    length row = (seq_length (loader w) + 2)%nat ∧
    (count_nonzero row ≤ seq_length (loader w))%nat ∧
    masks d !! i
      = Some (replicate (count_nonzero row + 2) 1
              ++ replicate (seq_length (loader w) - count_nonzero row) 0).
Proof.
  intros (calls & tmp & _ & _ & _ & _ & _ & _ & _ & _ & _ & _ & _ & Hpad & _
          & Hlen & Hrows & Hmask & _ & _ & _)%get_batch_Ok.
  simpl in *. set (wd := seq_length (loader w)) in *.
  set (zeros := replicate _ (replicate (wd + 2) 0)) in *.
  assert (length zeros = length (labels d)) as Hz
    by (unfold zeros; by rewrite length_replicate).
  split.
  { rewrite Hmask, length_zip_with, length_map. lia. }
  intros i row Hi.
  assert (i < length (labels d))%nat as Hlt by (by eapply lookup_lt_Some).
  assert (zeros !! i = Some (replicate (wd + 2) 0)) as Hzi.
  { unfold zeros. apply lookup_replicate_2. lia. }
  assert (padded wd row) as Hrow.
  { rewrite Hrows in Hi. case_decide.
    - eapply (proj1 (Forall_lookup _ _) Hpad); done.
    - rewrite Hzi in Hi. simplify_eq. apply padded_zeros. }
  pose proof (count_nonzero_padded _ _ Hrow) as Hcnt.
  split_and!; [by apply padded_length | done |].
  rewrite Hmask, lookup_zip_with, list_lookup_fmap, Hi, Hzi. simpl.
  rewrite fill_ones_zeros by lia. do 3 f_equal. lia.
Qed.

Lemma count_nonzero_entries row : count_nonzero row = nonzero_entries row.
Proof.
  unfold count_nonzero. induction row as [|x row IH]; [done|].
  cbn [nonzero_entries]. destruct (decide (x = 0)) as [->|Hx].
  - by rewrite filter_cons_False by (intros ?; done).
  - rewrite filter_cons_True by done. simpl. by rewrite IH.
Qed.

(** C3: in a returned batch the mask has a row for each label row, and the
    mask of row [i] is [count + 2] ones followed by zeros up to the width
    [seq_length + 2], where [count] is the number of nonzero entries of label
    row [i]; [count] is at most [seq_length], so none of the ones is cut off
    (the cases [count = 0], [1] and [seq_length] included). *)
Theorem mask_of_label_rows (split : string) (b s : option Z) (w w' : World)
    (d : Batch) :
  get_batch split b s w = Ok (d, w') →
  length (masks d) = length (labels d) ∧
  ∀ i row, labels d !! i = Some row →
    length row = (seq_length (loader w) + 2)%nat ∧
    (nonzero_entries row ≤ seq_length (loader w))%nat ∧
    masks d !! i
      = Some (replicate (nonzero_entries row + 2) 1
              ++ replicate (seq_length (loader w) - nonzero_entries row) 0).
Proof.
  intros [Hlen Hrows]%mask_rows_spec. split; [done|].
  intros i row Hi. rewrite <-count_nonzero_entries. by apply Hrows.
Qed.

(** ** Batch assembler: what a batch holds *)

(** A returned batch comes from a run of sequential [get] calls on the
    fetcher of the split; what the batch holds, call for call. *)
Lemma get_batch_calls (split : string) (b s : option Z) (w w' : World)
    (d : Batch) :
  get_batch split b s w = Ok (d, w') →
  ∃ calls : list GetCall,
    Forall (is_get_call split) calls ∧
    sequential (loader w) calls ∧
    loader w' = loader_after (loader w) calls ∧
    (1 ≤ length calls ≤ Z.to_nat (py_or b (batch_size (loader w))))%nat ∧
    (∀ i c, calls !! i = Some c → (S i < length calls)%nat → flag c = false) ∧
    (∀ c, last calls = Some c →
       wrapped (bounds d) = flag c ∧
       ((length calls < Z.to_nat (py_or b (batch_size (loader w))))%nat →
        flag c = true)) ∧
    info_ix <$> infos d = (ex_ix ∘ got) <$> calls ∧
    fc_feats d
      = flat_map (λ c, replicate (Z.to_nat (py_or s (seq_per_img (loader w))))
                         (ex_fc (got c))) calls ∧
    att_feats d
      = flat_map (λ c, replicate (Z.to_nat (py_or s (seq_per_img (loader w))))
                         (ex_att (got c))) calls ∧
    length (gts d) = length calls ∧
    length (labels d)
      = (length calls * Z.to_nat (py_or s (seq_per_img (loader w))))%nat ∧
    length (masks d) = length (labels d) ∧
    cursor w' split = Some (it_pos_now (bounds d)) ∧
    length <$> order w' split = Some (it_max (bounds d)).
Proof.
  intros H. pose proof (mask_rows_spec _ _ _ _ _ _ H) as [Hmask _].
  apply get_batch_Ok in H
    as (calls & tmp & _ & G1 & G2 & G3 & G4 & G5 & G6 & G7 & G8 & G9 & G10
        & _ & _ & G11 & _ & _ & G12 & G13 & _).
  exists calls. simpl in G1. split_and!; try done; lia.
Qed.

(** C10: a [batch_size] or [seq_per_img] argument of 0 gives the run that
    [None] gives, which is the run on the loader's configured values; and no
    returned batch is empty. *)
Theorem get_batch_falsy_arguments (split : string) (x : option Z) (w : World) :
  get_batch split (Some 0) x w = get_batch split None x w ∧
  get_batch split x (Some 0) w = get_batch split x None w ∧
  get_batch split None x w
    = get_batch split (Some (batch_size (loader w))) x w ∧
  get_batch split x None w
    = get_batch split x (Some (seq_per_img (loader w))) w ∧
  (∀ b s d w', get_batch split b s w = Ok (d, w') →
     infos d ≠ [] ∧ labels d ≠ [] ∧ fc_feats d ≠ []).
Proof.
  split_and!.
  - done.
  - done.
  - unfold get_batch, mbind, M_bind, bind, gets, py_or.
    by destruct (decide (batch_size (loader w) = 0)) as [->|].
  - unfold get_batch, mbind, M_bind, bind, gets, py_or.
    by destruct (decide (seq_per_img (loader w) = 0)) as [->|].
  - intros b s d w' H. pose proof H as Hb.
    apply get_batch_Ok in H
      as (calls & tmp & Hspi & Hn & _ & _ & _ & _ & _ & Hinfos & Hfc & _ & _
          & _ & _ & Hlab & _).
    simpl in *.
    destruct calls as [|c calls]; [simpl in Hn; lia|].
    split_and!.
    + intros E. by rewrite E in Hinfos.
    + intros E. rewrite E in Hlab. simpl in Hlab. lia.
    + rewrite Hfc. simpl.
      destruct (Z.to_nat (py_or s (seq_per_img (loader w)))) eqn:E; [lia|done].
Qed.

(** ** Resetting a split *)

(** C6: [reset_iterator split] puts the cursor of the split at 0 and a fresh
    fetcher, with no pool, in place of the old one; the index order of every
    split and the generator are untouched, and so are the cursors and the
    fetchers of the other splits.  The next [get] on the split then delivers
    the first index of its order, and the next batch starts with it,
    wherever the cursor was. *)
Theorem reset_iterator_restarts (split : string) (w : World) (f : BlobFetcher) :
  _prefetch_process (loader w) !! split = Some f →
  ∃ w',
    reset_iterator split w = Ok (tt, w') ∧
    cursor w' split = Some 0%nat ∧
    _prefetch_process (loader w') !! split
      = Some (BlobFetcher__init__ split
                (allow_shuffle (loader w) && bool_decide (split = "train"))) ∧
    split_ix (loader w') = split_ix (loader w) ∧
    random w' = random w ∧
    (∀ s, s ≠ split →
       cursor w' s = cursor w s ∧
       _prefetch_process (loader w') !! s = _prefetch_process (loader w) !! s) ∧
    (∀ x rest img,
       order w split = Some (x :: rest) →
       images (info (loader w)) !! x = Some img →
       ∃ wr w'',
         prefetch_get split w' = Ok ((example_of (loader w) x img, wr), w'')) ∧
    (∀ x rest b s d w'',
       order w split = Some (x :: rest) →
       get_batch split b s w' = Ok (d, w'') →
       ∃ inf infs, infos d = inf :: infs ∧ info_ix inf = x).
Proof.
  intros Hf.
  set (fresh := BlobFetcher__init__ split
                  (allow_shuffle (loader w) && bool_decide (split = "train"))).
  set (L' := set_iterators (<[split:=0%nat]> (iterators (loader w)))
               (set_prefetch_process
                  (<[split:=fresh]> (delete split (_prefetch_process (loader w))))
                  (loader w))).
  exists {| loader := L'; random := random w; files := files w |}.
  assert (_prefetch_process L' !! split = Some fresh) as Hfresh.
  { unfold L'. simpl. apply lookup_insert_eq. }
  assert (cursor {| loader := L'; random := random w; files := files w |} split = Some 0%nat)
    as Hcur.
  { unfold cursor, L'. simpl. apply lookup_insert_eq. }
  split_and!; try done.
  - unfold reset_iterator, mbind, M_bind, bind, gets. simpl. by rewrite Hf.
  - intros s Hs. unfold cursor, L'. simpl.
    by rewrite !lookup_insert_ne, lookup_delete_ne by done.
  - intros x rest img Hord Himg.
    destruct (prefetch_get_total split fresh
                {| loader := L'; random := random w; files := files w |} (x :: rest) 0%nat x img)
      as (wr & w'' & Hget); [done..|].
    exists wr, w''. exact Hget.
  - intros x rest b s d w'' Hord Hbatch.
    apply get_batch_Ok in Hbatch
      as (calls & tmp & _ & Hn & Hcalls & Hseq & _ & _ & _ & Hinfos & _).
    destruct calls as [|c calls]; [simpl in Hn; lia|].
    apply Forall_cons in Hcalls as [Hc _]. destruct Hseq as [Hbefore _].
    apply prefetch_get_Ok in Hc
      as (f0 & _ & l & ri & _ & _ & Hf0 & Hl & Hri & Hix & _).
    rewrite Hbefore in Hf0.
    assert (f0 = fresh) as -> by (cbn [loader] in Hf0; congruence).
    unfold order, cursor in Hl, Hri, Hcur, Hord. rewrite Hbefore in Hl, Hri.
    cbn [loader] in Hl, Hri, Hcur.
    assert (l = x :: rest) as -> by (exact (Some_inj _ _ (eq_trans (eq_sym Hl) Hord))).
    assert (ri = 0%nat) as -> by (exact (Some_inj _ _ (eq_trans (eq_sym Hri) Hcur))).
    destruct (infos d) as [|inf infs]; [done|].
    exists inf, infs. split; [done|].
    rewrite !fmap_cons in Hinfos. simpl in Hix, Hinfos. congruence.
Qed.

(** ** Images without captions *)

(** The constructor accepts a dataset whose first image has no caption. *)
Lemma zero_caption_dataset_accepted :
  ncap (loader bad_world) 0 = Some 0 ∧
  DataLoader__init__ demo_opt true demo_info bad_h5 = Ok (loader bad_world) ∧
  ∀ e, DataLoader__init__ demo_opt true demo_info bad_h5 ≠ Err e.
Proof. split_and!; [done | done | by intros e]. Qed.

Lemma get_batch_no_label split b s w ex wr w1 n :
  prefetch_get split w = Ok ((ex, wr), w1) →
  ncap (loader w) (ex_ix ex) = Some n → n ≤ 0 →
  1 ≤ py_or b (batch_size (loader w)) →
  0 ≤ py_or s (seq_per_img (loader w)) →
  get_batch split b s w = Err (AssertionError no_label_msg).
Proof.
  intros Hget Hcap Hn Hbs Hspi.
  pose proof (prefetch_get_static _ _ _ _ _ Hget) as (_ & _ & _ & Hh5).
  rewrite <-(ncap_h5 _ _ Hh5) in Hcap.
  unfold get_batch, mbind, M_bind. unfold bind at 1, gets at 1.
  set (bs := py_or b (batch_size (loader w))) in *.
  set (spi := py_or s (seq_per_img (loader w))) in *.
  unfold np_zeros at 1. rewrite decide_False by nia.
  unfold bind at 1, ret at 1. apply bind_Err.
  destruct (Z.to_nat bs) as [|k] eqn:Hk; [lia|].
  cbn [seq batch_loop]. apply bind_Err.
  unfold batch_body, mbind, M_bind.
  rewrite (bind_step _ _ _ _ _ Hget). apply bind_Err.
  by eapply get_sequence_no_label.
Qed.

(** ** Label rows of a batch *)

(** The rows of the label matrix behind the first [n], where [n] is the
    number of images of the batch, are blank. *)
Lemma labels_behind_batch_blank split b s w d w' i :
  get_batch split b s w = Ok (d, w') →
  (length (infos d) ≤ i < length (labels d))%nat →
  labels d !! i = Some (replicate (seq_length (loader w) + 2) 0).
Proof.
  intros (calls & tmp & _ & _ & _ & _ & _ & _ & _ & Hinfos & _ & _ & _ & _ & _
          & Hlen & Hrows & _)%get_batch_Ok Hi.
  simpl in *.
  assert (length (infos d) = length calls) as Hn.
  { by rewrite <-(length_fmap info_ix), Hinfos, length_fmap. }
  rewrite Hrows, decide_False by lia. apply lookup_replicate_2. lia.
Qed.

(** C1 at a failing input: a batch of one image with two caption rows.  The
    captions sampled for the image are [5 6] and [7 8], whatever the
    generator draws; the label matrix has the first at row 0 and a blank
    row 1. *)
Theorem labels_second_caption_lost :
  (∀ g fs, eval (_get_sequence 0 2)
             {| loader := demo_loader; random := g; files := fs |}
           = Ok [[5; 6]; [7; 8]]) ∧
  ∃ d, eval (get_batch "train" (Some 1) (Some 2)) demo_world = Ok d ∧
       info_ix <$> infos d = [0%nat] ∧
       labels d = [[0; 5; 6; 0]; [0; 0; 0; 0]].
Proof.
  split.
  - intros g fs. unfold eval, _get_sequence, mbind, M_bind, bind, gets. simpl.
    unfold lift_rng, randint. simpl. unfold bind, _randbelow, ret.
    reflexivity.
  - eexists. split; [vm_compute; reflexivity|]. by split.
Qed.

(** ** Batches are returned *)

Lemma image_ok_static L L' ix :
  info L' = info L → h5_label_file L' = h5_label_file L →
  image_ok L ix → image_ok L' ix.
Proof.
  unfold image_ok, caption_range_ok, label_start_ix, label_end_ix.
  by intros -> ->.
Qed.

Lemma split_ok_loader split w w' :
  loader w' = loader w → split_ok split w → split_ok split w'.
Proof.
  unfold split_ok, primed, order, cursor. by intros ->.
Qed.

Lemma split_ok_fetch_ok split w : split_ok split w → fetch_ok split w.
Proof.
  intros (f & l & c & Hf & Hkey & Hprimed & Hl & Hc & Hlt & Hok).
  exists f, l, c. split_and!; [done..|].
  eapply Forall_impl; [exact Hok|]. by intros ix [? _].
Qed.

(** A [get] on a split that is ready to be fetched from returns the image
    under the cursor and leaves the split so. *)
Lemma prefetch_get_fetch split w :
  fetch_ok split w →
  ∃ l c ix img wr w' l',
    order w split = Some l ∧
    cursor w split = Some c ∧
    l !! c = Some ix ∧
    images (info (loader w)) !! ix = Some img ∧
    prefetch_get split w = Ok ((example_of (loader w) ix img, wr), w') ∧
    wr = bool_decide (S c = length l) ∧
    order w' split = Some l' ∧
    l' ≡ₚ l ∧
    (wr = false → l' = l) ∧
    cursor w' split = Some (if wr then 0%nat else S c) ∧
    fetch_ok split w'.
Proof.
  intros (f & l & c & Hf & Hkey & Hprimed & Hl & Hc & Hlt & Hok).
  destruct (lookup_lt_is_Some_2 l c Hlt) as [ix Hix].
  pose proof (proj1 (Forall_lookup _ _) Hok c ix Hix) as [img Himg].
  rewrite <-Hkey in Hl, Hc.
  destruct (prefetch_get_total split f w l c ix img) as (wr & w1 & Hget);
    [done..|].
  pose proof (prefetch_get_static _ _ _ _ _ Hget) as (_ & _ & Hinfo & _).
  pose proof Hget as Hget0.
  apply prefetch_get_Ok in Hget
    as (f0 & f' & l0 & ri & l' & img0 & Hf0 & Hl0 & Hri & _ & Hwr & Hperm
        & Hsame & Hw1 & _ & _ & Hkey' & _ & Hpool).
  assert (f0 = f) as -> by congruence.
  assert (l0 = l) as -> by congruence.
  assert (ri = c) as -> by congruence.
  specialize (Hpool Hprimed). rewrite Hkey in *.
  assert (order w1 split = Some l') as Hord1.
  { unfold order. rewrite Hw1. simpl. apply lookup_insert_eq. }
  assert (cursor w1 split = Some (if wr then 0%nat else S c)) as Hcur1.
  { unfold cursor. rewrite Hw1. simpl. apply lookup_insert_eq. }
  assert (wr = false → l' = l) as Hkeep.
  { intros ->. by apply Hsame. }
  exists l, c, ix, img, wr, w1, l'.
  split_and!; [done..| |done|done|done|done|].
  { rewrite Hwr. apply bool_decide_ext. lia. }
  exists f', l', (if wr then 0%nat else S c). split_and!.
  - rewrite Hw1. simpl. apply lookup_insert_eq.
  - done.
  - unfold primed. rewrite Hpool, Hkey'. exists l', (if wr then 0%nat else S c).
    split_and!; [done..|]. destruct wr; [done|]. by rewrite Hkeep.
  - done.
  - done.
  - rewrite (Permutation_length Hperm). destruct wr; [lia|].
    symmetry in Hwr. apply bool_decide_eq_false in Hwr. lia.
  - rewrite Hperm, Hinfo. done.
Qed.

(** A [get] on a ready split returns and leaves the split ready. *)
Lemma prefetch_get_ready split w :
  split_ok split w →
  ∃ ex wr w1,
    prefetch_get split w = Ok ((ex, wr), w1) ∧
    split_ok split w1 ∧
    image_ok (loader w) (ex_ix ex) ∧
    info (loader w1) = info (loader w) ∧
    h5_label_file (loader w1) = h5_label_file (loader w).
Proof.
  intros (f & l & c & Hf & Hkey & Hprimed & Hl & Hc & Hlt & Hok).
  destruct (lookup_lt_is_Some_2 l c Hlt) as [ix Hix].
  pose proof (proj1 (Forall_lookup _ _) Hok c ix Hix) as Hix_ok.
  pose proof Hix_ok as [[img Himg] Hrange].
  rewrite <-Hkey in Hl, Hc.
  destruct (prefetch_get_total split f w l c ix img) as (wr & w1 & Hget);
    [done..|].
  exists (example_of (loader w) ix img), wr, w1.
  pose proof (prefetch_get_static _ _ _ _ _ Hget) as (_ & _ & Hinfo & Hh5).
  split_and!;
    [done| |by unfold example_of; rewrite ex_ix_get_npy_data|done|done].
  apply prefetch_get_Ok in Hget
    as (f0 & f' & l0 & ri & l' & img0 & Hf0 & Hl0 & Hri & _ & Hwr & Hperm
        & Hsame & Hw1 & _ & _ & Hkey' & _ & Hpool).
  assert (f0 = f) as -> by congruence.
  assert (l0 = l) as -> by congruence.
  assert (ri = c) as -> by congruence.
  specialize (Hpool Hprimed). rewrite Hkey in *.
  assert (order w1 split = Some l') as Hord1.
  { unfold order. rewrite Hw1. simpl. apply lookup_insert_eq. }
  assert (cursor w1 split = Some (if wr then 0%nat else S c)) as Hcur1.
  { unfold cursor. rewrite Hw1. simpl. apply lookup_insert_eq. }
  assert (wr = false → l' = l) as Hkeep.
  { intros ->. by apply Hsame. }
  exists f', l', (if wr then 0%nat else S c). split_and!.
  - rewrite Hw1. simpl. apply lookup_insert_eq.
  - done.
  - unfold primed. rewrite Hpool, Hkey'. exists l', (if wr then 0%nat else S c).
    split_and!; [done..|]. destruct wr; [done|]. by rewrite Hkeep.
  - done.
  - done.
  - rewrite (Permutation_length Hperm). destruct wr; [lia|].
    symmetry in Hwr. apply bool_decide_eq_false in Hwr. lia.
  - rewrite Hperm. eapply Forall_impl; [exact Hok|].
    intros i. by apply image_ok_static.
Qed.

Lemma get_sequence_total ix spi w :
  caption_range_ok (loader w) ix → 1 ≤ spi →
  ∃ sq w',
    _get_sequence ix spi w = Ok (sq, w') ∧
    loader w' = loader w ∧
    length sq = Z.to_nat spi.
Proof.
  intros (s & e & Hs & He & H1 & Hse & Hetab) Hspi.
  destruct (get_sequence_spec w ix spi s e) as (sq & w' & ? & ? & _ & ? & _);
    [done..|lia|done|].
  by exists sq, w'.
Qed.

Lemma assign_block_total {S} (m : matrix) (i : nat) (spi : Z) src (s : S) :
  1 ≤ spi →
  length src = Z.to_nat spi →
  (Z.of_nat i + 1) * spi ≤ Z.of_nat (length m) →
  ∃ m', assign_block m (Z.of_nat i * spi) ((Z.of_nat i + 1) * spi) 1 src s
        = Ok (m', s).
Proof.
  intros Hspi Hsrc Hfit. unfold assign_block, py_slice_bound.
  rewrite !(decide_False (P := _ < 0)) by nia.
  rewrite decide_True; [by eexists|]. rewrite Hsrc. nia.
Qed.

(** One pass of the fetch loop on a ready split returns. *)
Lemma batch_body_total split spi i acc w :
  split_ok split w → 1 ≤ spi →
  (Z.of_nat i + 1) * spi ≤ Z.of_nat (length (tmp_label_batch acc)) →
  ∃ acc' wr w',
    batch_body split spi i acc w = Ok ((acc', wr), w') ∧
    split_ok split w' ∧
    length (tmp_label_batch acc') = length (tmp_label_batch acc).
Proof.
  intros Hok Hspi Hfit.
  destruct (prefetch_get_ready split w Hok)
    as (ex & wr & w1 & Hget & Hok1 & [[img Himg] Hrange] & Hinfo & Hh5).
  assert (caption_range_ok (loader w1) (ex_ix ex)) as Hrange1.
  { unfold caption_range_ok, label_start_ix, label_end_ix in *.
    by rewrite Hh5. }
  destruct (get_sequence_total (ex_ix ex) spi w1 Hrange1 Hspi)
    as (sq & w2 & Hseq & Hld & Hlen).
  destruct (assign_block_total (tmp_label_batch acc) i spi sq w2 Hspi Hlen Hfit)
    as (tmp & Hblock).
  destruct Hrange1 as (s & e & Hs & He & _).
  unfold batch_body, mbind, M_bind.
  rewrite (bind_step _ _ _ _ _ Hget), (bind_step _ _ _ _ _ Hseq),
    (bind_step _ _ _ _ _ Hblock).
  unfold bind at 1, gets at 1. rewrite Hld, Hs. unfold bind at 1. simpl.
  rewrite He. unfold bind at 1. simpl.
  unfold _make_info_dict, mbind, M_bind, bind, gets. simpl.
  rewrite Hld, Hinfo, Himg. simpl. unfold ret.
  eexists _, _, _. split; [reflexivity|]. simpl. split.
  - by apply (split_ok_loader split w1).
  - pose proof (get_sequence_Ok _ _ _ _ _ Hseq) as (_ & Hwidth & _).
    by destruct (assign_block_Ok _ _ _ _ _ _ _ _ Hblock Hwidth) as (_ & ? & _).
Qed.

Lemma batch_loop_total split spi : ∀ n i0 acc w,
  split_ok split w → 1 ≤ spi →
  (Z.of_nat (i0 + n)) * spi ≤ Z.of_nat (length (tmp_label_batch acc)) →
  ∃ acc' w', batch_loop split spi (seq i0 n) acc w = Ok (acc', w') ∧
             split_ok split w'.
Proof.
  induction n as [|n IH]; intros i0 acc w Hok Hspi Hfit.
  - by exists acc, w.
  - destruct (batch_body_total split spi i0 acc w Hok Hspi)
      as (acc1 & wr & w1 & Hbody & Hok1 & Hlen); [nia|].
    cbn [seq batch_loop]. unfold mbind, M_bind.
    rewrite (bind_step _ _ _ _ _ Hbody). destruct wr.
    + by eexists _, _.
    + apply IH; [done..|]. rewrite Hlen. nia.
Qed.

Lemma copy_rows_total {S} src (s : S) : ∀ idxs dst,
  Forall (λ i, i < length src ∧ i < length dst)%nat idxs →
  ∃ m, copy_rows idxs dst src s = Ok (m, s).
Proof.
  induction idxs as [|i idxs IH]; intros dst Hall.
  - by exists dst.
  - apply Forall_cons in Hall as [[Hsrc Hdst] Hall].
    destruct (lookup_lt_is_Some_2 src i Hsrc) as [r Hr].
    cbn [copy_rows]. unfold mbind, M_bind, bind. rewrite Hr. simpl.
    rewrite decide_True by done. apply IH.
    eapply Forall_impl; [exact Hall|]. intros j. rewrite length_insert. done.
Qed.

Lemma flat_map_replicate_nonempty {A B} (f : A → B) n (l : list A) :
  l ≠ [] → n ≠ 0%nat → flat_map (λ c, replicate n (f c)) l ≠ [].
Proof. destruct l; [done|]. destruct n; [done|]. done. Qed.

Lemma example_of_static L L' :
  opt L' = opt L → example_of L' = example_of L.
Proof. unfold example_of, use_att. by intros ->. Qed.

(** The examples of the calls of a batch are those of images of the split. *)
Lemma calls_examples split L0 l : ∀ calls L,
  (∃ f, _prefetch_process L !! split = Some f ∧ bf_split f = split) →
  (∃ l0, split_ix L !! split = Some l0 ∧ l0 ≡ₚ l) →
  opt L = opt L0 → info L = info L0 →
  Forall (is_get_call split) calls →
  sequential L calls →
  Forall (λ c, ∃ ix img,
            ix ∈ l ∧ images (info L0) !! ix = Some img ∧
            got c = example_of L0 ix img) calls.
Proof.
  induction calls as [|c0 rest IH];
    intros L (f & Hf & Hkey) (l0 & Hl0 & Hp0) Hopt Hinfo Hcalls Hseq; [done|].
  apply Forall_cons in Hcalls as [Hc0 Hrest]. destruct Hseq as [Hbefore Hseq].
  pose proof (prefetch_get_static _ _ _ _ _ Hc0) as (Hopt' & _ & Hinfo' & _).
  apply prefetch_get_Ok in Hc0
    as (f0 & f' & l1 & ri & l' & img & Hf0 & Hl1 & _ & Hix & _ & Hperm
        & _ & Hafter & Himg & Hex & Hkey' & _).
  unfold order in Hl1. rewrite Hbefore in Hf0, Hl1, Himg, Hex, Hafter, Hopt', Hinfo'.
  assert (f0 = f) as -> by congruence. rewrite Hkey in *.
  assert (l1 = l0) as -> by congruence.
  constructor.
  - exists (ex_ix (got c0)), img. split_and!.
    + rewrite <-Hp0. by eapply list_elem_of_lookup_2.
    + by rewrite <-Hinfo.
    + rewrite (example_of_static L L0) by done. exact Hex.
  - apply (IH (loader (after c0))); [| |congruence|congruence|done|done].
    + exists f'. split; [|done]. rewrite Hafter. simpl. apply lookup_insert_eq.
    + exists l'. split; [|by rewrite Hperm].
      rewrite Hafter. simpl. apply lookup_insert_eq.
Qed.

(** The calls of a batch leave the options and the records of the loader,
    and permute the order of the split. *)
Lemma calls_static split : ∀ calls L f l,
  Forall (is_get_call split) calls →
  sequential L calls →
  _prefetch_process L !! split = Some f →
  bf_split f = split →
  split_ix L !! split = Some l →
  opt (loader_after L calls) = opt L ∧
  info (loader_after L calls) = info L ∧
  ∃ l', split_ix (loader_after L calls) !! split = Some l' ∧ l' ≡ₚ l.
Proof.
  induction calls as [|c0 rest IH]; intros L f l Hcalls Hseq Hf Hkey Hl.
  { by eauto. }
  apply Forall_cons in Hcalls as [Hc0 Hrest]. destruct Hseq as [Hbefore Hseq].
  pose proof (prefetch_get_static _ _ _ _ _ Hc0) as (Hopt' & _ & Hinfo' & _).
  apply prefetch_get_Ok in Hc0
    as (f0 & f' & l1 & ri & l' & img & Hf0 & Hl1 & _ & _ & _ & Hperm
        & _ & Hw1 & _ & _ & Hkey' & _).
  unfold order in Hl1. rewrite Hbefore in Hf0, Hl1, Hw1, Hopt', Hinfo'.
  assert (f0 = f) as -> by congruence. rewrite Hkey in *.
  assert (l1 = l) as -> by congruence.
  rewrite loader_after_cons.
  destruct (IH (loader (after c0)) f' l') as (Ho & Hi & l'' & Hl'' & Hp'').
  - done.
  - done.
  - rewrite Hw1. simpl. apply lookup_insert_eq.
  - congruence.
  - rewrite Hw1. simpl. apply lookup_insert_eq.
  - split_and!; [congruence|congruence|].
    exists l''. split; [done|]. by rewrite Hp''.
Qed.

(** The stacked features of a batch of a split whose arrays can be stacked
    have one shape. *)
Lemma calls_stack (w w2 : World) (spi : Z) (calls : list GetCall)
    (proj : Example → Feat) sh :
  files w2 = files w →
  (∀ c, c ∈ calls → feat_shape w (proj (got c)) = sh) →
  ∀ x y,
    x ∈ flat_map (λ c, replicate (Z.to_nat spi) (proj (got c))) calls →
    y ∈ flat_map (λ c, replicate (Z.to_nat spi) (proj (got c))) calls →
    feat_shape w2 x = feat_shape w2 y.
Proof.
  intros Hfiles Hsh.
  assert (∀ x, feat_shape w2 x = feat_shape w x) as Hfs.
  { intros x. unfold feat_shape. by rewrite Hfiles. }
  assert (∀ x, x ∈ flat_map (λ c, replicate (Z.to_nat spi) (proj (got c))) calls →
               feat_shape w x = sh) as Hone.
  { intros x (c & Hc & Hx)%list_elem_of_In%in_flat_map.
    apply list_elem_of_In, elem_of_replicate in Hx as [-> _].
    apply Hsh. by apply list_elem_of_In. }
  intros x y Hx Hy. by rewrite !Hfs, (Hone x Hx), (Hone y Hy).
Qed.

Lemma stackable_static split w w' l l' :
  files w' = files w → opt (loader w') = opt (loader w) →
  info (loader w') = info (loader w) →
  order w split = Some l → order w' split = Some l' → l' ≡ₚ l →
  stackable split w → stackable split w'.
Proof.
  intros Hfiles Hopt Hinfo Hl Hl' Hperm (sfc & satt & Hst).
  exists sfc, satt. intros l0 ix img Hl0 Hix Himg.
  assert (l0 = l') as -> by congruence.
  rewrite (example_of_static (loader w) (loader w') Hopt).
  assert (∀ x, feat_shape w' x = feat_shape w x) as Hfs.
  { intros x. unfold feat_shape. by rewrite Hfiles. }
  rewrite !Hfs. apply (Hst l); [done| |by rewrite <-Hinfo].
  by rewrite <-Hperm.
Qed.

(** On a ready split whose feature arrays can be stacked, with at least one
    image and one caption row asked for, [get_batch] returns a batch and
    leaves the split so. *)
Lemma get_batch_total split b s w :
  split_ok split w →
  stackable split w →
  1 ≤ py_or b (batch_size (loader w)) →
  1 ≤ py_or s (seq_per_img (loader w)) →
  ∃ d w', get_batch split b s w = Ok (d, w') ∧ split_ok split w' ∧
          stackable split w'.
Proof.
  intros Hok Hst Hbs Hspi.
  unfold get_batch, mbind, M_bind. unfold bind at 1, gets at 1.
  set (bs := py_or b (batch_size (loader w))) in *.
  set (spi := py_or s (seq_per_img (loader w))) in *.
  set (wd := seq_length (loader w)).
  unfold np_zeros at 1. rewrite decide_False by nia.
  unfold bind at 1, ret at 1.
  set (acc0 := {| fc_batch := []; att_batch := [];
                  tmp_label_batch := replicate (Z.to_nat (bs * spi)) (replicate (wd + 2) 0);
                  acc_infos := []; acc_gts := []; acc_wrapped := false;
                  acc_i := 0 |}).
  destruct (batch_loop_total split spi (Z.to_nat bs) 0 acc0 w Hok Hspi)
    as (acc & w2 & Hloop & Hok2).
  { simpl. rewrite length_replicate. nia. }
  rewrite (bind_step _ _ _ _ _ Hloop).
  pose proof (batch_loop_files _ _ _ _ _ _ _ Hloop) as Hfiles.
  apply batch_loop_Ok in Hloop
    as (calls & Hcalls & Hseq & Hafter & Hn & Hne & _ & _ & Hlast & _ & Hfc
        & Hatt & _ & Htmp & _).
  simpl in Hfc, Hatt, Htmp. rewrite length_replicate in Htmp.
  assert (calls ≠ []) as Hcne by (apply Hne; lia).
  destruct (last calls) as [cl|] eqn:Hcl; [|by apply last_None in Hcl].
  destruct (Hlast cl eq_refl) as (_ & _ & Hi).
  assert (length calls ≠ 0)%nat as Hlen0 by (by destruct calls).
  assert (acc_i acc + 1 = length calls)%nat as -> by lia.
  unfold np_zeros. rewrite !decide_False by nia.
  unfold bind at 1, ret at 1.
  destruct (copy_rows_total (tmp_label_batch acc) w2 (seq 0 (length calls))
              (replicate (Z.to_nat (Z.of_nat (length calls) * spi))
                 (replicate (wd + 2) 0))) as (label_batch & Hcopy).
  { apply Forall_forall. intros i Hi'%elem_of_seq.
    rewrite Htmp, length_replicate. nia. }
  rewrite (bind_step _ _ _ _ _ Hcopy). unfold bind at 1, ret at 1.
  unfold bind at 1, gets at 1.
  (* the features can be stacked *)
  pose proof Hok as (f & l & c & Hf & Hkey & _ & Hl & _).
  destruct Hst as (sfc & satt & Hst).
  pose proof (calls_examples split (loader w) l calls (loader w)
                ltac:(by exists f) ltac:(by exists l) eq_refl eq_refl
                Hcalls Hseq) as Hex.
  assert (∀ c0, c0 ∈ calls →
            feat_shape w (ex_fc (got c0)) = sfc ∧
            feat_shape w (ex_att (got c0)) = satt) as Hshapes.
  { intros c0 Hc0.
    destruct (proj1 (Forall_forall _ _) Hex c0 Hc0) as (ix & img & Hix & Himg & ->).
    by apply (Hst l). }
  assert (np_stack (feat_shape w2) (fc_batch acc) w2 = Ok (fc_batch acc, w2))
    as Hstack1.
  { apply np_stack_total.
    - rewrite Hfc. apply (flat_map_replicate_nonempty (ex_fc ∘ got)); [done|lia].
    - rewrite Hfc. apply (calls_stack w w2 spi calls ex_fc sfc); [done|].
      intros c0 Hc0. by apply Hshapes. }
  assert (np_stack (feat_shape w2) (att_batch acc) w2 = Ok (att_batch acc, w2))
    as Hstack2.
  { apply np_stack_total.
    - rewrite Hatt. apply (flat_map_replicate_nonempty (ex_att ∘ got)); [done|lia].
    - rewrite Hatt. apply (calls_stack w w2 spi calls ex_att satt); [done|].
      intros c0 Hc0. by apply Hshapes. }
  rewrite (bind_step _ _ _ _ _ Hstack1), (bind_step _ _ _ _ _ Hstack2).
  unfold bind at 1, gets at 1.
  pose proof Hok2 as (f2 & l2 & c2 & _ & _ & _ & Hl2 & Hc2 & _).
  unfold order, cursor in Hl2, Hc2. rewrite Hc2. unfold bind at 1. simpl.
  rewrite Hl2. unfold bind at 1. simpl.
  eexists _, _. split; [reflexivity|]. split; [exact Hok2|].
  (* and the split stays stackable *)
  assert (opt (loader w2) = opt (loader w) ∧ info (loader w2) = info (loader w)
          ∧ ∃ l', split_ix (loader w2) !! split = Some l' ∧ l' ≡ₚ l)
    as (Hopt & Hinfo & l' & Hl' & Hperm).
  { rewrite Hafter. by apply (calls_static split calls (loader w) f l). }
  apply (stackable_static split w w2 l l'); [done..|].
  by exists sfc, satt.
Qed.

(** A freshly constructed loader on a well-formed dataset is ready on each
    of its nonempty splits. *)
Lemma init_split_ok o sh inf h5 L g fs split :
  DataLoader__init__ o sh inf h5 = Ok L →
  split = "train" ∨ split = "val" ∨ split = "test" →
  dataset_ok L →
  split_ix L !! split ≠ Some [] →
  split_ok split {| loader := L; random := g; files := fs |}.
Proof.
  intros Hinit Hsplit Hdata Hne.
  set (its := <["train":=0%nat]> (<["val":=0%nat]> (<["test":=0%nat]> ∅))
         : gmap string nat).
  assert (info L = inf) as Hinfo by (by injection Hinit as <-).
  assert (split_ix L = split_loop (opt_train_only o) 0 (images inf) empty_splits)
    as Hsix by (by injection Hinit as <-).
  assert (iterators L = its) as Hits by (by injection Hinit as <-).
  assert (_prefetch_process L
          = map_imap (λ split (_ : nat),
              Some (BlobFetcher__init__ split (sh && bool_decide (split = "train"))))
              its) as Hpre by (by injection Hinit as <-).
  clear Hinit.
  destruct (split_loop_spec (opt_train_only o) (images inf) 0 empty_splits [] [] [])
    as (Htr & Hva & Hte); [done..|].
  simpl in Htr, Hva, Hte. rewrite <-Hsix in Htr, Hva, Hte.
  assert (∀ P (HP : ∀ x, Decision (P x)),
            Forall (image_ok L) (indices_from P 0 (images inf))) as Himgs.
  { intros P HP. apply Forall_forall. intros ix Hix.
    apply elem_of_indices_from in Hix as (k & img & -> & Hk & _). simpl.
    split; [rewrite Hinfo; by exists img|]. apply Hdata.
    rewrite Hinfo. by eapply lookup_lt_Some. }
  assert (∀ s, its !! s = Some 0%nat →
            _prefetch_process L !! s
            = Some (BlobFetcher__init__ s (sh && bool_decide (s = "train"))))
    as Hfetch.
  { intros s Hs. by rewrite Hpre, map_lookup_imap, Hs. }
  assert (∀ l : list nat, l ≠ [] → (0 < length l)%nat) as Hpos.
  { clear. intros [|??] ?; [congruence | simpl; lia]. }
  unfold split_ok, primed, order, cursor. cbn [loader]. rewrite Hits.
  destruct Hsplit as [->|[->| ->]].
  - eexists _, _, 0%nat. split_and!;
      [by apply Hfetch | done | done | exact Htr | done | | apply Himgs].
    apply Hpos. intros E. apply Hne. by rewrite Htr, E.
  - eexists _, _, 0%nat. split_and!;
      [by apply Hfetch | done | done | exact Hva | done | | apply Himgs].
    apply Hpos. intros E. apply Hne. by rewrite Hva, E.
  - eexists _, _, 0%nat. split_and!;
      [by apply Hfetch | done | done | exact Hte | done | | apply Himgs].
    apply Hpos. intros E. apply Hne. by rewrite Hte, E.
Qed.

(** [reset_iterator] leaves a ready split ready. *)
Lemma reset_iterator_ready split w w' :
  split_ok split w →
  reset_iterator split w = Ok (tt, w') →
  split_ok split w'.
Proof.
  intros (f & l & c & Hf & _ & _ & Hl & _ & Hlt & Himgs).
  unfold reset_iterator, mbind, M_bind, bind, gets. simpl.
  rewrite Hf. simpl. intros [= <-].
  unfold split_ok, primed, order, cursor in *. simpl.
  eexists _, l, 0%nat. rewrite !lookup_insert_eq.
  split_and!; [done..| lia |done].
Qed.

(** ** The calls of a batch follow the order of the split *)

Lemma calls_follow_order split l : ∀ calls L c,
  (∃ f, _prefetch_process L !! split = Some f ∧ bf_split f = split) →
  split_ix L !! split = Some l →
  iterators L !! split = Some c →
  Forall (is_get_call split) calls →
  sequential L calls →
  (∀ i c0, calls !! i = Some c0 → (S i < length calls)%nat → flag c0 = false) →
  calls ≠ [] →
  (ex_ix ∘ got) <$> calls = take (length calls) (drop c l) ∧
  (c + length calls ≤ length l)%nat ∧
  (∀ cl, last calls = Some cl →
     flag cl = bool_decide (c + length calls = length l)%nat) ∧
  iterators (loader_after L calls) !! split
    = Some ((c + length calls) `mod` length l)%nat ∧
  ∃ l', split_ix (loader_after L calls) !! split = Some l' ∧ l' ≡ₚ l.
Proof.
  induction calls as [|c0 rest IH]; intros L c (f & Hf & Hkey) Hl Hc Hcalls Hseq
    Hflags Hne; [done|].
  apply Forall_cons in Hcalls as [Hc0 Hrest]. destruct Hseq as [Hbefore Hseq].
  apply prefetch_get_Ok in Hc0
    as (f0 & f' & l0 & ri & l' & img & Hf0 & Hl0 & Hri & Hix & Hwr & Hperm
        & Hsame & Hafter & _ & _ & Hkey' & _).
  unfold order, cursor in Hl0, Hri. rewrite Hbefore in Hf0, Hl0, Hri, Hafter.
  assert (f0 = f) as -> by congruence. rewrite Hkey in *.
  assert (l0 = l) as -> by congruence.
  assert (ri = c) as -> by congruence.
  pose proof (lookup_lt_Some _ _ _ Hix) as Hlt.
  assert (split_ix (loader (after c0)) !! split = Some l') as Hl1.
  { rewrite Hafter. simpl. apply lookup_insert_eq. }
  assert (iterators (loader (after c0)) !! split
          = Some (if flag c0 then 0%nat else S c)) as Hc1.
  { rewrite Hafter. simpl. apply lookup_insert_eq. }
  rewrite loader_after_cons.
  destruct rest as [|c1 rest].
  - (* the last call *)
    unfold loader_after. simpl. rewrite (drop_S _ _ _ Hix). simpl.
    rewrite take_0. split_and!; [done | lia | | | by exists l'].
    + intros cl [= <-]. rewrite Hwr.
      apply bool_decide_ext. lia.
    + rewrite Hc1, Hwr. f_equal. case_bool_decide.
      * replace (c + 1)%nat with (length l) by lia.
        by rewrite Nat.Div0.mod_same.
      * rewrite Nat.mod_small by lia. lia.
  - (* a call that is followed by another did not wrap *)
    assert (flag c0 = false) as Hnowrap
      by (apply (Hflags 0%nat); [done | simpl; lia]).
    rewrite Hnowrap in *.
    symmetry in Hwr. apply bool_decide_eq_false in Hwr.
    assert (l' = l) as -> by (by apply Hsame).
    destruct (IH (loader (after c0)) (S c)) as (Hixs & Hfit & Hlast & Hcur & Hord);
      [ exists f'; split; [rewrite Hafter; simpl; apply lookup_insert_eq | done]
      | done | done | done | done | | done | ].
    { intros i c' Hi Hlt'. apply (Hflags (S i) c' Hi). simpl in *. lia. }
    split_and!.
    + rewrite fmap_cons, Hixs. cbn [length]. rewrite (drop_S _ _ _ Hix).
      done.
    + cbn [length] in *. lia.
    + intros cl Hcl. rewrite last_cons_cons in Hcl.
      rewrite (Hlast cl Hcl). apply bool_decide_ext. cbn [length]. lia.
    + rewrite Hcur. do 2 f_equal. cbn [length]. lia.
    + done.
Qed.

(** ** Images without captions, later in a batch *)

(** One pass of the fetch loop on a split that is ready to be fetched from,
    for an image with a valid caption range. *)
Lemma batch_body_fetch split spi i acc w l c ix :
  fetch_ok split w →
  order w split = Some l →
  cursor w split = Some c →
  l !! c = Some ix →
  caption_range_ok (loader w) ix →
  1 ≤ spi →
  (Z.of_nat i + 1) * spi ≤ Z.of_nat (length (tmp_label_batch acc)) →
  ∃ acc' w',
    batch_body split spi i acc w
      = Ok ((acc', bool_decide (S c = length l)), w') ∧
    fetch_ok split w' ∧
    (S c ≠ length l → order w' split = Some l ∧ cursor w' split = Some (S c)) ∧
    length (tmp_label_batch acc') = length (tmp_label_batch acc) ∧
    info (loader w') = info (loader w) ∧
    h5_label_file (loader w') = h5_label_file (loader w).
Proof.
  intros Hok Hl Hc Hix Hrange Hspi Hfit.
  destruct (prefetch_get_fetch split w Hok)
    as (l0 & c0 & ix0 & img & wr & w1 & l' & Hl0 & Hc0 & Hix0 & Himg & Hget
        & Hwr & Hl' & _ & Hkeep & Hc' & Hok1).
  assert (l0 = l) as -> by congruence. assert (c0 = c) as -> by congruence.
  assert (ix0 = ix) as -> by congruence.
  pose proof (prefetch_get_static _ _ _ _ _ Hget) as (_ & _ & Hinfo & Hh5).
  assert (caption_range_ok (loader w1) ix) as Hrange1.
  { unfold caption_range_ok, label_start_ix, label_end_ix in *.
    by rewrite Hh5. }
  destruct (get_sequence_total ix spi w1 Hrange1 Hspi)
    as (sq & w2 & Hseq & Hld & Hlen).
  destruct (assign_block_total (tmp_label_batch acc) i spi sq w2 Hspi Hlen Hfit)
    as (tmp & Hblock).
  destruct Hrange1 as (s & e & Hs & He & _).
  assert (ex_ix (example_of (loader w) ix img) = ix) as Hexix
    by apply ex_ix_get_npy_data.
  unfold batch_body, mbind, M_bind.
  rewrite (bind_step _ _ _ _ _ Hget). rewrite Hexix.
  rewrite (bind_step _ _ _ _ _ Hseq), (bind_step _ _ _ _ _ Hblock).
  unfold bind at 1, gets at 1. rewrite Hld, Hs. unfold bind at 1. simpl.
  rewrite He. unfold bind at 1. simpl.
  unfold _make_info_dict, mbind, M_bind, bind, gets. simpl.
  rewrite Hld, Hinfo, Himg. simpl. unfold ret. rewrite <-Hwr.
  eexists _, _. split; [reflexivity|]. simpl.
  assert (fetch_ok split w2) as Hok2.
  { unfold fetch_ok, primed, order, cursor in *. by rewrite Hld. }
  split_and!; [done| | |by rewrite Hld|by rewrite Hld].
  - intros Hne. assert (wr = false) as ->.
    { rewrite Hwr. by apply bool_decide_eq_false_2. }
    unfold order, cursor in *. rewrite Hld. split; [|done].
    by rewrite Hl', (Hkeep eq_refl).
  - pose proof (get_sequence_Ok _ _ _ _ _ Hseq) as (_ & Hwidth & _).
    by destruct (assign_block_Ok _ _ _ _ _ _ _ _ Hblock Hwidth) as (_ & ? & _).
Qed.

(** The fetch loop fails with the assertion error at the first image
    without captions, when the images in front of it are well formed. *)
Lemma batch_loop_no_label split spi l : ∀ k n i0 acc w c ix nc,
  fetch_ok split w →
  order w split = Some l →
  cursor w split = Some c →
  1 ≤ spi →
  Z.of_nat (i0 + k) * spi ≤ Z.of_nat (length (tmp_label_batch acc)) →
  (k < n)%nat →
  (∀ j ixj, (j < k)%nat → l !! (c + j)%nat = Some ixj →
     caption_range_ok (loader w) ixj) →
  l !! (c + k)%nat = Some ix →
  ncap (loader w) ix = Some nc → nc ≤ 0 →
  batch_loop split spi (seq i0 n) acc w = Err (AssertionError no_label_msg).
Proof.
  induction k as [|k IH]; intros n i0 acc w c ix nc Hok Hl Hc Hspi Hfit Hkn
    Hfront Hix Hcap Hnc.
  - destruct n as [|n]; [lia|]. cbn [seq batch_loop]. apply bind_Err.
    rewrite Nat.add_0_r in Hix.
    destruct (prefetch_get_fetch split w Hok)
      as (l0 & c0 & ix0 & img & wr & w1 & l' & Hl0 & Hc0 & Hix0 & Himg & Hget
          & _).
    assert (l0 = l) as -> by congruence. assert (c0 = c) as -> by congruence.
    assert (ix0 = ix) as -> by congruence.
    pose proof (prefetch_get_static _ _ _ _ _ Hget) as (_ & _ & _ & Hh5).
    unfold batch_body, mbind, M_bind.
    rewrite (bind_step _ _ _ _ _ Hget). apply bind_Err.
    unfold example_of. rewrite ex_ix_get_npy_data.
    apply (get_sequence_no_label ix spi w1 nc); [|done].
    by rewrite (ncap_h5 _ _ Hh5).
  - destruct n as [|n]; [lia|]. cbn [seq batch_loop].
    pose proof (lookup_lt_Some _ _ _ Hix) as Hlt.
    destruct (lookup_lt_is_Some_2 l c ltac:(lia)) as [ix0 Hix0].
    destruct (batch_body_fetch split spi i0 acc w l c ix0)
      as (acc1 & w1 & Hbody & Hok1 & Hnext & Hlen & Hinfo & Hh5);
      [done..| |done|nia|].
    { apply (Hfront 0%nat); [lia|]. by rewrite Nat.add_0_r. }
    destruct Hnext as [Hl1 Hc1]; [lia|].
    unfold mbind, M_bind. rewrite (bind_step _ _ _ _ _ Hbody).
    rewrite bool_decide_eq_false_2 by lia.
    apply (IH n (S i0) acc1 w1 (S c) ix nc); [done..| | | | | |done].
    + rewrite Hlen. nia.
    + lia.
    + intros j ixj Hj Hlj.
      assert (caption_range_ok (loader w) ixj) as Hr.
      { apply (Hfront (S j)); [lia|]. rewrite <-Hlj. f_equal. lia. }
      unfold caption_range_ok, label_start_ix, label_end_ix in *.
      by rewrite Hh5.
    + rewrite <-Hix. f_equal. lia.
    + by rewrite (ncap_h5 _ _ Hh5).
Qed.

Lemma get_batch_late_no_label split b s w l c k ix n :
  fetch_ok split w →
  order w split = Some l →
  cursor w split = Some c →
  (k < Z.to_nat (py_or b (batch_size (loader w))))%nat →
  1 ≤ py_or s (seq_per_img (loader w)) →
  (∀ j ixj, (j < k)%nat → l !! (c + j)%nat = Some ixj →
     caption_range_ok (loader w) ixj) →
  l !! (c + k)%nat = Some ix →
  ncap (loader w) ix = Some n → n ≤ 0 →
  get_batch split b s w = Err (AssertionError no_label_msg).
Proof.
  intros Hok Hl Hc Hk Hspi Hfront Hix Hcap Hn.
  unfold get_batch, mbind, M_bind. unfold bind at 1, gets at 1.
  set (bs := py_or b (batch_size (loader w))) in *.
  set (spi := py_or s (seq_per_img (loader w))) in *.
  unfold np_zeros at 1. rewrite decide_False by nia.
  unfold bind at 1, ret at 1. apply bind_Err.
  apply (batch_loop_no_label split spi l k _ 0 _ w c ix n); try done.
  simpl. rewrite length_replicate. nia.
Qed.

(** C9, as the code has it: the constructor accepts every dataset, also one
    with an image without captions; retrieving the captions of an image whose
    caption count is not positive fails with the assertion error; a
    [get_batch] that fetches such an image fails with that error, be the
    image the first it fetches or a later one behind well-formed images of
    the split; and no returned batch holds such an image. *)
Theorem zero_captions_fail_at_retrieval :
  (∀ o sh inf h5, ∃ L, DataLoader__init__ o sh inf h5 = Ok L ∧
     h5_label_file L = h5) ∧
  (∀ w ix spi n,
     ncap (loader w) ix = Some n → n ≤ 0 →
     _get_sequence ix spi w = Err (AssertionError no_label_msg)) ∧
  (∀ split b s w ex wr w1 n,
     prefetch_get split w = Ok ((ex, wr), w1) →
     ncap (loader w) (ex_ix ex) = Some n → n ≤ 0 →
     1 ≤ py_or b (batch_size (loader w)) →
     0 ≤ py_or s (seq_per_img (loader w)) →
     get_batch split b s w = Err (AssertionError no_label_msg)) ∧
  (∀ split b s w l c k ix n,
     fetch_ok split w →
     order w split = Some l →
     cursor w split = Some c →
     (k < Z.to_nat (py_or b (batch_size (loader w))))%nat →
     1 ≤ py_or s (seq_per_img (loader w)) →
     (∀ j ixj, (j < k)%nat → l !! (c + j)%nat = Some ixj →
        caption_range_ok (loader w) ixj) →
     l !! (c + k)%nat = Some ix →
     ncap (loader w) ix = Some n → n ≤ 0 →
     get_batch split b s w = Err (AssertionError no_label_msg)) ∧
  (∀ split b s w d w',
     get_batch split b s w = Ok (d, w') →
     ∀ inf, inf ∈ infos d →
       ∃ n, ncap (loader w) (info_ix inf) = Some n ∧ 0 < n).
Proof.
  split_and!.
  - intros o sh inf h5. by eexists.
  - intros w ix spi n. apply get_sequence_no_label.
  - intros split b s w ex wr w1 n. apply get_batch_no_label.
  - intros split b s w l c k ix n. apply get_batch_late_no_label.
  - intros split b s w d w' H inf Hinf.
    apply get_batch_Ok in H
      as (calls & tmp & _ & _ & _ & _ & _ & _ & _ & Hinfos & _ & _ & _ & _ & _
          & _ & _ & _ & _ & _ & Hcaps).
    assert (info_ix inf ∈ (ex_ix ∘ got) <$> calls) as Hin.
    { rewrite <-Hinfos. by apply list_elem_of_fmap_2. }
    apply list_elem_of_fmap in Hin as (c & -> & Hc).
    by apply (proj1 (Forall_forall _ _) Hcaps c).
Qed.

(** ** The batch and the cursor *)

(** C5: a returned batch comes from a run of sequential [get] calls on the
    fetcher of the split, at least one and at most [batch_size]; no call but
    the last carries the wrap flag, and a run shorter than [batch_size] ends
    with a call that does.  The batch holds one info record and one
    ground-truth group for each call and [seq_per_img] feature and label rows
    for each call, in the order of the calls; [bounds] has the flag of the
    last call and the cursor and the size of the split as the calls left
    them.  On a ready split ([split_ok]) whose feature arrays have one shape
    ([stackable], what [np.stack] asks for) the batch is returned, not an
    error, also when the wrap comes before [batch_size] images: it holds the
    [min batch_size (size - cursor)] images that follow the cursor. *)
Theorem get_batch_fetches (split : string) (b s : option Z) (w : World) :
  (∀ d w',
     get_batch split b s w = Ok (d, w') →
     ∃ calls : list GetCall,
       Forall (is_get_call split) calls ∧
       sequential (loader w) calls ∧
       loader w' = loader_after (loader w) calls ∧
       (1 ≤ length calls ≤ Z.to_nat (py_or b (batch_size (loader w))))%nat ∧
       (∀ i c, calls !! i = Some c → (S i < length calls)%nat →
          flag c = false) ∧
       (∀ c, last calls = Some c →
          wrapped (bounds d) = flag c ∧
          ((length calls < Z.to_nat (py_or b (batch_size (loader w))))%nat →
           flag c = true)) ∧
       info_ix <$> infos d = (ex_ix ∘ got) <$> calls ∧
       fc_feats d
         = flat_map (λ c, replicate (Z.to_nat (py_or s (seq_per_img (loader w))))
                            (ex_fc (got c))) calls ∧
       att_feats d
         = flat_map (λ c, replicate (Z.to_nat (py_or s (seq_per_img (loader w))))
                            (ex_att (got c))) calls ∧
       length (gts d) = length calls ∧
       length (labels d)
         = (length calls * Z.to_nat (py_or s (seq_per_img (loader w))))%nat ∧
       length (masks d) = length (labels d) ∧
       cursor w' split = Some (it_pos_now (bounds d)) ∧
       length <$> order w' split = Some (it_max (bounds d))) ∧
  (split_ok split w →
   stackable split w →
   1 ≤ py_or b (batch_size (loader w)) →
   1 ≤ py_or s (seq_per_img (loader w)) →
   ∃ d w' l c,
     get_batch split b s w = Ok (d, w') ∧
     order w split = Some l ∧
     cursor w split = Some c ∧
     length (infos d)
       = (Z.to_nat (py_or b (batch_size (loader w))) `min` (length l - c))%nat ∧
     info_ix <$> infos d = take (length (infos d)) (drop c l) ∧
     wrapped (bounds d) = bool_decide (c + length (infos d) = length l)%nat ∧
     it_pos_now (bounds d) = ((c + length (infos d)) `mod` length l)%nat ∧
     it_max (bounds d) = length l ∧
     split_ok split w' ∧
     stackable split w').
Proof.
  split; [intros d w'; apply get_batch_calls|].
  intros Hok Hst Hbs Hspi.
  destruct (get_batch_total split b s w Hok Hst Hbs Hspi)
    as (d & w' & Hrun & Hok' & Hst').
  destruct Hok as (f & l & c & Hf & Hkey & _ & Hl & Hc & Hlt & _).
  exists d, w', l, c. split; [exact Hrun|].
  apply get_batch_calls in Hrun
    as (calls & Hcalls & Hseq & Hafter & [Hn1 Hn] & Hflags & Hlast & Hinfos
        & _ & _ & _ & _ & _ & Hpos & Hmax).
  assert (calls ≠ []) as Hne by (intros ->; simpl in Hn1; lia).
  destruct (calls_follow_order split l calls (loader w) c)
    as (Hixs & Hfit & Hflag & Hcur & l' & Hl' & Hperm); [by eauto|done..|].
  assert (length (infos d) = length calls) as Hlen.
  { by rewrite <-(length_fmap info_ix), Hinfos, length_fmap. }
  destruct (last calls) as [cl|] eqn:Hcl; [|by apply last_None in Hcl].
  destruct (Hlast cl eq_refl) as [Hwr Hstop].
  specialize (Hflag cl eq_refl).
  unfold cursor, order in Hpos, Hmax. rewrite Hafter in Hpos, Hmax.
  rewrite Hlen. split_and!; try done.
  - destruct (decide (length calls < Z.to_nat (py_or b (batch_size (loader w))))%nat)
      as [Hshort|Hfull].
    + specialize (Hstop Hshort). rewrite Hflag in Hstop.
      apply bool_decide_eq_true in Hstop. lia.
    + lia.
  - by rewrite Hinfos.
  - by rewrite Hwr.
  - congruence.
  - rewrite Hl' in Hmax. simpl in Hmax. injection Hmax as <-.
    by apply Permutation_length.
Qed.

(** * Further properties of the loader *)

(** ** The prefetcher outside its normal run *)

(** X1: on a split that is ready to be fetched from (its fetcher stored
    under its name and primed, the cursor inside the order, a record for
    each of its images; the captions play no part) a [get] returns the
    example of the image under the cursor, flagged when that image is the
    last of the order; the cursor moves on by one, or back to 0 with the
    flag, and the split stays ready to be fetched from: the order assertion
    of [get] does not fire.  A split that is ready for batches
    ([split_ok]) stays so as well. *)
Theorem get_on_ready_split (split : string) (w : World) :
  fetch_ok split w →
  ∃ l c ix img wr w',
    order w split = Some l ∧
    cursor w split = Some c ∧
    l !! c = Some ix ∧
    images (info (loader w)) !! ix = Some img ∧
    prefetch_get split w = Ok ((example_of (loader w) ix img, wr), w') ∧
    wr = bool_decide (S c = length l) ∧
    cursor w' split = Some (if wr then 0%nat else S c) ∧
    fetch_ok split w' ∧
    (split_ok split w → split_ok split w').
Proof.
  intros Hok.
  destruct (prefetch_get_fetch split w Hok)
    as (l & c & ix & img & wr & w' & l' & Hl & Hc & Hix & Himg & Hget & Hwr
        & _ & _ & _ & Hc' & Hok').
  exists l, c, ix, img, wr, w'. split_and!; try done.
  intros Hready.
  destruct (prefetch_get_ready split w Hready)
    as (ex & wr0 & w0 & Hget0 & Hready' & _).
  rewrite Hget in Hget0. by injection Hget0 as <- <- <-.
Qed.

(** The index computation returns whenever the cursor is inside the order. *)
Lemma next_inds_total f w l c ix :
  order w (bf_split f) = Some l →
  cursor w (bf_split f) = Some c →
  l !! c = Some ix →
  ∃ wr w', _get_next_minibatch_inds f w = Ok ((ix, wr), w').
Proof.
  intros Hl Hc Hix.
  unfold _get_next_minibatch_inds, mbind, M_bind, bind, gets. simpl.
  unfold order, cursor in Hl, Hc. rewrite Hl. simpl. rewrite Hc. simpl.
  rewrite Hix. simpl.
  destruct (decide (length l ≤ S c)%nat); [|by eauto].
  destruct (if_shuffle f); [|by eauto]. unfold lift_rng.
  destruct (shuffle_total l (random w)) as (l' & g & -> & _). by eauto.
Qed.

(** X2: a fetcher whose pool does not continue the order of the split from
    the cursor is fatal: when the next index of the pool is not the index
    under the cursor, [get] fails with the assertion error, and when the pool
    is used up it fails with [StopIteration]. *)
Theorem stale_pool_is_fatal (split : string) (w : World) (f : BlobFetcher)
    (l : list nat) (c ix : nat) :
  _prefetch_process (loader w) !! split = Some f →
  order w (bf_split f) = Some l →
  cursor w (bf_split f) = Some c →
  l !! c = Some ix →
  (∀ idx rest,
     split_loader f = Some (idx :: rest) →
     idx ≠ ix →
     is_Some (images (info (loader w)) !! idx) →
     prefetch_get split w = Err (AssertionError "ix not equal")) ∧
  (split_loader f = Some [] → prefetch_get split w = Err StopIteration).
Proof.
  intros Hf Hl Hc Hix.
  destruct (next_inds_total f w l c ix Hl Hc Hix) as (wr & w2 & Hnext).
  pose proof Hnext as Hnext0.
  apply next_inds_Ok in Hnext0
    as (l0 & ri & l' & _ & _ & _ & _ & _ & _ & Hw2).
  split.
  - intros idx rest Hpool Hne [img Himg].
    unfold prefetch_get, mbind, M_bind. unfold bind at 1, gets at 1.
    rewrite Hf. unfold bind at 1. simpl. apply bind_Err.
    unfold BlobFetcher_get, mbind, M_bind. rewrite Hpool.
    unfold bind at 1, ret at 1. rewrite (bind_step _ _ _ _ _ Hnext).
    assert (split_loader_next f w2
            = Ok ((example_of (loader w) idx img,
                   {| bf_split := bf_split f; if_shuffle := if_shuffle f;
                      split_loader := Some rest |}), w2)) as Hpull.
    { unfold split_loader_next. rewrite Hpool.
      unfold __getitem__, mbind, M_bind, bind, gets. simpl.
      rewrite Hw2. simpl. by rewrite Himg. }
    rewrite (bind_step _ _ _ _ _ Hpull).
    assert (∃ f3, (if wr then BlobFetcher_reset
                     {| bf_split := bf_split f; if_shuffle := if_shuffle f;
                        split_loader := Some rest |}
                   else ret {| bf_split := bf_split f; if_shuffle := if_shuffle f;
                               split_loader := Some rest |}) w2 = Ok (f3, w2))
      as (f3 & Hlast).
    { destruct wr; [|by eexists].
      unfold BlobFetcher_reset, mbind, M_bind, bind, gets. simpl.
      rewrite Hw2. simpl. rewrite !lookup_insert_eq. simpl. by eexists. }
    rewrite (bind_step _ _ _ _ _ Hlast).
    rewrite decide_False; [done|].
    unfold example_of. by rewrite ex_ix_get_npy_data.
  - intros Hpool.
    unfold prefetch_get, mbind, M_bind. unfold bind at 1, gets at 1.
    rewrite Hf. unfold bind at 1. simpl. apply bind_Err.
    unfold BlobFetcher_get, mbind, M_bind. rewrite Hpool.
    unfold bind at 1, ret at 1. rewrite (bind_step _ _ _ _ _ Hnext).
    apply bind_Err. unfold split_loader_next. by rewrite Hpool.
Qed.

(** A [get] with the cursor at or behind the end of the order fails. *)
Lemma prefetch_get_past_end split w f l c :
  _prefetch_process (loader w) !! split = Some f →
  order w (bf_split f) = Some l →
  cursor w (bf_split f) = Some c →
  (length l ≤ c)%nat →
  prefetch_get split w = Err IndexError.
Proof.
  intros Hf Hl Hc Hlen. unfold order, cursor in Hl, Hc.
  unfold prefetch_get, mbind, M_bind. unfold bind at 1, gets at 1.
  rewrite Hf. unfold bind at 1. simpl. apply bind_Err.
  unfold BlobFetcher_get, mbind, M_bind.
  assert (∃ f1, (if split_loader f is None then BlobFetcher_reset f else ret f) w
                = Ok (f1, w) ∧ bf_split f1 = bf_split f) as (f1 & Hfirst & Hs1).
  { destruct (split_loader f); [by eexists|].
    unfold BlobFetcher_reset, mbind, M_bind, bind, gets. simpl.
    rewrite Hl. simpl. rewrite Hc. simpl. by eexists. }
  rewrite (bind_step _ _ _ _ _ Hfirst). apply bind_Err.
  unfold _get_next_minibatch_inds, mbind, M_bind, bind, gets. simpl.
  rewrite Hs1, Hl. simpl. rewrite Hc. simpl.
  by rewrite (lookup_ge_None_2 l c Hlen).
Qed.

(** The first pass of the fetch loop decides a batch that fails there. *)
Lemma get_batch_first_get_fails split b s w e :
  prefetch_get split w = Err e →
  1 ≤ py_or b (batch_size (loader w)) →
  0 ≤ py_or s (seq_per_img (loader w)) →
  get_batch split b s w = Err e.
Proof.
  intros Hget Hbs Hspi.
  unfold get_batch, mbind, M_bind. unfold bind at 1, gets at 1.
  set (bs := py_or b (batch_size (loader w))) in *.
  set (spi := py_or s (seq_per_img (loader w))) in *.
  unfold np_zeros at 1. rewrite decide_False by nia.
  unfold bind at 1, ret at 1. apply bind_Err.
  destruct (Z.to_nat bs) as [|k] eqn:Hk; [lia|].
  cbn [seq batch_loop]. apply bind_Err.
  unfold batch_body, mbind, M_bind. by apply bind_Err.
Qed.

(** X3: on a split whose cursor is not inside its order, in particular on an
    empty split, [get] fails with [IndexError], and so does [get_batch] for
    every [batch_size ≥ 1]. *)
Theorem iterating_past_the_end (split : string) (b s : option Z) (w : World)
    (f : BlobFetcher) (l : list nat) (c : nat) :
  _prefetch_process (loader w) !! split = Some f →
  order w (bf_split f) = Some l →
  cursor w (bf_split f) = Some c →
  (length l ≤ c)%nat →
  prefetch_get split w = Err IndexError ∧
  (1 ≤ py_or b (batch_size (loader w)) →
   0 ≤ py_or s (seq_per_img (loader w)) →
   get_batch split b s w = Err IndexError).
Proof.
  intros Hf Hl Hc Hlen.
  pose proof (prefetch_get_past_end split w f l c Hf Hl Hc Hlen) as Hget.
  split; [done|]. by apply get_batch_first_get_fails.
Qed.

(** ** Names of splits and sizes of batches *)

Lemma init_split_names o sh inf h5 L split :
  DataLoader__init__ o sh inf h5 = Ok L →
  split ≠ "train" → split ≠ "val" → split ≠ "test" →
  _prefetch_process L !! split = None ∧
  split_ix L !! split = None ∧
  iterators L !! split = None.
Proof.
  intros [= <-] H1 H2 H3. simpl.
  assert (∀ imgs ix (m : gmap string (list nat)),
            m !! split = None →
            split_loop (opt_train_only o) ix imgs m !! split = None) as Hloop.
  { induction imgs as [|img imgs IH]; intros ix m Hm; [done|].
    simpl. apply IH. unfold classify, append_ix.
    repeat case_decide; rewrite ?lookup_alter_ne by done; done. }
  split_and!.
  - rewrite map_lookup_imap.
    by rewrite !lookup_insert_ne, lookup_empty by done.
  - apply Hloop. unfold empty_splits.
    by rewrite !lookup_insert_ne, lookup_empty by done.
  - by rewrite !lookup_insert_ne, lookup_empty by done.
Qed.

(** X4: a constructed loader knows the splits train, val and test and no
    other: for any other name [reset_iterator], [get_split_size] and
    [get_batch] (for sizes that pass the allocation of the label buffer)
    fail with [KeyError] of that name. *)
Theorem unknown_split_is_key_error (o : Opt) (sh : bool) (inf : Info) (h5 : H5)
    (L : DataLoader) (g : Rng) (fs : Feat → list nat) (split : string)
    (b s : option Z) :
  DataLoader__init__ o sh inf h5 = Ok L →
  split ≠ "train" → split ≠ "val" → split ≠ "test" →
  reset_iterator split {| loader := L; random := g; files := fs |}
    = Err (KeyError split) ∧
  get_split_size split {| loader := L; random := g; files := fs |}
    = Err (KeyError split) ∧
  (1 ≤ py_or b (batch_size L) → 0 ≤ py_or s (seq_per_img L) →
   get_batch split b s {| loader := L; random := g; files := fs |}
     = Err (KeyError split)).
Proof.
  intros Hinit H1 H2 H3.
  destruct (init_split_names o sh inf h5 L split Hinit H1 H2 H3)
    as (Hpre & Hsix & _).
  split_and!.
  - unfold reset_iterator, mbind, M_bind, bind, gets. simpl. by rewrite Hpre.
  - unfold get_split_size, mbind, M_bind, bind, gets. simpl. by rewrite Hsix.
  - intros Hbs Hspi. apply get_batch_first_get_fails; [|done..].
    unfold prefetch_get, mbind, M_bind, bind, gets. simpl. by rewrite Hpre.
Qed.

(** X5: [get_batch] returns a batch only for an effective [batch_size] and
    [seq_per_img] of at least 1, and fails with [ValueError], before any
    fetch, when their product is negative. *)
Theorem get_batch_needs_positive_sizes (split : string) (b s : option Z)
    (w : World) :
  (∀ d w', get_batch split b s w = Ok (d, w') →
     1 ≤ py_or b (batch_size (loader w)) ∧
     1 ≤ py_or s (seq_per_img (loader w))) ∧
  (py_or b (batch_size (loader w)) * py_or s (seq_per_img (loader w)) < 0 →
   get_batch split b s w = Err ValueError).
Proof.
  split.
  - intros d w' H.
    apply get_batch_Ok in H as (calls & tmp & Hspi & Hn & _).
    simpl in *. split; [lia | done].
  - intros Hneg. unfold get_batch, mbind, M_bind, bind, gets. simpl.
    unfold np_zeros. by rewrite decide_True.
Qed.

(** ** When the order of a split changes *)

Lemma stepped_same_order s ri wr l L :
  split_ix L !! s = Some l →
  split_ix (stepped s ri wr l L) = split_ix L.
Proof. intros Hl. unfold stepped. simpl. by apply insert_id. Qed.

(** X6: a [get] that does not wrap, or that is made by a fetcher that does not
    shuffle, changes no index list and draws no random number: the order of
    a split changes only when a shuffling fetcher wraps. *)
Theorem get_reshuffles_only_on_wrap (split : string) (w w' : World)
    (ex : Example) (wr : bool) (f : BlobFetcher) :
  prefetch_get split w = Ok ((ex, wr), w') →
  _prefetch_process (loader w) !! split = Some f →
  wr = false ∨ if_shuffle f = false →
  split_ix (loader w') = split_ix (loader w) ∧ random w' = random w.
Proof.
  intros Hget Hf Hcase.
  apply prefetch_get_Ok in Hget
    as (f0 & f' & l & ri & l' & img & Hf0 & Hl & _ & _ & _ & _ & Hsame & Hw'
        & _).
  assert (f0 = f) as -> by congruence.
  destruct Hsame as [-> Hrng].
  { destruct Hcase as [-> | ->]; [done | by destruct wr]. }
  split; [|done]. rewrite Hw'. simpl. by apply insert_id.
Qed.

(** ** What a batch leaves of the loader *)

(** A property of the loader that every [get] of a split keeps is kept by
    the calls of a batch. *)
Lemma calls_invariant (P : DataLoader → Prop) split :
  (∀ c, is_get_call split c → P (loader (before c)) → P (loader (after c))) →
  ∀ calls L,
    Forall (is_get_call split) calls → sequential L calls → P L →
    P (loader_after L calls).
Proof.
  intros Hstep. induction calls as [|c calls IH]; intros L Hcalls Hseq HL.
  - done.
  - apply Forall_cons in Hcalls as [Hc Hcalls]. destruct Hseq as [Hb Hseq].
    rewrite loader_after_cons. apply IH; [done..|].
    apply Hstep; [done|]. by rewrite Hb.
Qed.

Lemma get_batch_invariant (P : DataLoader → Prop) split b s w d w' :
  (∀ w0 ex wr w1, prefetch_get split w0 = Ok ((ex, wr), w1) →
     P (loader w0) → P (loader w1)) →
  get_batch split b s w = Ok (d, w') →
  P (loader w) → P (loader w').
Proof.
  intros Hstep Hrun HP.
  apply get_batch_calls in Hrun as (calls & Hcalls & Hseq & -> & _).
  apply (calls_invariant P split); [|done..].
  intros [w0 ex wr w1] Hc. apply (Hstep w0 ex wr w1 Hc).
Qed.

(** X7: a batch of one split leaves the other splits alone: their cursors,
    their index orders and their fetchers are as before, and so are the
    options and the data of the loader. *)
Theorem get_batch_touches_one_split (split : string) (b s : option Z)
    (w w' : World) (d : Batch) (f : BlobFetcher) :
  _prefetch_process (loader w) !! split = Some f →
  bf_split f = split →
  get_batch split b s w = Ok (d, w') →
  opt (loader w') = opt (loader w) ∧
  allow_shuffle (loader w') = allow_shuffle (loader w) ∧
  info (loader w') = info (loader w) ∧
  h5_label_file (loader w') = h5_label_file (loader w) ∧
  ∀ s', s' ≠ split →
    order w' s' = order w s' ∧
    cursor w' s' = cursor w s' ∧
    _prefetch_process (loader w') !! s' = _prefetch_process (loader w) !! s'.
Proof.
  intros Hf Hkey Hrun.
  set (P := λ L' : DataLoader,
    (∃ f', _prefetch_process L' !! split = Some f' ∧ bf_split f' = split) ∧
    opt L' = opt (loader w) ∧
    allow_shuffle L' = allow_shuffle (loader w) ∧
    info L' = info (loader w) ∧
    h5_label_file L' = h5_label_file (loader w) ∧
    ∀ s', s' ≠ split →
      split_ix L' !! s' = split_ix (loader w) !! s' ∧
      iterators L' !! s' = iterators (loader w) !! s' ∧
      _prefetch_process L' !! s' = _prefetch_process (loader w) !! s').
  assert (P (loader w')) as (_ & ? & ? & ? & ? & Hframe).
  { apply (get_batch_invariant P split b s w d w'); [|done|].
    - intros w0 ex wr w1 Hget ((f0 & Hf0 & Hk0) & Ho & Ha & Hi & Hh & Hfr).
      apply prefetch_get_Ok in Hget
        as (f1 & f' & l & ri & l' & img & Hf1 & _ & _ & _ & _ & _ & _ & Hw1
            & _ & _ & Hk' & _).
      assert (f1 = f0) as -> by congruence. rewrite Hk0 in *.
      rewrite Hw1. unfold P. simpl. split_and!; try done.
      + exists f'. by rewrite lookup_insert_eq.
      + intros s' Hs'. rewrite !lookup_insert_ne by done. by apply Hfr.
    - unfold P. split_and!; try done. by exists f. }
  split_and!; try done.
Qed.

(** X8: a batch leaves the index list of every split a permutation of what
    it was, and a split that is missing stays missing; [get_split_size]
    answers after the batch what it answered before. *)
Theorem get_batch_keeps_split_sizes (split : string) (b s : option Z)
    (w w' : World) (d : Batch) :
  get_batch split b s w = Ok (d, w') →
  (∀ s' l, order w s' = Some l → ∃ l', order w' s' = Some l' ∧ l' ≡ₚ l) ∧
  (∀ s', order w s' = None → order w' s' = None) ∧
  (∀ s', eval (get_split_size s') w' = eval (get_split_size s') w).
Proof.
  intros Hrun.
  set (P := λ L' : DataLoader,
    ∀ s', match split_ix (loader w) !! s' with
          | Some l => ∃ l', split_ix L' !! s' = Some l' ∧ l' ≡ₚ l
          | None => split_ix L' !! s' = None
          end).
  assert (P (loader w')) as HP.
  { apply (get_batch_invariant P split b s w d w'); [|done|].
    - intros w0 ex wr w1 Hget HP0 s'.
      apply prefetch_get_Ok in Hget
        as (f1 & f' & l & ri & l' & img & _ & Hl & _ & _ & _ & Hperm & _ & Hw1
            & _).
      specialize (HP0 s'). rewrite Hw1. simpl. unfold order in Hl.
      destruct (decide (bf_split f1 = s')) as [<-|Hne].
      + rewrite lookup_insert_eq.
        destruct (split_ix (loader w) !! bf_split f1) as [l0|].
        * destruct HP0 as (l1 & Hl1 & Hp1). exists l'. split; [done|].
          rewrite Hperm. congruence.
        * congruence.
      + by rewrite lookup_insert_ne.
    - intros s'. destruct (split_ix (loader w) !! s') as [l|] eqn:E; [|done].
      by exists l. }
  unfold P, order in *. split_and!.
  - intros s' l Hl. specialize (HP s'). by rewrite Hl in HP.
  - intros s' Hl. specialize (HP s'). by rewrite Hl in HP.
  - intros s'. specialize (HP s').
    unfold eval, get_split_size, mbind, M_bind, bind, gets. simpl.
    destruct (split_ix (loader w) !! s') as [l|].
    + destruct HP as (l' & -> & Hp). simpl.
      by rewrite (Permutation_length Hp).
    + by rewrite HP.
Qed.

(** ** Only the train split is ever shuffled *)

Lemma init_shuffle_policy o sh inf h5 L :
  DataLoader__init__ o sh inf h5 = Ok L → shuffle_policy L.
Proof.
  intros [= <-] s f. simpl. rewrite map_lookup_imap.
  destruct (_ !! s); [|done]. simpl. by intros [= <-].
Qed.

Lemma prefetch_get_shuffle_policy split w ex wr w' :
  prefetch_get split w = Ok ((ex, wr), w') →
  shuffle_policy (loader w) → shuffle_policy (loader w').
Proof.
  intros Hget Hpol.
  apply prefetch_get_Ok in Hget
    as (f & f' & l & ri & l' & img & Hf & _ & _ & _ & _ & _ & _ & Hw'
        & _ & _ & Hk' & Hsh' & _).
  destruct (Hpol split f Hf) as [Hk Hsh].
  intros s0 f0. rewrite Hw'. simpl.
  destruct (decide (split = s0)) as [<-|Hne].
  - rewrite lookup_insert_eq. intros [= <-]. split; congruence.
  - rewrite lookup_insert_ne by done. apply Hpol.
Qed.

Lemma reset_iterator_Ok split w w' :
  reset_iterator split w = Ok (tt, w') →
  ∃ f, _prefetch_process (loader w) !! split = Some f ∧
    w' = {| loader :=
              set_iterators (<[split:=0%nat]> (iterators (loader w)))
                (set_prefetch_process
                   (<[split:=BlobFetcher__init__ split
                        (allow_shuffle (loader w) && bool_decide (split = "train"))]>
                      (delete split (_prefetch_process (loader w))))
                   (loader w));
            random := random w; files := files w |}.
Proof.
  unfold reset_iterator, mbind, M_bind, bind, gets. simpl.
  destruct (_prefetch_process (loader w) !! split) as [f|]; [|done].
  simpl. intros [= <-]. by exists f.
Qed.

(** X9: the shuffling policy of the constructor is an invariant of the
    loader: a constructed loader has it, and [get_batch] and
    [reset_iterator] keep it. *)
Theorem shuffle_policy_is_kept :
  (∀ o sh inf h5 L, DataLoader__init__ o sh inf h5 = Ok L → shuffle_policy L) ∧
  (∀ split b s w d w',
     get_batch split b s w = Ok (d, w') →
     shuffle_policy (loader w) → shuffle_policy (loader w')) ∧
  (∀ split w w',
     reset_iterator split w = Ok (tt, w') →
     shuffle_policy (loader w) → shuffle_policy (loader w')).
Proof.
  split_and!.
  - apply init_shuffle_policy.
  - intros split b s w d w' Hrun.
    apply (get_batch_invariant shuffle_policy split b s w d w'); [|done].
    intros w0 ex wr w1. apply prefetch_get_shuffle_policy.
  - intros split w w' (f & Hf & ->)%reset_iterator_Ok Hpol s0 f0. simpl.
    destruct (decide (split = s0)) as [<-|Hne].
    + rewrite lookup_insert_eq. by intros [= <-].
    + rewrite lookup_insert_ne, lookup_delete_ne by done. apply Hpol.
Qed.

(** X10: under that policy a batch of val or test, or of any split of a
    loader that does not allow shuffling, leaves every index order exactly as
    it was, wrap or not. *)
Theorem unshuffled_split_keeps_order (split : string) (b s : option Z)
    (w w' : World) (d : Batch) :
  shuffle_policy (loader w) →
  split ≠ "train" ∨ allow_shuffle (loader w) = false →
  get_batch split b s w = Ok (d, w') →
  split_ix (loader w') = split_ix (loader w).
Proof.
  intros Hpol Hcase Hrun.
  set (P := λ L' : DataLoader,
    shuffle_policy L' ∧ allow_shuffle L' = allow_shuffle (loader w) ∧
    split_ix L' = split_ix (loader w)).
  assert (P (loader w')) as (_ & _ & Hsame); [|done].
  apply (get_batch_invariant P split b s w d w'); [|done|done].
  intros w0 ex wr w1 Hget (Hpol0 & Hallow & Hsix).
  pose proof (prefetch_get_shuffle_policy _ _ _ _ _ Hget Hpol0) as Hpol1.
  pose proof (prefetch_get_static _ _ _ _ _ Hget) as (_ & Ha & _ & _).
  apply prefetch_get_Ok in Hget
    as (f & f' & l & ri & l' & img & Hf & Hl & _ & _ & _ & _ & Hsame & Hw1 & _).
  destruct (Hpol0 split f Hf) as [Hk Hsh].
  assert (if_shuffle f = false) as Hno.
  { rewrite Hsh, Hallow. destruct Hcase as [Hne| ->]; [|done].
    rewrite bool_decide_eq_false_2 by done. apply andb_false_r. }
  destruct Hsame as [-> _]; [by rewrite Hno, andb_false_r|].
  unfold P. split_and!; [done | congruence |].
  rewrite Hw1, <-Hsix. simpl. by apply insert_id.
Qed.

(** ** More on the caption index *)

(** X11: when an image has exactly [seq_per_img] captions, [_get_sequence]
    returns all of them in the order of the table, whatever the generator
    draws. *)
Theorem get_sequence_all_captions (w : World) (ix : nat) (spi s e : Z) :
  label_start_ix (loader w) !! ix = Some s →
  label_end_ix (loader w) !! ix = Some e →
  1 ≤ s →
  e ≤ Z.of_nat (shape0 (h5_labels (h5_label_file (loader w)))) →
  1 ≤ spi →
  e - s + 1 = spi →
  ∃ w',
    _get_sequence ix spi w
      = Ok (caption_row (loader w) <$> seq (Z.to_nat (s - 1)) (Z.to_nat spi), w') ∧
    loader w' = loader w.
Proof.
  intros Hs He Hs1 Hetab Hspi Hcap.
  destruct (get_sequence_spec w ix spi s e) as
    (sq & w' & Hrun & Hld & _ & Hlen & _ & _ & Hwin); [done..|lia|done|].
  destruct Hwin as (off & Hoff & _ & _ & Hrows); [lia|].
  replace (e - s + 1 - spi + 1) with 1 in Hoff by lia.
  change (Z.to_nat 1) with 1%nat in Hoff. rewrite Nat.mod_1_r in Hoff.
  assert (off = Z.to_nat (s - 1)) as -> by lia.
  exists w'. split; [|done]. rewrite Hrun. do 2 f_equal.
  apply list_eq. intros q. destruct (decide (q < Z.to_nat spi)%nat) as [Hq|Hq].
  - rewrite (Hrows q Hq), list_lookup_fmap, lookup_seq_lt by done. done.
  - rewrite !lookup_ge_None_2; [done| |lia].
    rewrite length_fmap, length_seq. lia.
Qed.

Lemma randint_Ok a b g v g' :
  randint a b g = Ok (v, g') → a ≤ b ∧ ∀ k, g' k = g (S k).
Proof.
  unfold randint. case_decide; [done|].
  unfold mbind, M_bind, bind, _randbelow, ret. intros [= <- <-].
  split; [lia | done].
Qed.

Lemma subsample_draws t wd ix1 ix2 : ∀ qs sq W sq' W',
  subsample t wd ix1 ix2 qs sq W = Ok (sq', W') →
  ∀ k, random W' k = random W (length qs + k)%nat.
Proof.
  induction qs as [|q qs IH]; intros sq W sq' W' H k; cbn [subsample] in H.
  - by apply ret_Ok in H as [<- <-].
  - bind_inv H as ixl W1 H1. apply lift_rng_Ok in H1 as (g & Hg & ->).
    apply randint_Ok in Hg as [_ Hg].
    bind_inv H as r W2 H2. apply h5_row_Ok in H2 as (-> & _).
    rewrite (IH _ _ _ _ H k). simpl. rewrite Hg. f_equal; lia.
Qed.

(** X12: [_get_sequence] leaves the loader as it is and draws from the
    generator [seq_per_img] times when it subsamples (fewer captions than
    rows asked for) and once otherwise. *)
Theorem get_sequence_draws (w w' : World) (ix : nat) (spi n : Z) (sq : matrix) :
  _get_sequence ix spi w = Ok (sq, w') →
  ncap (loader w) ix = Some n →
  loader w' = loader w ∧
  ∀ k, random w' k
       = random w ((if decide (n < spi)%Z then Z.to_nat spi else 1%nat) + k)%nat.
Proof.
  intros H Hn. pose proof (get_sequence_Ok _ _ _ _ _ H) as (Hld & _).
  split; [done|]. intros k.
  unfold _get_sequence, ncap in *.
  bind_inv H as L w0 H0. apply gets_Ok in H0 as [<- <-].
  bind_inv H as s w1 H1. apply of_option_Ok in H1 as [Hs <-].
  bind_inv H as e w2 H2. apply of_option_Ok in H2 as [He <-].
  rewrite Hs, He in Hn. simpl in Hn. injection Hn as <-.
  case_decide as Hpos; [|done].
  replace (e - 1 - (s - 1) + 1) with (e - s + 1) in * by lia.
  destruct (decide (e - s + 1 < spi)) as [Hfew|Hmany].
  - bind_inv H as zeros w3 H3. apply np_zeros_Ok in H3 as (-> & _ & _).
    rewrite (subsample_draws _ _ _ _ _ _ _ _ _ H k). by rewrite length_seq.
  - bind_inv H as ixl w3 H3. apply lift_rng_Ok in H3 as (g & Hg & ->).
    apply ret_Ok in H as [_ <-]. simpl.
    by apply randint_Ok in Hg as [_ Hg].
Qed.

(** ** The contents of a batch *)

Lemma assign_block_rows {S} (m : matrix) (i : nat) (spi : Z) src (s s' : S) m' :
  assign_block m (Z.of_nat i * spi) ((Z.of_nat i + 1) * spi) 1 src s
    = Ok (m', s') →
  0 ≤ spi →
  (Z.of_nat i + 1) * spi ≤ Z.of_nat (length m) →
  (∀ j, (j < i * Z.to_nat spi ∨ (i + 1) * Z.to_nat spi ≤ j)%nat →
     m' !! j = m !! j) ∧
  (∀ q, (q < Z.to_nat spi)%nat →
     ∃ r, r ∈ src ∧
          (length src = Z.to_nat spi → src !! q = Some r) ∧
          m' !! (i * Z.to_nat spi + q)%nat
            = set_cols 1 r <$> m !! (i * Z.to_nat spi + q)%nat).
Proof.
  intros H Hspi Hfit. unfold assign_block, py_slice_bound in H.
  rewrite !(decide_False (P := _ < 0)) in H by nia.
  set (lo := Z.to_nat ((Z.of_nat i * spi) `min` Z.of_nat (length m))) in *.
  set (k := (Z.to_nat (((Z.of_nat i + 1) * spi) `min` Z.of_nat (length m)) - lo)%nat)
    in *.
  assert (lo = (i * Z.to_nat spi)%nat) as Hlo by (unfold lo; nia).
  assert (k = Z.to_nat spi) as Hk by (unfold k, lo; nia).
  assert (lo + k ≤ length m)%nat as Hin by nia.
  assert (length (take lo m) = lo) as Hlen1 by (rewrite length_take; lia).
  assert (∀ q, (q < k)%nat → take k (drop lo m) !! q = m !! (lo + q)%nat) as Hblk.
  { intros q Hq. by rewrite lookup_take_lt, lookup_drop by done. }
  assert (∀ body : matrix, length body = k →
            ∀ j, (j < lo ∨ lo + k ≤ j)%nat →
              (take lo m ++ body ++ drop (lo + k) m) !! j = m !! j) as Hout.
  { intros body Hbody j [Hj|Hj].
    - rewrite lookup_app_l by lia. by rewrite lookup_take_lt.
    - rewrite lookup_app_r by lia. rewrite lookup_app_r by lia.
      rewrite lookup_drop, Hlen1, Hbody. f_equal. lia. }
  assert (∀ body : matrix, length body = k →
            ∀ q, (q < k)%nat →
              (take lo m ++ body ++ drop (lo + k) m) !! (lo + q)%nat = body !! q)
    as Hinb.
  { intros body Hbody q Hq.
    rewrite lookup_app_r by lia. rewrite lookup_app_l by lia.
    f_equal. lia. }
  rewrite <-Hlo, <-Hk.
  case_decide as Hsrc.
  - apply ret_Ok in H as [<- <-].
    assert (length (zip_with (set_cols 1) src (take k (drop lo m))) = k) as Hb.
    { rewrite length_zip_with, length_take, length_drop. lia. }
    split.
    + intros j Hj. apply Hout; [done|lia].
    + intros q Hq.
      destruct (lookup_lt_is_Some_2 src q) as [r Hr]; [lia|].
      exists r. split_and!; [by eapply list_elem_of_lookup_2 | done |].
      rewrite Hinb, lookup_zip_with, Hr, Hblk by done. simpl.
      by destruct (m !! (lo + q)%nat).
  - destruct src as [|r [|]]; try done.
    apply ret_Ok in H as [<- <-].
    assert (length (map (set_cols 1 r) (take k (drop lo m))) = k) as Hb.
    { rewrite length_map, length_take, length_drop. lia. }
    split.
    + intros j Hj. apply Hout; [done|lia].
    + intros q Hq. exists r.
      split_and!; [by left | intros E; simpl in Hsrc, E; lia |].
      rewrite Hinb by done.
      change (map (set_cols 1 r)) with (fmap (M := list) (set_cols 1 r)).
      by rewrite list_lookup_fmap, Hblk.
Qed.

Lemma pass_of_static L L' spi p :
  opt L' = opt L → info L' = info L → h5_label_file L' = h5_label_file L →
  pass_of L spi p → pass_of L' spi p.
Proof.
  intros Ho Hi Hh (img & s & e & w1 & w2 & ? & ? & ? & ? & ? & ? & ? & ?).
  exists img, s, e, w1, w2.
  unfold example_of, use_att, label_start_ix, label_end_ix in *.
  rewrite Ho, Hi, Hh. by split_and!.
Qed.

Lemma batch_body_content split spi i acc w acc' wr w' :
  batch_body split spi i acc w = Ok ((acc', wr), w') →
  ∃ p tmp w1,
    prefetch_get split w = Ok ((p_ex p, wr), w1) ∧
    pass_of (loader w) spi p ∧
    assign_block (tmp_label_batch acc) (Z.of_nat i * spi)
      ((Z.of_nat i + 1) * spi) 1 (p_seq p) w' = Ok (tmp, w') ∧
    acc' = {| fc_batch := fc_batch acc ++ replicate (Z.to_nat spi) (ex_fc (p_ex p));
              att_batch := att_batch acc ++ replicate (Z.to_nat spi) (ex_att (p_ex p));
              tmp_label_batch := tmp;
              acc_infos := acc_infos acc ++ [p_info p];
              acc_gts := acc_gts acc ++ [p_gt p];
              acc_wrapped := acc_wrapped acc;
              acc_i := i |} ∧
    opt (loader w') = opt (loader w) ∧
    info (loader w') = info (loader w) ∧
    h5_label_file (loader w') = h5_label_file (loader w).
Proof.
  unfold batch_body. intros H.
  bind_inv H as [ex wr0] w1 H1.
  bind_inv H as sq w2 H2.
  bind_inv H as tmp w3 H3.
  pose proof H2 as (Hld & Hwidth & _)%get_sequence_Ok.
  destruct (assign_block_Ok _ _ _ _ _ _ _ _ H3 Hwidth) as (-> & _).
  bind_inv H as L w4 H4. apply gets_Ok in H4 as [<- <-].
  bind_inv H as s w5 H5. apply of_option_Ok in H5 as [Hs <-].
  bind_inv H as e w6 H6. apply of_option_Ok in H6 as [He <-].
  bind_inv H as inf w7 H7. unfold _make_info_dict in H7.
  bind_inv H7 as L7 w8 H8. apply gets_Ok in H8 as [<- <-].
  bind_inv H7 as img7 w9 H9. apply of_option_Ok in H9 as [Himg7 <-].
  apply ret_Ok in H7 as [<- <-].
  apply ret_Ok in H as [[= <- <-] <-].
  pose proof (prefetch_get_static _ _ _ _ _ H1) as (Ho & _ & Hi & Hh).
  pose proof H1 as (f & f' & l & ri & l' & img & _ & _ & _ & _ & _ & _ & _ & _
                    & Himg & Hex & _)%prefetch_get_Ok.
  rewrite Hld in *. rewrite Hi in Himg7.
  assert (img7 = img) as -> by congruence.
  unfold label_start_ix, label_end_ix in Hs, He. rewrite Hh in Hs, He.
  exists {| p_ex := ex; p_seq := sq;
            p_info := {| info_ix := ex_ix ex; info_id := img_id img;
                         info_file_path := img_file_path img |};
            p_gt := h5_rows (h5_labels (h5_label_file (loader w))) (s - 1) e
                      (shape1 (h5_labels (h5_label_file (loader w)))) |},
    tmp, w1.
  simpl. split_and!; try done.
  - exists img, s, e, w1, w2. simpl. by split_and!.
  - by rewrite Hh.
Qed.

(** The passes of the fetch loop, and where each leaves its captions in the
    label buffer. *)
Lemma batch_loop_content split spi : ∀ n i0 acc w acc' w',
  batch_loop split spi (seq i0 n) acc w = Ok (acc', w') →
  ∃ ps : list Pass,
    Forall (pass_of (loader w) spi) ps ∧
    fc_batch acc'
      = fc_batch acc ++ flat_map (λ p, replicate (Z.to_nat spi) (ex_fc (p_ex p))) ps ∧
    att_batch acc'
      = att_batch acc ++ flat_map (λ p, replicate (Z.to_nat spi) (ex_att (p_ex p))) ps ∧
    acc_infos acc' = acc_infos acc ++ (p_info <$> ps) ∧
    acc_gts acc' = acc_gts acc ++ (p_gt <$> ps) ∧
    (0 ≤ spi →
     Z.of_nat (i0 + n) * spi ≤ Z.of_nat (length (tmp_label_batch acc)) →
     (∀ j, (j < i0 * Z.to_nat spi)%nat →
        tmp_label_batch acc' !! j = tmp_label_batch acc !! j) ∧
     (∀ k p q, ps !! k = Some p → (q < Z.to_nat spi)%nat →
        ∃ r, r ∈ p_seq p ∧
             (length (p_seq p) = Z.to_nat spi → p_seq p !! q = Some r) ∧
             tmp_label_batch acc' !! ((i0 + k) * Z.to_nat spi + q)%nat
               = set_cols 1 r
                   <$> tmp_label_batch acc !! ((i0 + k) * Z.to_nat spi + q)%nat)).
Proof.
  induction n as [|n IH]; intros i0 acc w acc' w' H.
  { apply ret_Ok in H as [<- <-]. exists []. simpl.
    rewrite !app_nil_r. by split_and!. }
  cbn [seq batch_loop] in H. bind_inv H as [acc1 wr] w1' Hbody.
  apply batch_body_content in Hbody
    as (p & tmp & w1 & Hget & Hp & Hblock & -> & Ho & Hi & Hh).
  assert (∀ (Hs : 0 ≤ spi)
            (Hfit : Z.of_nat (i0 + S n) * spi
                    ≤ Z.of_nat (length (tmp_label_batch acc))),
            length tmp = length (tmp_label_batch acc) ∧
            (∀ j, (j < i0 * Z.to_nat spi ∨ (i0 + 1) * Z.to_nat spi ≤ j)%nat →
               tmp !! j = tmp_label_batch acc !! j) ∧
            (∀ q, (q < Z.to_nat spi)%nat →
               ∃ r, r ∈ p_seq p ∧
                 (length (p_seq p) = Z.to_nat spi → p_seq p !! q = Some r) ∧
                 tmp !! (i0 * Z.to_nat spi + q)%nat
                   = set_cols 1 r
                       <$> tmp_label_batch acc !! (i0 * Z.to_nat spi + q)%nat))
    as Hfirst.
  { intros Hs Hfit.
    destruct Hp as (_ & _ & _ & w3 & w4 & _ & _ & _ & _ & _ & _ & _ & Hseq).
    pose proof (get_sequence_Ok _ _ _ _ _ Hseq) as (_ & Hwidth & _).
    destruct (assign_block_Ok _ _ _ _ _ _ _ _ Hblock Hwidth) as (_ & Hlen & _).
    destruct (assign_block_rows _ _ _ _ _ _ _ Hblock Hs) as [Hout Hin]; [nia|].
    by split_and!. }
  destruct wr.
  - apply ret_Ok in H as [<- <-]. exists [p]. simpl.
    rewrite !app_nil_r. split_and!; try done.
    + by apply Forall_singleton.
    + intros Hs Hfit. destruct (Hfirst Hs Hfit) as (_ & Hout & Hin).
      split.
      * intros j Hj. apply Hout. lia.
      * intros [|k] p0 q Hk Hq; simpl in Hk; [|done].
        injection Hk as <-. rewrite Nat.add_0_r. by apply Hin.
  - apply IH in H as (ps & Hps & Hfc & Hatt & Hinfos & Hgts & Htmp).
    cbn [fc_batch att_batch tmp_label_batch acc_infos acc_gts] in *.
    exists (p :: ps). split_and!.
    + constructor; [done|].
      eapply Forall_impl; [exact Hps|]. intros p0.
      by apply pass_of_static.
    + by rewrite Hfc, <-app_assoc.
    + by rewrite Hatt, <-app_assoc.
    + by rewrite Hinfos, <-app_assoc.
    + by rewrite Hgts, <-app_assoc.
    + intros Hs Hfit. destruct (Hfirst Hs Hfit) as (Hlen & Hout & Hin).
      destruct (Htmp Hs) as [Hbefore Hrows]; [rewrite Hlen; nia|].
      split.
      * intros j Hj. rewrite Hbefore by lia. apply Hout. lia.
      * intros [|k] p0 q Hk Hq; simpl in Hk.
        -- injection Hk as <-.
           rewrite Nat.add_0_r, Hbefore by lia. by apply Hin.
        -- destruct (Hrows k p0 q Hk Hq) as (r & Hr & Hrq & Hrow).
           exists r. split_and!; [done..|].
           replace ((i0 + S k) * Z.to_nat spi + q)%nat
             with ((S i0 + k) * Z.to_nat spi + q)%nat by lia.
           rewrite Hrow, Hout; [done|]. right. nia.
Qed.

Lemma set_cols_zeros w r :
  length r = w →
  set_cols 1 r (replicate (w + 2) 0) = 0 :: (int64 <$> r) ++ [0].
Proof.
  intros Hr. destruct (padded_zeros w) as (mid & Hz & Hmid).
  rewrite Hz. unfold set_cols. cbn [take drop Nat.add].
  by rewrite Hr, <-Hmid, drop_app_length.
Qed.

(** A returned batch, pass by pass. *)
Lemma get_batch_content split b s w d w' :
  get_batch split b s w = Ok (d, w') →
  ∃ ps : list Pass,
    ps ≠ [] ∧
    1 ≤ py_or s (seq_per_img (loader w)) ∧
    Forall (pass_of (loader w) (py_or s (seq_per_img (loader w)))) ps ∧
    infos d = p_info <$> ps ∧
    gts d = p_gt <$> ps ∧
    fc_feats d
      = flat_map (λ p, replicate (Z.to_nat (py_or s (seq_per_img (loader w))))
                         (ex_fc (p_ex p))) ps ∧
    att_feats d
      = flat_map (λ p, replicate (Z.to_nat (py_or s (seq_per_img (loader w))))
                         (ex_att (p_ex p))) ps ∧
    (∀ k p q, ps !! k = Some p →
       (q < Z.to_nat (py_or s (seq_per_img (loader w))))%nat →
       (k * Z.to_nat (py_or s (seq_per_img (loader w))) + q < length ps)%nat →
       ∃ r, r ∈ p_seq p ∧
         (length (p_seq p) = Z.to_nat (py_or s (seq_per_img (loader w))) →
          p_seq p !! q = Some r) ∧
         labels d !! (k * Z.to_nat (py_or s (seq_per_img (loader w))) + q)%nat
           = Some (0 :: (int64 <$> r) ++ [0])).
Proof.
  intros H. pose proof H as H0.
  apply get_batch_Ok in H0
    as (calls & tmp0 & Hspi & [Hn1 Hn] & _ & _ & _ & _ & _ & Hinfos0 & _).
  cbn zeta in *.
  unfold get_batch in H.
  bind_inv H as L w0 Hw0. apply gets_Ok in Hw0 as [<- <-].
  set (bs := py_or b (batch_size (loader w))) in *.
  set (spi := py_or s (seq_per_img (loader w))) in *.
  set (wd := seq_length (loader w)) in *.
  bind_inv H as tmp1 w1 H1. apply np_zeros_Ok in H1 as (-> & Hdim & ->).
  bind_inv H as acc w2 Hloop.
  pose proof Hloop as Hloop0.
  apply batch_loop_Ok in Hloop0
    as (calls' & _ & _ & _ & _ & _ & _ & _ & Hlast & Hinfos' & _).
  apply batch_loop_content in Hloop
    as (ps & Hps & Hfc & Hatt & Hinfos & Hgts & Htmp).
  cbn [fc_batch att_batch tmp_label_batch acc_infos acc_gts] in *.
  rewrite app_nil_l in Hfc, Hatt, Hinfos, Hgts.
  bind_inv H as zeros w3 H3. apply np_zeros_Ok in H3 as (-> & Hdim' & ->).
  bind_inv H as label_batch w4 H4.
  apply copy_rows_Ok in H4 as (-> & Hlab & Hrows).
  bind_inv H as mask0 w5 H5. apply np_zeros_Ok in H5 as (-> & _ & ->).
  bind_inv H as shape w5' H5'. apply gets_Ok in H5' as [<- <-].
  bind_inv H as fc w6 H6. apply np_stack_Ok in H6 as (-> & -> & Hfc0).
  bind_inv H as att w7 H7. apply np_stack_Ok in H7 as (-> & -> & _).
  bind_inv H as L' w8 H8. apply gets_Ok in H8 as [<- <-].
  bind_inv H as pos w9 H9. apply of_option_Ok in H9 as [Hpos <-].
  bind_inv H as l w10 H10. apply of_option_Ok in H10 as [Hl <-].
  apply ret_Ok in H as [<- <-]. simpl in Hinfos0. simpl.
  assert (length ps = length calls) as Hlen.
  { rewrite <-(length_fmap p_info), <-Hinfos, <-(length_fmap info_ix), Hinfos0.
    by rewrite length_fmap. }
  assert (length calls' = length calls) as Hlen'.
  { apply (f_equal length) in Hinfos'. rewrite Hinfos0 in Hinfos'.
    simpl in Hinfos'. by rewrite !length_fmap in Hinfos'. }
  assert (acc_i acc + 1 = length ps)%nat as Habs.
  { destruct (last calls') as [cl|] eqn:Hcl.
    - destruct (Hlast cl eq_refl) as (_ & _ & ->). lia.
    - apply last_None in Hcl. subst calls'. simpl in Hlen'. lia. }
  exists ps. split_and!; try done.
  { intros ->. simpl in Hlen. lia. }
  intros k p q Hk Hq Hi.
  destruct Htmp as [_ Htmp]; [lia | rewrite length_replicate; nia |].
  destruct (Htmp k p q Hk Hq) as (r & Hr & Hrq & Hrow).
  exists r. split_and!; [done..|].
  rewrite Hrows, decide_True by (apply elem_of_seq; lia).
  rewrite Nat.add_0_l in Hrow. rewrite Hrow.
  rewrite lookup_replicate_2.
  - simpl. f_equal. apply set_cols_zeros.
    pose proof (proj1 (Forall_lookup _ _) Hps k p Hk)
      as (_ & _ & _ & w11 & w12 & _ & _ & _ & _ & _ & _ & Hh & Hseq).
    pose proof (get_sequence_Ok _ _ _ _ _ Hseq) as (_ & Hwidth & _).
    unfold wd, seq_length. rewrite <-Hh.
    by apply (proj1 (Forall_forall _ _) Hwidth r).
  - pose proof (lookup_lt_Some _ _ _ Hk). nia.
Qed.

Lemma get_sequence_in_range ix spi w sq w' s e :
  _get_sequence ix spi w = Ok (sq, w') →
  label_start_ix (loader w) !! ix = Some s →
  label_end_ix (loader w) !! ix = Some e →
  1 ≤ s → s ≤ e →
  e ≤ Z.of_nat (shape0 (h5_labels (h5_label_file (loader w)))) →
  1 ≤ spi →
  length sq = Z.to_nat spi ∧
  Forall (λ r, ∃ c : nat, s - 1 ≤ Z.of_nat c ≤ e - 1 ∧
                          int64 <$> r = int64 <$> caption_row (loader w) c) sq.
Proof.
  intros Hrun Hs He Hs1 Hse Hetab Hspi.
  destruct (get_sequence_spec w ix spi s e) as
    (sq' & w'' & Hrun' & _ & _ & Hlen & _ & Hfew & Hwin); [done..|lia|done|].
  rewrite Hrun in Hrun'. injection Hrun' as <- <-.
  split; [done|]. apply Forall_forall. intros r [q Hq]%list_elem_of_lookup.
  assert (q < Z.to_nat spi)%nat as Hlt
    by (rewrite <-Hlen; by eapply lookup_lt_Some).
  destruct (decide (e - s + 1 < spi)) as [Hcase|Hcase].
  - destruct (Hfew Hcase q Hlt) as (c & _ & Hc & Hrow).
    exists c. split; [done|]. rewrite Hrow in Hq. injection Hq as <-.
    apply int64_idemp_row.
  - destruct Hwin as (off & _ & Hlo & Hhi & Hrows); [lia|].
    exists (off + q)%nat. split; [lia|]. rewrite (Hrows q Hlt) in Hq. congruence.
Qed.

(** X13: the info record of each image of a returned batch carries the index,
    the id and the file path of the image's record, and the ground-truth
    group at the same position is the slice of the caption table between the
    image's pointers: for valid pointers, all the captions of the image, in
    the order of the table. *)
Theorem batch_records (split : string) (b s : option Z) (w w' : World)
    (d : Batch) :
  get_batch split b s w = Ok (d, w') →
  length (gts d) = length (infos d) ∧
  ∀ k inf, infos d !! k = Some inf →
    ∃ img st en,
      images (info (loader w)) !! info_ix inf = Some img ∧
      info_id inf = img_id img ∧
      info_file_path inf = img_file_path img ∧
      label_start_ix (loader w) !! info_ix inf = Some st ∧
      label_end_ix (loader w) !! info_ix inf = Some en ∧
      gts d !! k
        = Some (h5_rows (h5_labels (h5_label_file (loader w))) (st - 1) en
                  (shape1 (h5_labels (h5_label_file (loader w))))) ∧
      (1 ≤ st → st ≤ en →
       en ≤ Z.of_nat (shape0 (h5_labels (h5_label_file (loader w)))) →
       gts d !! k
         = Some (caption_row (loader w)
                   <$> seq (Z.to_nat (st - 1)) (Z.to_nat (en - st + 1)))).
Proof.
  intros (ps & _ & _ & Hps & Hinfos & Hgts & _)%get_batch_content.
  split; [by rewrite Hinfos, Hgts, !length_fmap|].
  intros k inf Hk. rewrite Hinfos, list_lookup_fmap in Hk.
  destruct (ps !! k) as [p|] eqn:Hp; [|done]. simpl in Hk. injection Hk as <-.
  pose proof (proj1 (Forall_lookup _ _) Hps k p Hp)
    as (img & st & en & _ & _ & Himg & _ & Hinf & Hst & Hen & Hgt & _).
  rewrite Hinf. simpl. exists img, st, en.
  assert (gts d !! k = Some (p_gt p)) as Hgk
    by (by rewrite Hgts, list_lookup_fmap, Hp).
  split_and!; try done.
  - by rewrite Hgk, Hgt.
  - intros H1 H2 H3. rewrite Hgk, Hgt. f_equal.
    replace en with ((st - 1) + (en - st + 1)) at 1 by lia.
    by rewrite h5_rows_eq by lia.
Qed.

Lemma flat_map_fmap_ext {A B C} (f : A → list C) (g : B → list C) (h : B → A)
    (l : list B) :
  Forall (λ x, g x = f (h x)) l → flat_map g l = flat_map f (h <$> l).
Proof. induction 1 as [|x l Hx _ IH]; [done|]. simpl. by rewrite Hx, IH. Qed.

(** X14: the feature rows of a returned batch are, image by image,
    [seq_per_img] copies of the arrays loaded from the files named by the
    image's id; without attention features the second array is the
    [np.zeros((1,1,1))] placeholder. *)
Theorem batch_features (split : string) (b s : option Z) (w w' : World)
    (d : Batch) :
  get_batch split b s w = Ok (d, w') →
  fc_feats d
    = flat_map (λ inf, replicate (Z.to_nat (py_or s (seq_per_img (loader w))))
                         (NpyFile (input_fc_dir (opt (loader w))) (info_id inf)))
        (infos d) ∧
  att_feats d
    = flat_map (λ inf, replicate (Z.to_nat (py_or s (seq_per_img (loader w))))
                         (if use_att (loader w)
                          then NpzFeat (input_att_dir (opt (loader w))) (info_id inf)
                          else Zeros111))
        (infos d).
Proof.
  intros (ps & _ & _ & Hps & Hinfos & _ & Hfc & Hatt & _)%get_batch_content.
  rewrite Hfc, Hatt, Hinfos. split.
  - apply flat_map_fmap_ext. eapply Forall_impl; [exact Hps|].
    intros p (img & st & en & _ & _ & _ & Hex & Hinf & _). simpl.
    rewrite Hex, Hinf. unfold example_of, get_npy_data. simpl.
    by destruct (use_att (loader w)).
  - apply flat_map_fmap_ext. eapply Forall_impl; [exact Hps|].
    intros p (img & st & en & _ & _ & _ & Hex & Hinf & _). simpl.
    rewrite Hex, Hinf. unfold example_of, get_npy_data. simpl.
    by destruct (use_att (loader w)).
Qed.

(** X15: in a returned batch of [n] images with valid caption pointers, each
    of the first [n] rows of the label matrix is a zero, the tokens of a
    caption of the image whose group of [seq_per_img] rows the row belongs
    to, cast to the 64-bit integers of the matrix, and a zero; the tokens
    themselves when those of the table fit 64 bits. *)
Theorem label_rows_hold_captions (split : string) (b s : option Z)
    (w w' : World) (d : Batch) :
  get_batch split b s w = Ok (d, w') →
  (∀ inf, inf ∈ infos d → caption_range_ok (loader w) (info_ix inf)) →
  ∀ i, (i < length (infos d))%nat →
    ∃ inf st en (c : nat),
      infos d !! (i / Z.to_nat (py_or s (seq_per_img (loader w))))%nat = Some inf ∧
      label_start_ix (loader w) !! info_ix inf = Some st ∧
      label_end_ix (loader w) !! info_ix inf = Some en ∧
      st - 1 ≤ Z.of_nat c ≤ en - 1 ∧
      labels d !! i
        = Some (0 :: (int64 <$> caption_row (loader w) c) ++ [0]) ∧
      (int64_table (loader w) →
       labels d !! i = Some (0 :: caption_row (loader w) c ++ [0])).
Proof.
  intros (ps & _ & Hspi & Hps & Hinfos & _ & _ & _ & Hrows)%get_batch_content
    Hvalid i Hi.
  set (spi := py_or s (seq_per_img (loader w))) in *.
  set (n := Z.to_nat spi) in *.
  assert (n ≠ 0)%nat as Hn by (unfold n; lia).
  pose proof (Nat.div_mod i n Hn) as Hdiv.
  pose proof (Nat.mod_upper_bound i n Hn) as Hmod.
  rewrite Hinfos, length_fmap in Hi.
  assert (i / n < length ps)%nat as Hk by (apply Nat.Div0.div_lt_upper_bound; nia).
  destruct (lookup_lt_is_Some_2 ps (i / n)%nat Hk) as [p Hp].
  destruct (Hrows (i / n)%nat p (i `mod` n)%nat Hp Hmod) as (r & Hr & _ & Hrow);
    [lia|].
  replace (i / n * n + i `mod` n)%nat with i in Hrow by lia.
  pose proof (proj1 (Forall_lookup _ _) Hps _ p Hp)
    as (img & st & en & w1 & w2 & _ & _ & Hinf & Hst & Hen & _ & Hh & Hseq).
  assert (infos d !! (i / n)%nat = Some (p_info p)) as Hik
    by (by rewrite Hinfos, list_lookup_fmap, Hp).
  destruct (Hvalid (p_info p)) as (st' & en' & Hst' & Hen' & H1 & H2 & H3).
  { by eapply list_elem_of_lookup_2. }
  rewrite Hinf in Hst', Hen'. simpl in Hst', Hen'.
  assert (st' = st) as -> by congruence. assert (en' = en) as -> by congruence.
  destruct (get_sequence_in_range _ _ _ _ _ st en Hseq) as [_ Hcaps];
    [unfold label_start_ix, label_end_ix in *; by rewrite Hh..
    | done | done | by rewrite Hh | done |].
  destruct (proj1 (Forall_forall _ _) Hcaps r Hr) as (c & Hc & Hrc).
  assert (caption_row (loader w1) c = caption_row (loader w) c) as Hcr.
  { unfold caption_row, seq_length. by rewrite Hh. }
  rewrite Hcr in Hrc.
  exists (p_info p), st, en, c. rewrite Hinf at 2 3. simpl.
  split_and!; try done; try lia.
  - by rewrite Hrow, Hrc.
  - intros Htab. by rewrite Hrow, Hrc, caption_row_int64.
Qed.

(** ** An epoch, batch by batch *)

Lemma unflagged_calls_keep_orders split : ∀ calls L,
  Forall (is_get_call split) calls →
  sequential L calls →
  Forall (λ c, flag c = false) calls →
  split_ix (loader_after L calls) = split_ix L.
Proof.
  induction calls as [|c calls IH]; intros L Hcalls Hseq Hflags; [done|].
  apply Forall_cons in Hcalls as [Hc Hcalls]. destruct Hseq as [Hb Hseq].
  apply Forall_cons in Hflags as [Hfc Hflags].
  rewrite loader_after_cons, IH by done.
  apply prefetch_get_Ok in Hc
    as (f & f' & l & ri & l' & img & _ & Hl & _ & _ & _ & _ & Hsame & Hw' & _).
  destruct Hsame as [-> _]; [by rewrite Hfc|].
  rewrite Hw', <-Hb. simpl. by apply insert_id.
Qed.

Lemma get_batch_static split b s w d w' :
  get_batch split b s w = Ok (d, w') →
  opt (loader w') = opt (loader w) ∧
  allow_shuffle (loader w') = allow_shuffle (loader w) ∧
  info (loader w') = info (loader w) ∧
  h5_label_file (loader w') = h5_label_file (loader w).
Proof.
  intros Hrun.
  apply (get_batch_invariant
           (λ L', opt L' = opt (loader w) ∧
                  allow_shuffle L' = allow_shuffle (loader w) ∧
                  info L' = info (loader w) ∧
                  h5_label_file L' = h5_label_file (loader w))
           split b s w d w'); [|done|done].
  intros w0 ex wr w1 Hget (Ho & Ha & Hi & Hh).
  pose proof (prefetch_get_static _ _ _ _ _ Hget) as (? & ? & ? & ?).
  split_and!; congruence.
Qed.

(** A batch on a ready split whose features can be stacked, with what it
    leaves of the split. *)
Lemma get_batch_on_ready split b s w l c :
  split_ok split w →
  stackable split w →
  order w split = Some l →
  cursor w split = Some c →
  1 ≤ py_or b (batch_size (loader w)) →
  1 ≤ py_or s (seq_per_img (loader w)) →
  ∃ d w' n,
    get_batch split b s w = Ok (d, w') ∧
    n = (Z.to_nat (py_or b (batch_size (loader w))) `min` (length l - c))%nat ∧
    (1 ≤ n)%nat ∧
    info_ix <$> infos d = take n (drop c l) ∧
    wrapped (bounds d) = bool_decide (c + n = length l)%nat ∧
    cursor w' split = Some ((c + n) `mod` length l)%nat ∧
    ((c + n < length l)%nat → order w' split = Some l) ∧
    opt (loader w') = opt (loader w) ∧
    split_ok split w' ∧
    stackable split w'.
Proof.
  intros Hok Hst Hl Hc Hbs Hspi.
  destruct (get_batch_total split b s w Hok Hst Hbs Hspi)
    as (d & w' & Hrun & Hok' & Hst').
  destruct Hok as (f & l0 & c0 & Hf & Hkey & _ & Hl0 & Hc0 & Hlt & _).
  assert (l0 = l) as -> by congruence. assert (c0 = c) as -> by congruence.
  pose proof Hrun as Hrun0.
  apply get_batch_calls in Hrun0
    as (calls & Hcalls & Hseq & Hafter & [Hn1 Hn] & Hflags & Hlast & Hinfos
        & _ & _ & _ & _ & _ & Hpos & Hmax).
  assert (calls ≠ []) as Hne by (intros ->; simpl in Hn1; lia).
  destruct (calls_follow_order split l calls (loader w) c)
    as (Hixs & Hfit & Hflag & Hcur & l' & Hl' & Hperm); [by eauto|done..|].
  destruct (last calls) as [cl|] eqn:Hcl; [|by apply last_None in Hcl].
  destruct (Hlast cl eq_refl) as [Hwr Hstop].
  specialize (Hflag cl eq_refl).
  assert (length calls
          = (Z.to_nat (py_or b (batch_size (loader w))) `min` (length l - c))%nat)
    as Hlen.
  { destruct (decide (length calls < Z.to_nat (py_or b (batch_size (loader w))))%nat)
      as [Hshort|Hfull]; [|lia].
    specialize (Hstop Hshort). rewrite Hflag in Hstop.
    apply bool_decide_eq_true in Hstop. lia. }
  exists d, w', (length calls). split_and!; try done.
  - by rewrite Hinfos.
  - by rewrite Hwr.
  - unfold cursor. by rewrite Hafter.
  - intros Hmore. unfold order. rewrite Hafter.
    rewrite (unflagged_calls_keep_orders split calls (loader w)); [done..|].
    apply Forall_lookup. intros i c0 Hi.
    destruct (decide (S i < length calls)%nat) as [Hin|Hend].
    + by apply (Hflags i).
    + assert (last calls = Some c0) as Hc0'.
      { rewrite last_lookup. rewrite <-Hi. f_equal.
        pose proof (lookup_lt_Some _ _ _ Hi). lia. }
      assert (c0 = cl) as -> by congruence.
      rewrite Hflag. apply bool_decide_eq_false_2. lia.
  - by destruct (get_batch_static split b s w d w' Hrun) as (? & _).
Qed.

(** X16: taking batches from a ready split whose feature arrays have one
    shape (what [np.stack] asks for) until one reports the wrap visits the
    rest of the epoch exactly once: the images of the batches, in order, are
    the indices of the split from the cursor on; every batch before the last
    is full and unwrapped, the last one is wrapped, and the cursor is back
    at 0 with the split ready, and stackable, for the next epoch.  (Enough
    batches are allowed for: [fuel] times [batch_size] covers what is
    left.) *)
Theorem epoch_of_batches (split : string) (b s : option Z) (fuel : nat)
    (w : World) (l : list nat) (c : nat) :
  split_ok split w →
  stackable split w →
  order w split = Some l →
  cursor w split = Some c →
  1 ≤ py_or b (batch_size (loader w)) →
  1 ≤ py_or s (seq_per_img (loader w)) →
  (length l - c ≤ fuel * Z.to_nat (py_or b (batch_size (loader w))))%nat →
  ∃ ds dl w',
    batches_until_wrap split b s fuel w = Ok (ds ++ [dl], w') ∧
    batch_indices (ds ++ [dl]) = drop c l ∧
    Forall (λ d, wrapped (bounds d) = false ∧
                 length (infos d) = Z.to_nat (py_or b (batch_size (loader w)))) ds ∧
    wrapped (bounds dl) = true ∧
    cursor w' split = Some 0%nat ∧
    split_ok split w' ∧
    stackable split w'.
Proof.
  revert w c. induction fuel as [|fuel IH];
    intros w c Hok Hst Hl Hc Hbs Hspi Hfuel.
  { destruct Hok as (f & l0 & c0 & _ & _ & _ & Hl0 & Hc0 & Hlt & _).
    assert (l0 = l) as -> by congruence. assert (c0 = c) as -> by congruence.
    lia. }
  destruct (get_batch_on_ready split b s w l c Hok Hst Hl Hc Hbs Hspi)
    as (d & w1 & n & Hrun & Hn & Hn1 & Hixs & Hwr & Hcur & Hord & Hopt & Hok1
        & Hst1).
  set (bs := Z.to_nat (py_or b (batch_size (loader w)))) in *.
  cbn [batches_until_wrap]. unfold mbind, M_bind.
  rewrite (bind_step _ _ _ _ _ Hrun). rewrite Hwr.
  case_bool_decide as Hend.
  - (* the batch reaches the end of the order *)
    exists [], d, w1. split_and!; try done.
    + unfold batch_indices. simpl. rewrite app_nil_r, Hixs.
      apply take_ge. rewrite length_drop. lia.
    + rewrite Hcur, Hend. by rewrite Nat.Div0.mod_same.
  - (* a full batch, and the rest of the epoch after it *)
    assert (n = bs ∧ c + n < length l)%nat as [Hfull Hmore] by lia.
    rewrite Nat.mod_small in Hcur by done.
    assert (py_or b (batch_size (loader w1)) = py_or b (batch_size (loader w)))
      as Hbs1 by (unfold batch_size; by rewrite Hopt).
    assert (py_or s (seq_per_img (loader w1)) = py_or s (seq_per_img (loader w)))
      as Hspi1 by (unfold seq_per_img; by rewrite Hopt).
    destruct (IH w1 (c + n)%nat)
      as (ds & dl & w' & Hrest & Hidx & Hds & Hdl & Hc' & Hok' & Hst');
      [done | done | by apply Hord | done | by rewrite Hbs1 | by rewrite Hspi1
      | rewrite Hbs1; fold bs; nia |].
    exists (d :: ds), dl, w'. split_and!; try done.
    + unfold bind at 1. rewrite Hrest. done.
    + change (batch_indices ((d :: ds) ++ [dl]))
        with ((info_ix <$> infos d) ++ batch_indices (ds ++ [dl])).
      rewrite Hidx, Hixs, <-drop_drop. apply take_drop.
    + constructor.
      * split; [done|].
        rewrite <-(length_fmap info_ix), Hixs, length_take, length_drop. lia.
      * by rewrite Hbs1 in Hds.
Qed.

(** ** Contrastive pairs *)

Lemma py_take_nonneg {A} n (l : list A) :
  0 ≤ n → py_take n l = take (Z.to_nat n) l.
Proof.
  intros Hn. unfold py_take, py_slice_bound. rewrite decide_False by lia.
  destruct (decide (Z.to_nat n ≤ length l)%nat).
  - f_equal. lia.
  - rewrite !take_ge by lia. done.
Qed.

Lemma py_take_prefix {A} n (l : list A) : py_take n l `prefix_of` l.
Proof. apply prefix_take. Qed.

Lemma contrastive_loop_Ok {St} cap rows : ∀ keys i m (s s' : St) m',
  contrastive_loop cap rows i keys m s = Ok (m', s') →
  s' = s ∧
  (∀ k cand, m' !! k = Some cand →
     m !! k = Some cand ∨
     ∃ j row, keys !! j = Some k ∧ rows !! (i + j)%nat = Some row ∧
              cand = py_take cap row) ∧
  (∀ k, k ∈ keys → is_Some (m' !! k)) ∧
  (∀ k, k ∉ keys → m' !! k = m !! k).
Proof.
  induction keys as [|k0 keys IH]; intros i m s s' m' H;
    cbn [contrastive_loop] in H.
  - apply ret_Ok in H as [<- <-]. split_and!; [done|by left| |done].
    by intros k ?%elem_of_nil.
  - bind_inv H as row s1 H1. apply of_option_Ok in H1 as [Hrow <-].
    apply IH in H as (-> & Hentries & Hcover & Hother).
    split_and!; [done| | |].
    + intros k cand Hk. destruct (Hentries k cand Hk) as [Hm|(j & r & ? & ? & ?)].
      * destruct (decide (k0 = k)) as [->|Hne].
        -- rewrite lookup_insert_eq in Hm. injection Hm as <-.
           right. exists 0%nat, row. rewrite Nat.add_0_r. done.
        -- rewrite lookup_insert_ne in Hm by done. by left.
      * right. exists (S j), r. split_and!; [done| |done].
        by replace (i + S j)%nat with (S i + j)%nat by lia.
    + intros k [->|Hin]%elem_of_cons.
      * destruct (decide (k0 ∈ keys)) as [Hin|Hnin]; [by apply Hcover|].
        rewrite Hother, lookup_insert_eq by done. done.
      * by apply Hcover.
    + intros k Hk. apply not_elem_of_cons in Hk as [Hne Hk].
      rewrite Hother by done. by rewrite lookup_insert_ne.
Qed.

(** The entries of the map after the file of one split was read. *)
Lemma load_similarity_Ok {St} opt_max d m (s s' : St) m' :
  load_similarity opt_max d m s = Ok (m', s') →
  s' = s ∧
  ∃ cap,
    (opt_max ≠ 0 → cap = opt_max) ∧
    (opt_max = 0 → num_1p d !! 0%nat = Some cap) ∧
    (∀ k cand, m' !! k = Some cand →
       m !! k = Some cand ∨
       ∃ j row, all_indices d !! j = Some k ∧
                sorted_image_indices d !! j = Some row ∧
                cand = py_take cap row) ∧
    (∀ k, k ∈ all_indices d → is_Some (m' !! k)) ∧
    (∀ k, is_Some (m !! k) → is_Some (m' !! k)).
Proof.
  unfold load_similarity. intros H. bind_inv H as cap s1 H1.
  assert (s1 = s ∧ (opt_max ≠ 0 → cap = opt_max) ∧
          (opt_max = 0 → num_1p d !! 0%nat = Some cap)) as (-> & Hc1 & Hc2).
  { unfold contrastive_cap in H1. case_decide.
    - apply of_option_Ok in H1 as [? <-]. done.
    - apply ret_Ok in H1 as [<- <-]. done. }
  apply contrastive_loop_Ok in H as (-> & Hentries & Hcover & Hother).
  split; [done|]. exists cap. split_and!; try done.
  intros k Hk. destruct (decide (k ∈ all_indices d)); [by apply Hcover|].
  by rewrite Hother.
Qed.

(** X17: when the constructor has read the three similarity files, every
    image listed in one of them has an entry in the map, and every entry of
    the map is the ranked list of one of the files, cut to the configured
    number of candidates, or to the number the file gives when the
    configured one is 0: a prefix of the ranked list, of at most that many
    candidates. *)
Theorem contrastive_map_entries {St} (opt_max : Z)
    (train val test : SimilarityStats) (s s' : St) (m : gmap nat (list nat)) :
  load_contrastive_images opt_max train val test s = Ok (m, s') →
  (∀ d k, d ∈ [train; val; test] → k ∈ all_indices d → is_Some (m !! k)) ∧
  (∀ k cand, m !! k = Some cand →
     ∃ d cap j row,
       d ∈ [train; val; test] ∧
       (opt_max ≠ 0 → cap = opt_max) ∧
       (opt_max = 0 → num_1p d !! 0%nat = Some cap) ∧
       all_indices d !! j = Some k ∧
       sorted_image_indices d !! j = Some row ∧
       cand = py_take cap row ∧
       cand `prefix_of` row ∧
       (0 ≤ cap → (length cand ≤ Z.to_nat cap)%nat)).
Proof.
  unfold load_contrastive_images. intros H.
  bind_inv H as m1 s1 H1.
  apply load_similarity_Ok in H1 as (-> & c1 & Ha1 & Hb1 & He1 & Hc1 & _).
  bind_inv H as m2 s2 H2.
  apply load_similarity_Ok in H2 as (-> & c2 & Ha2 & Hb2 & He2 & Hc2 & Hk2).
  apply load_similarity_Ok in H as (-> & c3 & Ha3 & Hb3 & He3 & Hc3 & Hk3).
  assert (∀ d cap j row k cand,
            d ∈ [train; val; test] →
            (opt_max ≠ 0 → cap = opt_max) →
            (opt_max = 0 → num_1p d !! 0%nat = Some cap) →
            all_indices d !! j = Some k →
            sorted_image_indices d !! j = Some row →
            cand = py_take cap row →
            ∃ d cap j row,
              d ∈ [train; val; test] ∧
              (opt_max ≠ 0 → cap = opt_max) ∧
              (opt_max = 0 → num_1p d !! 0%nat = Some cap) ∧
              all_indices d !! j = Some k ∧
              sorted_image_indices d !! j = Some row ∧
              cand = py_take cap row ∧
              cand `prefix_of` row ∧
              (0 ≤ cap → (length cand ≤ Z.to_nat cap)%nat)) as Hpack.
  { intros d cap j row k cand Hd Ha Hb Hj Hr ->.
    exists d, cap, j, row. split_and!; try done.
    - apply py_take_prefix.
    - intros Hcap. rewrite py_take_nonneg, length_take by done. lia. }
  split.
  - intros d k Hd Hk.
    apply elem_of_cons in Hd as [->|Hd]; [by apply Hk3, Hk2, Hc1|].
    apply elem_of_cons in Hd as [->|Hd]; [by apply Hk3, Hc2|].
    apply elem_of_cons in Hd as [->|Hd]; [by apply Hc3|].
    by apply elem_of_nil in Hd.
  - intros k cand Hk.
    destruct (He3 k cand Hk) as [Hk'|(j & row & ? & ? & ?)];
      [|apply (Hpack test c3 j row); try done;
        by apply list_elem_of_further, list_elem_of_further, list_elem_of_here].
    destruct (He2 k cand Hk') as [Hk''|(j & row & ? & ? & ?)];
      [|apply (Hpack val c2 j row); try done;
        by apply list_elem_of_further, list_elem_of_here].
    destruct (He1 k cand Hk'') as [Hk0|(j & row & ? & ? & ?)];
      [by rewrite lookup_empty in Hk0|].
    apply (Hpack train c1 j row); try done. by apply list_elem_of_here.
Qed.

Lemma contrastive_loop_short {St} cap rows : ∀ keys i m (s : St),
  (i ≤ length rows)%nat →
  (length rows < i + length keys)%nat →
  contrastive_loop cap rows i keys m s = Err IndexError.
Proof.
  induction keys as [|k keys IH]; intros i m s Hi Hlen; simpl in Hlen; [lia|].
  cbn [contrastive_loop]. unfold mbind, M_bind, bind.
  destruct (rows !! i) as [row|] eqn:Hrow; simpl; [|done].
  pose proof (lookup_lt_Some _ _ _ Hrow). apply IH; lia.
Qed.

(** X18: reading a similarity file fails with [IndexError] when the file
    ranks fewer images than it lists, and when the configured number of
    candidates is 0 and the file gives no number of its own. *)
Theorem malformed_similarity_file {St} (opt_max : Z) (d : SimilarityStats)
    (m : gmap nat (list nat)) (s : St) :
  ((length (sorted_image_indices d) < length (all_indices d))%nat →
   (opt_max = 0 → num_1p d ≠ []) →
   load_similarity opt_max d m s = Err IndexError) ∧
  (opt_max = 0 → num_1p d = [] →
   load_similarity opt_max d m s = Err IndexError).
Proof.
  split.
  - intros Hshort Hnum. unfold load_similarity, mbind, M_bind, contrastive_cap.
    case_decide as H0.
    + destruct (num_1p d) as [|n0 ns] eqn:E; [by destruct (Hnum H0)|].
      simpl. unfold bind, ret. apply contrastive_loop_short; [lia|done].
    + unfold bind, ret. apply contrastive_loop_short; [lia|done].
  - intros -> Hnum. unfold load_similarity, mbind, M_bind, contrastive_cap.
    rewrite decide_True by done. by rewrite Hnum.
Qed.

(** X19: [__getitem__] of a contrastive loader pairs an image with one of
    the candidates of its entry in the map, the one at the position the
    generator draws, and loads the features of the image itself; it returns
    whenever the image has a record and a nonempty entry, and fails with
    [KeyError] for an image without entry and with [ValueError] for an
    empty entry. *)
Theorem contrastive_pair_is_a_candidate (L : DataLoader)
    (cm : gmap nat (list nat)) (ix : nat) (g : Rng) :
  (∀ ex g',
     __getitem__contrastive L cm ix g = Ok (ex, g') →
     ∃ cands img,
       cm !! ix = Some cands ∧
       cands !! (g 0%nat `mod` length cands)%nat = Some (cex_contrastive_ix ex) ∧
       cex_contrastive_ix ex ∈ cands ∧
       cex_ix ex = ix ∧
       images (info L) !! ix = Some img ∧
       cex_fc ex = NpyFile (input_fc_dir (opt L)) (img_id img) ∧
       cex_att ex = (if use_att L then NpzFeat (input_att_dir (opt L)) (img_id img)
                     else Zeros111)) ∧
  (∀ cands, cm !! ix = Some cands → cands ≠ [] →
     is_Some (images (info L) !! ix) →
     ∃ ex g', __getitem__contrastive L cm ix g = Ok (ex, g')) ∧
  (cm !! ix = None →
   __getitem__contrastive L cm ix g = Err (KeyError (pretty ix))) ∧
  (cm !! ix = Some [] → __getitem__contrastive L cm ix g = Err ValueError).
Proof.
  split_and!.
  - intros ex g' H. unfold __getitem__contrastive in H.
    bind_inv H as cands g1 H1. apply of_option_Ok in H1 as [Hc <-].
    bind_inv H as j g2 H2. unfold randint in H2.
    case_decide as Hlen; [done|].
    unfold mbind, M_bind, bind, _randbelow, ret in H2.
    injection H2 as <- <-.
    bind_inv H as cix g3 H3. apply of_option_Ok in H3 as [Hcix <-].
    bind_inv H as img g4 H4. apply of_option_Ok in H4 as [Himg <-].
    apply ret_Ok in H as [<- <-].
    replace (Z.to_nat (Z.of_nat (length cands) - 1 - 0 + 1)) with (length cands)
      in Hcix by lia.
    rewrite Z.add_0_l, Nat2Z.id in Hcix.
    exists cands, img. unfold get_npy_data_contrastive.
    destruct (use_att L); simpl; split_and!; try done;
      by eapply list_elem_of_lookup_2.
  - intros cands Hc Hne [img Himg].
    unfold __getitem__contrastive, mbind, M_bind. unfold bind at 1.
    rewrite Hc. simpl. unfold randint.
    assert (0 < length cands)%nat as Hpos by (destruct cands; [done|simpl; lia]).
    rewrite decide_False by lia.
    unfold mbind, M_bind, bind, _randbelow, ret. simpl.
    replace (Z.to_nat (Z.of_nat (length cands) - 1 - 0 + 1)) with (length cands)
      by lia.
    rewrite Z.add_0_l, Nat2Z.id.
    pose proof (Nat.mod_upper_bound (g 0%nat) (length cands) ltac:(lia)) as Hlt.
    destruct (lookup_lt_is_Some_2 cands _ Hlt) as [cix ->]. simpl.
    rewrite Himg. simpl. by eexists _, _.
  - intros Hc. unfold __getitem__contrastive, mbind, M_bind, bind.
    by rewrite Hc.
  - intros Hc. unfold __getitem__contrastive, mbind, M_bind, bind.
    by rewrite Hc.
Qed.

(** ** Making a split ready *)

(** X20: [reset_iterator] repairs a split: whatever the cursor and the pool
    of its fetcher were, if the split is not empty and its images are well
    formed, the split is ready after the reset. *)
Theorem reset_iterator_makes_ready (split : string) (w : World)
    (f : BlobFetcher) (l : list nat) :
  _prefetch_process (loader w) !! split = Some f →
  order w split = Some l →
  l ≠ [] →
  Forall (image_ok (loader w)) l →
  ∃ w', reset_iterator split w = Ok (tt, w') ∧ split_ok split w'.
Proof.
  intros Hf Hl Hne Himgs.
  unfold reset_iterator, mbind, M_bind, bind, gets. simpl. rewrite Hf. simpl.
  eexists. split; [reflexivity|].
  unfold split_ok, primed, order, cursor in *. simpl.
  eexists _, l, 0%nat. rewrite !lookup_insert_eq.
  split_and!; [done..| |done].
  destruct l; [done | simpl; lia].
Qed.

(** X21: a loader constructed on a well-formed dataset serves batches from
    each of its nonempty splits whose feature arrays have one shape (what
    [np.stack] asks for) at once: the first batch is returned and starts at
    the first index of the split. *)
Theorem constructed_loader_serves_batches (o : Opt) (sh : bool) (inf : Info)
    (h5 : H5) (L : DataLoader) (g : Rng) (fs : Feat → list nat)
    (split : string) (b s : option Z) (l : list nat) :
  DataLoader__init__ o sh inf h5 = Ok L →
  dataset_ok L →
  split = "train" ∨ split = "val" ∨ split = "test" →
  split_ix L !! split = Some l →
  l ≠ [] →
  stackable split {| loader := L; random := g; files := fs |} →
  1 ≤ py_or b (batch_size L) →
  1 ≤ py_or s (seq_per_img L) →
  ∃ d w',
    get_batch split b s {| loader := L; random := g; files := fs |}
      = Ok (d, w') ∧
    info_ix <$> infos d = take (Z.to_nat (py_or b (batch_size L))) l ∧
    wrapped (bounds d)
      = bool_decide (length l ≤ Z.to_nat (py_or b (batch_size L)))%nat ∧
    split_ok split w' ∧
    stackable split w'.
Proof.
  intros Hinit Hdata Hsplit Hl Hne Hst Hbs Hspi.
  assert (split_ok split {| loader := L; random := g; files := fs |}) as Hok.
  { apply (init_split_ok o sh inf h5); [done..|]. rewrite Hl. congruence. }
  assert (cursor {| loader := L; random := g; files := fs |} split = Some 0%nat)
    as Hc.
  { unfold cursor. simpl. injection Hinit as <-. simpl.
    destruct Hsplit as [->|[->| ->]]; done. }
  destruct (get_batch_on_ready split b s _ l 0%nat Hok Hst Hl Hc Hbs Hspi)
    as (d & w' & n & Hrun & Hn & _ & Hixs & Hwr & _ & _ & _ & Hok' & Hst').
  simpl in Hn. exists d, w'. split_and!; try done.
  - rewrite Hixs, drop_0, Hn, Nat.sub_0_r.
    destruct (decide (Z.to_nat (py_or b (batch_size L)) ≤ length l)%nat).
    + by rewrite Nat.min_l.
    + rewrite Nat.min_r by lia. by rewrite !take_ge by lia.
  - rewrite Hwr. apply bool_decide_ext. lia.
Qed.

(** ** Stacking the features *)

Lemma np_stack_mismatch {S A} (shape : A → list nat) (xs : list A) (s : S) x y :
  x ∈ xs → y ∈ xs → shape x ≠ shape y → np_stack shape xs s = Err ValueError.
Proof.
  intros Hx Hy Hne. destruct xs as [|x0 rest]; [done|]. simpl.
  case_decide as Hall; [|done]. exfalso. apply Hne.
  assert (∀ z, z ∈ x0 :: rest → shape z = shape x0) as Hx0.
  { intros z [->|Hz]%elem_of_cons; [done|].
    by apply (proj1 (Forall_forall _ _) Hall). }
  by rewrite (Hx0 x Hx), (Hx0 y Hy).
Qed.

Lemma np_stack_cases {S A} (shape : A → list nat) (xs : list A) (s : S) :
  np_stack shape xs s = Ok (xs, s) ∨ np_stack shape xs s = Err ValueError.
Proof.
  destruct xs as [|x0 rest]; [by right|]. simpl.
  case_decide; [by left | by right].
Qed.

Lemma feat_shape_files w w' :
  files w' = files w → feat_shape w' = feat_shape w.
Proof. unfold feat_shape. by intros ->. Qed.

(** The features of a returned batch passed [np.stack]. *)
Lemma get_batch_shapes split b s w d w' :
  get_batch split b s w = Ok (d, w') →
  (∀ x y, x ∈ fc_feats d → y ∈ fc_feats d → feat_shape w x = feat_shape w y) ∧
  (∀ x y, x ∈ att_feats d → y ∈ att_feats d → feat_shape w x = feat_shape w y).
Proof.
  unfold get_batch. intros H.
  bind_inv H as L w0 H0. apply gets_Ok in H0 as [<- <-].
  bind_inv H as tmp0 w1 H1. apply np_zeros_Ok in H1 as (-> & _ & ->).
  bind_inv H as acc w2 Hloop. apply batch_loop_files in Hloop as Hfiles.
  bind_inv H as zeros w3 H3. apply np_zeros_Ok in H3 as (-> & _ & ->).
  bind_inv H as label_batch w4 H4. apply copy_rows_Ok in H4 as (-> & _).
  bind_inv H as mask0 w5 H5. apply np_zeros_Ok in H5 as (-> & _ & ->).
  bind_inv H as shape w5' H5'. apply gets_Ok in H5' as [<- <-].
  rewrite (feat_shape_files _ _ Hfiles) in H.
  bind_inv H as fc w6 H6. pose proof (np_stack_shapes _ _ _ _ _ H6) as Hfc.
  apply np_stack_Ok in H6 as (-> & -> & _).
  bind_inv H as att w7 H7. pose proof (np_stack_shapes _ _ _ _ _ H7) as Hatt.
  apply np_stack_Ok in H7 as (-> & -> & _).
  bind_inv H as L' w8 H8. apply gets_Ok in H8 as [<- <-].
  bind_inv H as pos w9 H9. apply of_option_Ok in H9 as [_ <-].
  bind_inv H as l w10 H10. apply of_option_Ok in H10 as [_ <-].
  apply ret_Ok in H as [<- _]. simpl. by split.
Qed.

(** On a ready split the fetch loop of [get_batch] and the copy of the
    labels go through: the batch is decided by [np.stack]. *)
Lemma get_batch_reaches_stack split b s w :
  split_ok split w →
  1 ≤ py_or b (batch_size (loader w)) →
  1 ≤ py_or s (seq_per_img (loader w)) →
  ∃ tmp0 acc w2 (K : list Feat → list Feat → M World Batch),
    batch_loop split (py_or s (seq_per_img (loader w)))
      (seq 0 (Z.to_nat (py_or b (batch_size (loader w)))))
      {| fc_batch := []; att_batch := []; tmp_label_batch := tmp0;
         acc_infos := []; acc_gts := []; acc_wrapped := false; acc_i := 0 |} w
      = Ok (acc, w2) ∧
    get_batch split b s w
      = bind (np_stack (feat_shape w2) (fc_batch acc))
          (λ fc, bind (np_stack (feat_shape w2) (att_batch acc)) (K fc)) w2.
Proof.
  intros Hok Hbs Hspi.
  unfold get_batch, mbind, M_bind. unfold bind at 1, gets at 1.
  set (bs := py_or b (batch_size (loader w))) in *.
  set (spi := py_or s (seq_per_img (loader w))) in *.
  set (wd := seq_length (loader w)).
  unfold np_zeros at 1. rewrite decide_False by nia.
  unfold bind at 1, ret at 1.
  set (acc0 := {| fc_batch := []; att_batch := [];
                  tmp_label_batch := replicate (Z.to_nat (bs * spi)) (replicate (wd + 2) 0);
                  acc_infos := []; acc_gts := []; acc_wrapped := false;
                  acc_i := 0 |}).
  destruct (batch_loop_total split spi (Z.to_nat bs) 0 acc0 w Hok Hspi)
    as (acc & w2 & Hloop & Hok2).
  { simpl. rewrite length_replicate. nia. }
  rewrite (bind_step _ _ _ _ _ Hloop).
  pose proof Hloop as Hloop0.
  apply batch_loop_Ok in Hloop0
    as (calls & _ & _ & _ & Hn & Hne & _ & _ & Hlast & _ & _ & _ & _ & Htmp & _).
  simpl in Htmp. rewrite length_replicate in Htmp.
  assert (calls ≠ []) as Hcne by (apply Hne; lia).
  destruct (last calls) as [cl|] eqn:Hcl; [|by apply last_None in Hcl].
  destruct (Hlast cl eq_refl) as (_ & _ & Hi).
  assert (length calls ≠ 0)%nat as Hlen0 by (by destruct calls).
  assert (acc_i acc + 1 = length calls)%nat as -> by lia.
  unfold np_zeros. rewrite !decide_False by nia.
  unfold bind at 1, ret at 1.
  destruct (copy_rows_total (tmp_label_batch acc) w2 (seq 0 (length calls))
              (replicate (Z.to_nat (Z.of_nat (length calls) * spi))
                 (replicate (wd + 2) 0))) as (label_batch & Hcopy).
  { apply Forall_forall. intros i Hi'%elem_of_seq.
    rewrite Htmp, length_replicate. nia. }
  rewrite (bind_step _ _ _ _ _ Hcopy). unfold bind at 1, ret at 1.
  unfold bind at 1, gets at 1.
  exists (tmp_label_batch acc0), acc, w2. eexists. split; [exact Hloop|].
  reflexivity.
Qed.

(** X22: [np.stack] decides whether a batch is returned.  In a returned
    batch the arrays of [fc_feats] have one shape, and so have those of
    [att_feats].  On a ready split, when two of the images that the batch
    would hold come with fc arrays of different shapes, or with att arrays
    of different shapes, [get_batch] fails with [ValueError]. *)
Theorem mixed_shapes_are_refused (split : string) (b s : option Z) (w : World) :
  (∀ d w',
     get_batch split b s w = Ok (d, w') →
     (∀ x y, x ∈ fc_feats d → y ∈ fc_feats d →
        feat_shape w x = feat_shape w y) ∧
     (∀ x y, x ∈ att_feats d → y ∈ att_feats d →
        feat_shape w x = feat_shape w y)) ∧
  (∀ l c i j ixi ixj imi imj,
     split_ok split w →
     order w split = Some l →
     cursor w split = Some c →
     1 ≤ py_or s (seq_per_img (loader w)) →
     (i < Z.to_nat (py_or b (batch_size (loader w))))%nat →
     (j < Z.to_nat (py_or b (batch_size (loader w))))%nat →
     l !! (c + i)%nat = Some ixi →
     l !! (c + j)%nat = Some ixj →
     images (info (loader w)) !! ixi = Some imi →
     images (info (loader w)) !! ixj = Some imj →
     feat_shape w (ex_fc (example_of (loader w) ixi imi))
       ≠ feat_shape w (ex_fc (example_of (loader w) ixj imj)) ∨
     feat_shape w (ex_att (example_of (loader w) ixi imi))
       ≠ feat_shape w (ex_att (example_of (loader w) ixj imj)) →
     get_batch split b s w = Err ValueError).
Proof.
  split; [intros d w'; apply get_batch_shapes|].
  intros l c i j ixi ixj imi imj Hok Hl Hc Hspi Hi Hj Hli Hlj Himi Himj Hne.
  destruct (get_batch_reaches_stack split b s w Hok ltac:(lia) Hspi)
    as (tmp0 & acc & w2 & K & Hloop & ->).
  pose proof (batch_loop_files _ _ _ _ _ _ _ Hloop) as Hfiles.
  apply batch_loop_Ok in Hloop
    as (calls & Hcalls & Hseq & _ & Hn & Hnz & _ & Hflags & Hlast & _ & Hfc
        & Hatt & _).
  simpl in Hfc, Hatt.
  set (bs := Z.to_nat (py_or b (batch_size (loader w)))) in *.
  set (spi := Z.to_nat (py_or s (seq_per_img (loader w)))) in *.
  assert (calls ≠ []) as Hcne by (apply Hnz; lia).
  destruct Hok as (f & l0 & c0 & Hf & Hkey & _ & Hl0 & Hc0 & Hlt & _).
  assert (l0 = l) as -> by congruence. assert (c0 = c) as -> by congruence.
  destruct (calls_follow_order split l calls (loader w) c)
    as (Hixs & Hfit & Hflag & _); [by eauto|done..|].
  destruct (last calls) as [cl|] eqn:Hcl; [|by apply last_None in Hcl].
  destruct (Hlast cl eq_refl) as (_ & Hstop & _).
  specialize (Hflag cl eq_refl).
  assert (length calls = (bs `min` (length l - c))%nat) as Hlen.
  { destruct (decide (length calls < bs)%nat) as [Hshort|Hfull]; [|lia].
    specialize (Hstop Hshort). rewrite Hflag in Hstop.
    apply bool_decide_eq_true in Hstop. lia. }
  pose proof (calls_examples split (loader w) l calls (loader w)
                ltac:(by exists f) ltac:(by exists l) eq_refl eq_refl
                Hcalls Hseq) as Hex.
  (* the call that fetched the image at a position of the batch *)
  assert (∀ k ixk imk, (k < bs)%nat → l !! (c + k)%nat = Some ixk →
            images (info (loader w)) !! ixk = Some imk →
            ∃ ck, ck ∈ calls ∧ got ck = example_of (loader w) ixk imk) as Hcall.
  { intros k ixk imk Hk Hlk Himk.
    pose proof (lookup_lt_Some _ _ _ Hlk) as Hck.
    destruct (lookup_lt_is_Some_2 calls k ltac:(lia)) as [ck Hcalk].
    exists ck. split; [by eapply list_elem_of_lookup_2|].
    destruct (proj1 (Forall_lookup _ _) Hex k ck Hcalk)
      as (ix & img & _ & Himg & Hgot).
    assert (ex_ix (got ck) = ixk) as Hixk.
    { apply (f_equal (λ xs, xs !! k)) in Hixs.
      rewrite list_lookup_fmap, Hcalk in Hixs. simpl in Hixs.
      rewrite lookup_take_lt, lookup_drop, Hlk in Hixs by lia.
      by injection Hixs. }
    rewrite Hgot in Hixk. unfold example_of in Hixk.
    rewrite ex_ix_get_npy_data in Hixk. subst ix.
    rewrite Hgot. congruence. }
  destruct (Hcall i ixi imi Hi Hli Himi) as (ci & Hci & Hgi).
  destruct (Hcall j ixj imj Hj Hlj Himj) as (cj & Hcj & Hgj).
  assert (spi ≠ 0)%nat as Hspi0 by (unfold spi; lia).
  assert (∀ (proj : Example → Feat) ck, ck ∈ calls →
            proj (got ck) ∈ flat_map (λ c0, replicate spi (proj (got c0))) calls)
    as Hmem.
  { intros proj ck Hck. apply list_elem_of_In, in_flat_map.
    exists ck. split; [by apply list_elem_of_In|].
    apply list_elem_of_In, elem_of_replicate. done. }
  rewrite (feat_shape_files _ _ Hfiles).
  destruct Hne as [Hne|Hne].
  - apply bind_Err.
    apply (np_stack_mismatch _ _ _ (ex_fc (got ci)) (ex_fc (got cj))).
    + rewrite Hfc. by apply (Hmem ex_fc).
    + rewrite Hfc. by apply (Hmem ex_fc).
    + by rewrite Hgi, Hgj.
  - destruct (np_stack_cases (feat_shape w) (fc_batch acc) w2) as [Hfcs|Hfcs];
      [|by apply bind_Err].
    rewrite (bind_step _ _ _ _ _ Hfcs). apply bind_Err.
    apply (np_stack_mismatch _ _ _ (ex_att (got ci)) (ex_att (got cj))).
    + rewrite Hatt. by apply (Hmem ex_att).
    + rewrite Hatt. by apply (Hmem ex_att).
    + by rewrite Hgi, Hgj.
Qed.

(** ** The properties on the small dataset *)

(** Decides a comparison of two closed integers by evaluation. *)
Ltac z_le_eval := vm_compute; intros ?; discriminate.

Lemma demo_dataset_ok : dataset_ok demo_loader.
Proof.
  intros ix Hix. unfold caption_range_ok.
  destruct ix as [|[|[|[|ix]]]]; [| | | |simpl in Hix; lia];
    eexists _, _; (split_and!; [reflexivity|reflexivity|simpl; lia..]).
Defined.

Lemma demo_train_ok : split_ok "train" demo_world.
Proof.
  apply (init_split_ok demo_opt true demo_info demo_h5).
  - reflexivity.
  - by left.
  - apply demo_dataset_ok.
  - vm_compute. discriminate.
Defined.

Lemma demo_train_stackable : stackable "train" demo_world.
Proof.
  exists [4]%nat, [2; 2; 4]%nat. intros l ix img _ _ _. split; reflexivity.
Defined.


(** A batch of one image with two caption rows: a label row with
    [seq_length] nonzero tokens and a blank one. *)
Lemma mask_of_label_rows_witness :
  ∃ d w', get_batch "train" (Some 1) (Some 2) demo_world = Ok (d, w') ∧
          labels d = [[0; 5; 6; 0]; [0; 0; 0; 0]] ∧
          masks d = [[1; 1; 1; 1]; [1; 1; 0; 0]].
Proof.
  assert (∃ d w', get_batch "train" (Some 1) (Some 2) demo_world = Ok (d, w') ∧
                   labels d = [[0; 5; 6; 0]; [0; 0; 0; 0]])
    as (d & w' & Hrun & Hlab).
  { eexists _, _. split; [vm_compute; reflexivity | reflexivity]. }
  destruct (mask_of_label_rows _ _ _ _ _ _ Hrun) as [Hlen Hrows].
  exists d, w'. split_and!; [exact Hrun | exact Hlab |].
  rewrite Hlab in Hlen, Hrows.
  destruct (Hrows 0%nat [0; 5; 6; 0] eq_refl) as (_ & _ & H0).
  destruct (Hrows 1%nat [0; 0; 0; 0] eq_refl) as (_ & _ & H1).
  destruct (masks d) as [|m0 [|m1 [|m2 ms]]]; try discriminate Hlen.
  simpl in H0, H1. injection H0 as ->. injection H1 as ->. reflexivity.
Defined.

Lemma epoch_without_shuffle_witness :
  ∃ out w',
    inds_run (BlobFetcher__init__ "train" false) 3 plain_world = Ok (out, w') ∧
    out.*1 = [0; 2; 3]%nat ∧
    out.*2 = [false; false; true] ∧
    cursor w' "train" = Some 0%nat.
Proof.
  destruct (epoch_without_shuffle (BlobFetcher__init__ "train" false)
              plain_world [0; 2; 3]%nat)
    as [(out & w' & Hrun & Hixs & Hflags & Hcur & _) _];
    [reflexivity | reflexivity | simpl; lia | reflexivity |].
  exists out, w'. split_and!; [exact Hrun | exact Hixs | exact Hflags | exact Hcur].
Defined.

Lemma get_batch_fetches_witness :
  ∃ d w',
    get_batch "train" (Some 5) (Some 3) demo_world = Ok (d, w') ∧
    length (infos d) = 3%nat ∧
    info_ix <$> infos d = [0; 2; 3]%nat ∧
    wrapped (bounds d) = true ∧
    it_pos_now (bounds d) = 0%nat.
Proof.
  destruct (proj2 (get_batch_fetches "train" (Some 5) (Some 3) demo_world)
              demo_train_ok demo_train_stackable)
    as (d & w' & l & c & Hrun & Hl & Hc & Hlen & Hixs & Hwr & Hpos & _);
    [z_le_eval | z_le_eval |].
  assert (l = [0; 2; 3]%nat) as -> by (vm_compute in Hl; congruence).
  assert (c = 0%nat) as -> by (vm_compute in Hc; congruence).
  exists d, w'. simpl in Hlen. rewrite Hlen in Hixs, Hwr, Hpos.
  split_and!; [exact Hrun | exact Hlen | exact Hixs | exact Hwr | exact Hpos].
Defined.

Lemma reset_iterator_restarts_witness :
  ∃ w', (get_batch "train" (Some 2) (Some 1);; reset_iterator "train") demo_world
        = Ok (tt, w') ∧
        cursor w' "train" = Some 0%nat.
Proof.
  destruct (get_batch_total "train" (Some 2) (Some 1) demo_world demo_train_ok
              demo_train_stackable)
    as (d & w1 & Hrun & (f & _ & _ & Hf & _) & _); [z_le_eval | z_le_eval |].
  destruct (reset_iterator_restarts "train" w1 f Hf) as (w' & Hreset & Hcur & _).
  exists w'. split; [|exact Hcur].
  unfold mbind, M_bind. rewrite (bind_step _ _ _ _ _ Hrun). exact Hreset.
Defined.

Lemma split_registry_at_load_witness :
  ∃ L tr va te,
    DataLoader__init__ demo_opt true demo_info demo_h5 = Ok L ∧
    split_ix L !! "train" = Some tr ∧
    split_ix L !! "val" = Some va ∧
    split_ix L !! "test" = Some te ∧
    (length tr + length va + length te = 4)%nat.
Proof.
  destruct (split_registry_at_load demo_opt true demo_info demo_h5)
    as (L & tr & va & te & Hinit & Htr & Hva & Hte & _ & _ & _ & _ & _ & _ & _
        & _ & _ & Hsum).
  exists L, tr, va, te.
  split_and!; [exact Hinit | exact Htr | exact Hva | exact Hte |].
  exact (Hsum eq_refl).
Defined.

(** The [get] of the last image of train wraps and reshuffles: the order
    [0; 2; 3] becomes [3; 2; 0]. *)
Lemma get_keeps_multiset_witness :
  ∃ ex w',
    order last_world "train" = Some [0; 2; 3]%nat ∧
    cursor last_world "train" = Some 2%nat ∧
    prefetch_get "train" last_world = Ok ((ex, true), w') ∧
    order w' "train" = Some [3; 2; 0]%nat ∧
    [3; 2; 0]%nat ≡ₚ [0; 2; 3]%nat.
Proof.
  assert (∃ ex w', prefetch_get "train" last_world = Ok ((ex, true), w') ∧
                    order w' "train" = Some [3; 2; 0]%nat)
    as (ex & w' & Hget & Hord).
  { eexists _, _. split; [vm_compute; reflexivity | reflexivity]. }
  destruct (get_keeps_multiset "train" last_world w' ex true Hget "train"
              [0; 2; 3]%nat eq_refl) as (l' & Hl' & Hperm & _).
  assert (l' = [3; 2; 0]%nat) as -> by congruence.
  exists ex, w'.
  split_and!; [reflexivity | reflexivity | exact Hget | exact Hord | exact Hperm].
Defined.

Lemma late_bad_fetch_ok : fetch_ok "train" late_bad_world.
Proof.
  exists (BlobFetcher__init__ "train" true), [0; 2; 3]%nat, 0%nat.
  split_and!; [reflexivity | reflexivity | exact I | reflexivity | reflexivity
              | simpl; lia |].
  repeat constructor; by eexists.
Defined.

(** The image without captions as the first of a batch, and as the second,
    behind a well-formed one. *)
Lemma zero_captions_fail_at_retrieval_witness :
  _get_sequence 0 2 bad_world = Err (AssertionError no_label_msg) ∧
  get_batch "train" None None bad_world = Err (AssertionError no_label_msg) ∧
  get_batch "train" (Some 2) (Some 1) late_bad_world
    = Err (AssertionError no_label_msg).
Proof.
  destruct zero_captions_fail_at_retrieval as (_ & Hseq & Hbatch & Hlate & _).
  split_and!.
  - apply (Hseq bad_world 0%nat 2 0); [reflexivity | lia].
  - assert (∃ ex wr w1, prefetch_get "train" bad_world = Ok ((ex, wr), w1) ∧
                         ex_ix ex = 0%nat) as (ex & wr & w1 & Hget & Hix).
    { eexists _, _, _. split; [vm_compute; reflexivity | reflexivity]. }
    apply (Hbatch "train" None None bad_world ex wr w1 0 Hget);
      [rewrite Hix; reflexivity | lia | z_le_eval | z_le_eval].
  - apply (Hlate "train" (Some 2) (Some 1) late_bad_world [0; 2; 3]%nat 0%nat
             1%nat 2%nat 0 late_bad_fetch_ok);
      [reflexivity | reflexivity | simpl; lia | z_le_eval | | reflexivity
      | reflexivity | lia].
    intros j ixj Hj Hl. assert (j = 0%nat) as -> by lia.
    injection Hl as <-. exists 1, 2.
    split_and!; [reflexivity | reflexivity | lia | lia | simpl; lia].
Defined.

Lemma get_batch_falsy_arguments_witness :
  get_batch "train" (Some 0) (Some 0) demo_world
    = get_batch "train" None None demo_world ∧
  ∃ d w', get_batch "train" (Some 0) (Some 0) demo_world = Ok (d, w') ∧
          length (infos d) = 2%nat.
Proof.
  destruct (get_batch_falsy_arguments "train" (Some 0) demo_world)
    as (Hb & _ & _ & _ & Hne).
  split; [exact Hb|].
  assert (∃ d w', get_batch "train" (Some 0) (Some 0) demo_world = Ok (d, w') ∧
                   length (infos d) = 2%nat) as (d & w' & H & Hlen).
  { eexists _, _. split; [vm_compute; reflexivity | reflexivity]. }
  pose proof (Hne _ _ _ _ H) as (Hinfos & _).
  exists d, w'. split; [exact H | exact Hlen].
Defined.

(** The split sizes of a set of ten images, three of them outside the three
    splits: folded into train, and left out. *)
Example restval_policy :
  let sizes train_only :=
    let m := split_loop train_only 0 ten_images empty_splits in
    (length <$> m !! "train", length <$> m !! "val", length <$> m !! "test") in
  sizes 0 = (Some 6, Some 2, Some 2)%nat ∧
  sizes 1 = (Some 3, Some 2, Some 2)%nat.
Proof. split; reflexivity. Qed.

(** ** The further properties on the small dataset *)

Lemma bad_fetch_ok : fetch_ok "train" bad_world.
Proof.
  exists (BlobFetcher__init__ "train" true), [0; 2; 3]%nat, 0%nat.
  split_and!; [reflexivity | reflexivity | exact I | reflexivity | reflexivity
              | simpl; lia |].
  repeat constructor; by eexists.
Defined.

(** The first image of [bad_world] has no caption, and is fetched. *)
Lemma get_on_ready_split_witness :
  ∃ w',
    prefetch_get "train" bad_world
      = Ok ((example_of (loader bad_world) 0 (demo_image "train" 10), false), w') ∧
    cursor w' "train" = Some 1%nat ∧
    fetch_ok "train" w'.
Proof.
  destruct (get_on_ready_split "train" bad_world bad_fetch_ok)
    as (l & c & ix & img & wr & w' & Hl & Hc & Hix & Himg & Hget & Hwr & Hcur
        & Hok & _).
  assert (l = [0; 2; 3]%nat) as -> by (vm_compute in Hl; congruence).
  assert (c = 0%nat) as -> by (vm_compute in Hc; congruence).
  assert (ix = 0%nat) as -> by (vm_compute in Hix; congruence).
  assert (img = demo_image "train" 10) as ->
    by (vm_compute in Himg; injection Himg as <-; reflexivity).
  assert (wr = false) as -> by (rewrite Hwr; reflexivity).
  exists w'. split_and!; [exact Hget | exact Hcur | exact Hok].
Defined.

Lemma stale_pool_is_fatal_witness :
  prefetch_get "train" stale_world = Err (AssertionError "ix not equal").
Proof.
  refine (proj1 (stale_pool_is_fatal "train" stale_world
                   {| bf_split := "train"; if_shuffle := true;
                      split_loader := Some [2; 3]%nat |}
                   [0; 2; 3]%nat 0 0 _ _ _ _) 2%nat [3]%nat _ _ _);
    [reflexivity | reflexivity | reflexivity | reflexivity | reflexivity
    | lia | by eexists].
Defined.

Lemma iterating_past_the_end_witness :
  get_batch "test" None None demo_world = Err IndexError.
Proof.
  refine (proj2 (iterating_past_the_end "test" None None demo_world
                   (BlobFetcher__init__ "test" false) [] 0 _ _ _ _) _ _);
    [reflexivity | reflexivity | reflexivity | simpl; lia
    | z_le_eval | z_le_eval].
Defined.

Lemma unknown_split_is_key_error_witness :
  reset_iterator "restval" demo_world = Err (KeyError "restval").
Proof.
  refine (proj1 (unknown_split_is_key_error demo_opt true demo_info demo_h5
                   demo_loader (λ k, k) demo_files "restval" None None _ _ _ _));
    [reflexivity | discriminate | discriminate | discriminate].
Defined.

Lemma get_batch_needs_positive_sizes_witness :
  get_batch "train" (Some (-1)) (Some 2) demo_world = Err ValueError.
Proof.
  apply (proj2 (get_batch_needs_positive_sizes "train" (Some (-1)) (Some 2)
                  demo_world)).
  vm_compute. reflexivity.
Defined.

Lemma get_reshuffles_only_on_wrap_witness :
  ∃ ex w',
    prefetch_get "train" demo_world = Ok ((ex, false), w') ∧
    split_ix (loader w') = split_ix demo_loader.
Proof.
  assert (∃ ex w', prefetch_get "train" demo_world = Ok ((ex, false), w'))
    as (ex & w' & Hget).
  { eexists _, _. vm_compute. reflexivity. }
  exists ex, w'. split; [exact Hget|].
  apply (get_reshuffles_only_on_wrap "train" demo_world w' ex false
           (BlobFetcher__init__ "train" true) Hget); [reflexivity | by left].
Defined.

(** A batch of two images of train, one caption row each. *)
Lemma demo_batch :
  ∃ d w', get_batch "train" (Some 2) (Some 1) demo_world = Ok (d, w') ∧
          info_ix <$> infos d = [0; 2]%nat.
Proof. eexists _, _. split; [vm_compute; reflexivity | reflexivity]. Defined.

Lemma get_batch_touches_one_split_witness :
  ∃ d w', get_batch "train" (Some 2) (Some 1) demo_world = Ok (d, w') ∧
          cursor w' "val" = Some 0%nat ∧ order w' "val" = Some [1%nat].
Proof.
  destruct demo_batch as (d & w' & Hrun & _).
  destruct (get_batch_touches_one_split "train" (Some 2) (Some 1) demo_world w' d
              (BlobFetcher__init__ "train" true) eq_refl eq_refl Hrun)
    as (_ & _ & _ & _ & Hframe).
  destruct (Hframe "val") as (Hord & Hcur & _); [discriminate|].
  exists d, w'. split_and!; [exact Hrun | by rewrite Hcur | by rewrite Hord].
Defined.

Lemma get_batch_keeps_split_sizes_witness :
  ∃ d w' l', get_batch "train" (Some 2) (Some 1) demo_world = Ok (d, w') ∧
             order w' "train" = Some l' ∧ l' ≡ₚ [0; 2; 3]%nat.
Proof.
  destruct demo_batch as (d & w' & Hrun & _).
  destruct (get_batch_keeps_split_sizes "train" (Some 2) (Some 1) demo_world w' d
              Hrun) as (Hperm & _).
  destruct (Hperm "train" [0; 2; 3]%nat eq_refl) as (l' & Hl' & Hp).
  exists d, w', l'. split_and!; [exact Hrun | exact Hl' | exact Hp].
Defined.

Lemma shuffle_policy_is_kept_witness :
  ∃ d w', get_batch "train" (Some 2) (Some 1) demo_world = Ok (d, w') ∧
          shuffle_policy (loader w').
Proof.
  destruct demo_batch as (d & w' & Hrun & _).
  destruct shuffle_policy_is_kept as (Hinit & Hbatch & _).
  exists d, w'. split; [exact Hrun|].
  apply (Hbatch "train" (Some 2) (Some 1) demo_world d w' Hrun).
  apply (Hinit demo_opt true demo_info demo_h5). reflexivity.
Defined.

Lemma unshuffled_split_keeps_order_witness :
  ∃ d w', get_batch "val" (Some 2) (Some 1) demo_world = Ok (d, w') ∧
          wrapped (bounds d) = true ∧
          split_ix (loader w') = split_ix demo_loader.
Proof.
  assert (∃ d w', get_batch "val" (Some 2) (Some 1) demo_world = Ok (d, w') ∧
                   wrapped (bounds d) = true) as (d & w' & Hrun & Hwr).
  { eexists _, _. split; [vm_compute; reflexivity | reflexivity]. }
  exists d, w'. split_and!; [exact Hrun | exact Hwr |].
  apply (unshuffled_split_keeps_order "val" (Some 2) (Some 1) demo_world w' d);
    [|left; discriminate | exact Hrun].
  apply (init_shuffle_policy demo_opt true demo_info demo_h5). reflexivity.
Defined.

Lemma get_sequence_all_captions_witness :
  ∃ w', _get_sequence 0 2 demo_world = Ok ([[5; 6]; [7; 8]], w').
Proof.
  destruct (get_sequence_all_captions demo_world 0 2 1 2) as (w' & Hrun & _);
    [reflexivity | reflexivity | lia | simpl; lia | lia | lia |].
  exists w'. exact Hrun.
Defined.

Lemma get_sequence_draws_witness :
  ∃ sq w', _get_sequence 1 3 demo_world = Ok (sq, w') ∧
           random w' 0%nat = 3%nat.
Proof.
  assert (∃ sq w', _get_sequence 1 3 demo_world = Ok (sq, w'))
    as (sq & w' & Hrun).
  { eexists _, _. vm_compute. reflexivity. }
  destruct (get_sequence_draws demo_world w' 1 3 1 sq Hrun eq_refl)
    as [_ Hdraws].
  exists sq, w'. split; [exact Hrun|]. exact (Hdraws 0%nat).
Defined.

Lemma batch_records_witness :
  ∃ d w', get_batch "train" (Some 2) (Some 1) demo_world = Ok (d, w') ∧
          length (gts d) = length (infos d).
Proof.
  destruct demo_batch as (d & w' & Hrun & _).
  exists d, w'. split; [exact Hrun|].
  exact (proj1 (batch_records "train" (Some 2) (Some 1) demo_world w' d Hrun)).
Defined.

Lemma batch_features_witness :
  ∃ d w', get_batch "train" (Some 2) (Some 1) demo_world = Ok (d, w') ∧
          fc_feats d
            = flat_map (λ inf, [NpyFile "fc" (info_id inf)]) (infos d).
Proof.
  destruct demo_batch as (d & w' & Hrun & _).
  exists d, w'. split; [exact Hrun|].
  exact (proj1 (batch_features "train" (Some 2) (Some 1) demo_world w' d Hrun)).
Defined.

Lemma wide_dataset_ok : dataset_ok (loader wide_world).
Proof.
  intros ix Hix. unfold caption_range_ok.
  destruct ix as [|[|[|[|ix]]]]; [| | | |simpl in Hix; lia];
    eexists _, _; (split_and!; [reflexivity|reflexivity|simpl; lia..]).
Defined.

(** A caption with the token [2^63]: the label row holds it as [-2^63]. *)
Lemma label_rows_hold_captions_witness :
  ∃ d w', get_batch "train" (Some 1) (Some 1) wide_world = Ok (d, w') ∧
          labels d !! 0%nat
            = Some [0; 4294967295; -9223372036854775808; 0].
Proof.
  assert (∃ d w', get_batch "train" (Some 1) (Some 1) wide_world = Ok (d, w') ∧
                   info_ix <$> infos d = [0%nat]) as (d & w' & Hrun & Hixs).
  { eexists _, _. split; [vm_compute; reflexivity | reflexivity]. }
  exists d, w'. split; [exact Hrun|].
  destruct (label_rows_hold_captions "train" (Some 1) (Some 1) wide_world w' d
              Hrun) with (i := 0%nat)
    as (inf & st & en & c & Hinf & Hst & Hen & Hc & Hrow & _).
  - intros inf Hinf. apply wide_dataset_ok.
    assert (info_ix inf ∈ [0%nat]) as Hin
      by (rewrite <-Hixs; by apply list_elem_of_fmap_2).
    apply elem_of_cons in Hin. destruct Hin as [Hin|Hin].
    + rewrite Hin. clear. vm_compute. lia.
    + apply elem_of_nil in Hin. destruct Hin.
  - rewrite <-(length_fmap info_ix), Hixs. simpl. lia.
  - change (0 / _)%nat with 0%nat in Hinf.
    destruct (infos d) as [|i0 rest]; [discriminate Hinf|].
    simpl in Hinf, Hixs. injection Hinf as ->. injection Hixs as Hix0 _.
    rewrite Hix0 in Hst, Hen.
    assert (st = 1) as -> by (vm_compute in Hst; congruence).
    assert (en = 1) as -> by (vm_compute in Hen; congruence).
    assert (c = 0%nat) as -> by lia.
    exact Hrow.
Defined.

Lemma epoch_of_batches_witness :
  ∃ ds dl w',
    batches_until_wrap "train" (Some 2) (Some 1) 2 demo_world
      = Ok (ds ++ [dl], w') ∧
    batch_indices (ds ++ [dl]) = [0; 2; 3]%nat ∧
    cursor w' "train" = Some 0%nat.
Proof.
  destruct (epoch_of_batches "train" (Some 2) (Some 1) 2 demo_world
              [0; 2; 3]%nat 0 demo_train_ok demo_train_stackable)
    as (ds & dl & w' & Hrun & Hidx & _ & _ & Hcur & _);
    [reflexivity | reflexivity | z_le_eval | z_le_eval | simpl; lia |].
  exists ds, dl, w'. split_and!; [exact Hrun | exact Hidx | exact Hcur].
Defined.

Lemma contrastive_map_entries_witness :
  demo_contrastive_images !! 0%nat = Some [3; 2]%nat ∧
  ∃ cand, demo_contrastive_images !! 1%nat = Some cand.
Proof.
  split; [reflexivity|].
  assert (load_contrastive_images 2 demo_similar_train demo_similar_val
            demo_similar_test tt = Ok (demo_contrastive_images, tt)) as Hrun
    by (vm_compute; reflexivity).
  destruct (contrastive_map_entries 2 _ _ _ _ _ _ Hrun) as [Hcover _].
  destruct (Hcover demo_similar_val 1%nat) as [cand Hcand].
  - apply list_elem_of_further, list_elem_of_here.
  - apply list_elem_of_here.
  - exists cand. exact Hcand.
Defined.

Lemma malformed_similarity_file_witness :
  load_similarity 0
    {| num_1p := []; sorted_image_indices := []; all_indices := [0%nat] |} ∅ tt
  = Err IndexError.
Proof.
  apply (proj2 (malformed_similarity_file 0
                  {| num_1p := []; sorted_image_indices := [];
                     all_indices := [0%nat] |} ∅ tt)); reflexivity.
Defined.

Lemma contrastive_pair_is_a_candidate_witness :
  ∃ ex g',
    __getitem__contrastive demo_loader demo_contrastive_images 0 (λ k, S k)
      = Ok (ex, g') ∧
    cex_contrastive_ix ex ∈ [3; 2]%nat.
Proof.
  destruct (contrastive_pair_is_a_candidate demo_loader demo_contrastive_images
              0 (λ k, S k)) as (Hmember & Hreturns & _).
  destruct (Hreturns [3; 2]%nat) as (ex & g' & Hrun);
    [reflexivity | discriminate | by eexists |].
  destruct (Hmember ex g' Hrun) as (cands & img & Hc & _ & Hin & _).
  assert (cands = [3; 2]%nat) as -> by (vm_compute in Hc; congruence).
  exists ex, g'. split; [exact Hrun | exact Hin].
Defined.

Lemma reset_iterator_makes_ready_witness :
  ∃ w', reset_iterator "train" stale_world = Ok (tt, w') ∧ split_ok "train" w'.
Proof.
  apply (reset_iterator_makes_ready "train" stale_world
           {| bf_split := "train"; if_shuffle := true;
              split_loader := Some [2; 3]%nat |} [0; 2; 3]%nat);
    [reflexivity | reflexivity | discriminate |].
  repeat constructor; try (by eexists); apply demo_dataset_ok; simpl; lia.
Defined.

Lemma constructed_loader_serves_batches_witness :
  ∃ d w', get_batch "train" (Some 2) None demo_world = Ok (d, w') ∧
          info_ix <$> infos d = [0; 2]%nat ∧
          wrapped (bounds d) = false.
Proof.
  destruct (constructed_loader_serves_batches demo_opt true demo_info demo_h5
              demo_loader (λ k, k) demo_files "train" (Some 2) None
              [0; 2; 3]%nat)
    as (d & w' & Hrun & Hixs & Hwr & _);
    [reflexivity | apply demo_dataset_ok | by left | reflexivity | discriminate
    | apply demo_train_stackable | z_le_eval | z_le_eval |].
  exists d, w'. split_and!; [exact Hrun | exact Hixs | exact Hwr].
Defined.

(** The fc files of the first two images of train hold arrays of shapes
    [4] and [8]: the batch is refused. *)
Lemma mixed_shapes_are_refused_witness :
  get_batch "train" (Some 2) (Some 1) mixed_world = Err ValueError.
Proof.
  apply (proj2 (mixed_shapes_are_refused "train" (Some 2) (Some 1) mixed_world)
           [0; 2; 3]%nat 0%nat 0%nat 1%nat 0%nat 2%nat
           (demo_image "train" 10) (demo_image "restval" 12));
    [ | reflexivity | reflexivity | z_le_eval | simpl; lia | simpl; lia
    | reflexivity | reflexivity | reflexivity | reflexivity
    | left; discriminate ].
  apply (init_split_ok demo_opt true demo_info demo_h5);
    [reflexivity | by left | apply demo_dataset_ok | vm_compute; discriminate].
Defined.
